(** * Browser process lifecycle and CDP connectivity (autoBrowser)

    A shallow embedding of [src/browser/chrome.executables.ts],
    [src/browser/chrome.ts] and the session registry of
    [src/browser/direct-client.ts].

    The TypeScript code talks to the operating system: it probes the file
    system, runs helper programs, spawns and signals a child process, reads
    the wall clock, sleeps, and performs HTTP and WebSocket requests.  Every
    such interaction is modelled explicitly:

    - what the host answers is read from a [Host] record of oracles (indexed
      by the time at which the request starts);
    - what the program changes is kept in a [World]: the clock, the file
      system, the [killed] flag of every child-process handle, the module
      variable [activeBrowser], and a chronological [trace] of the
      interactions that were performed.

    Asynchronous functions become functions in a state-and-exception monad
    over [World]; an [await] is sequencing.  A run ends in one of three
    ways: it returns, it throws (a rejected promise), or the Node process
    dies of an exception that no code can catch.  The clock is ideal: a request
    lasts as long as the host says (cut off by the timer the code arms), a
    [setTimeout] sleep lasts exactly its delay, and synchronous code takes
    no time.  The two polling loops are defined by well-founded recursion on
    the time left before their deadline, so they are total functions.

    Names follow the source.  Three could not: [exists] is [pathExists],
    [proc.kill] is [procKill], and the field [cdpPort] of [RunningChrome]
    is [runningPort] (the profile keeps [cdpPort]).  Strings are ASCII
    strings and port numbers are integers. *)

From Stdlib Require Import ZArith List String Ascii Bool Lia DecimalString.
From Equations Require Import Equations.
Import ListNotations.

#[local] Open Scope string_scope.
#[local] Open Scope Z_scope.
Set Warnings "-register-all".

(** ** Data model *)

(** [BrowserExecutable["kind"]] *)
Inductive BrowserKind : Type :=
| brave | canary | chromium | chrome | custom | edge.

Record BrowserExecutable : Type := mkExe {
  kind : BrowserKind;
  path : string
}.

(** [NodeJS.Platform]; only three values are distinguished by the code. *)
Inductive Platform : Type :=
| darwin | linux | win32 | otherPlatform (id : string).

(** [types.ts]: an absent optional field is [None]. *)
Record ResolvedBrowserConfig : Type := mkConfig {
  executablePath : option string;
  headless : bool;
  noSandbox : bool;
  enabled : option bool;
  controlPort : option Z
}.

Record ResolvedBrowserProfile : Type := mkProfile {
  name : string;
  cdpPort : Z;
  cdpUrl : string;
  cdpIsLoopback : bool;
  color : string
}.

(** A handle on a [ChildProcess] object: the objects themselves live in the
    [World], because [kill] mutates their [killed] flag. *)
Definition ProcRef : Type := nat.

Record RunningChrome : Type := mkRunning {
  pid : Z;
  exe : BrowserExecutable;
  userDataDir : string;
  runningPort : Z;          (* field [cdpPort] of [RunningChrome] *)
  startedAt : Z;
  proc : ProcRef
}.

(** Values produced by [JSON.parse] and [Response.json]. *)
Inductive JValue : Type :=
| JNull
| JBool (b : bool)
| JNum (n : Z)
| JStr (s : string)
| JArr (items : list JValue)
| JObj (fields : list (string * JValue)).

Inductive Signal : Type := SIGTERM | SIGKILL.

(** A thrown [Error]; all the code's errors are plain [Error]s told apart by
    their message. *)
Inductive JsError : Type := mkError (message : string).

(** ** The host *)

Definition Headers : Type := list (string * string).

(** What a [fetch] of a URL does when left alone: the time after which it
    settles and how. *)
Inductive HttpReply : Type :=
| NetworkError                                (* fetch rejects *)
| Response (ok : bool) (body : option JValue) (* [None]: [res.json()] rejects *).

Record HttpOutcome : Type := mkHttp { httpLatency : N; httpReply : HttpReply }.

(** What a helper program run by [execFileSync] does when left alone: it
    ends by itself after [execLatency] ms; [None] stands for a failure
    (non-zero exit, output over [maxBuffer]). *)
Record ExecOutcome : Type := mkExec { execLatency : N; execOutput : option string }.

(** What a [new WebSocket(url, { handshakeTimeout })] does when left alone. *)
Inductive WsOutcome : Type :=
| WsOpen (latency : N)     (* the "open" event *)
| WsError (latency : N)    (* the "error" event *)
| WsSilent                 (* neither event is ever emitted *)
| WsThrew (e : JsError)    (* the constructor throws: a URL it cannot use *).

(** What [proc.kill(signal)] does. *)
Inductive KillOutcome : Type :=
| Delivered       (* the signal was sent: returns true and sets [killed] *)
| NotDelivered    (* returns false *)
| KillThrew (e : JsError).

Record Host : Type := mkHost {
  platform : Platform;                        (* process.platform *)
  cwd : string;                               (* process.cwd() *)
  homedir : string;                           (* os.homedir() *)
  envProgramFiles : option string;            (* process.env.ProgramFiles *)
  envProgramFilesX86 : option string;         (* process.env["ProgramFiles(x86)"] *)
  (* library functions *)
  pathJoin : list string -> string;           (* path.join *)
  pathWin32Join : list string -> string;      (* path.win32.join *)
  jsonParse : string -> option JValue;        (* JSON.parse; [None]: throws *)
  (* helpers imported from cdp.ts and cdp.helpers.ts *)
  appendCdpPath : string -> string -> string;
  getHeadersWithAuth : string -> Headers;
  normalizeCdpWsUrl : string -> string -> string;
  (* the operating system and the network, by starting time *)
  execFileSync : string -> list string -> Z -> Z -> ExecOutcome;
  mkdirFault : string -> Z -> option JsError; (* [fs.mkdirSync] throws *)
  spawnFault : string -> list string -> Z -> option JsError;  (* [spawn] throws *)
  spawnPid : ProcRef -> option Z;             (* [proc.pid] of the n-th child;
                                                 [None]: it could not be started *)
  exitCodeAt : ProcRef -> Z -> option Z;      (* [proc.exitCode] at a time *)
  killOutcome : ProcRef -> Signal -> Z -> KillOutcome;
  httpGet : string -> Headers -> Z -> HttpOutcome;
  wsConnect : string -> Headers -> Z -> Z -> WsOutcome  (* handshakeTimeout, time *)
}.

(** ** The world *)

Inductive Event : Type :=
| EvExists (p : string)                        (* fs.existsSync *)
| EvExec (command : string) (args : list string)
| EvMkdir (dir : string)
| EvSpawn (p : ProcRef) (file : string) (args : list string) (home : string)
| EvKill (p : ProcRef) (s : Signal)
| EvHttpGet (url : string)
| EvWsHandshake (url : string)
| EvLog (line : string).

Record World : Type := mkWorld {
  now : Z;                                (* Date.now() *)
  fs : string -> bool;                    (* which paths exist *)
  killed : ProcRef -> bool;               (* [proc.killed] *)
  spawned : nat;                          (* child processes created so far *)
  activeBrowser : option RunningChrome;   (* direct-client.ts module variable *)
  trace : list Event
}.

Definition log (e : Event) (w : World) : World :=
  mkWorld (now w) (fs w) (killed w) (spawned w) (activeBrowser w) (trace w ++ [e]).

Definition advance (ms : Z) (w : World) : World :=
  mkWorld (now w + ms) (fs w) (killed w) (spawned w) (activeBrowser w) (trace w).

Definition markKilled (p : ProcRef) (w : World) : World :=
  mkWorld (now w) (fs w) (fun q => Nat.eqb q p || killed w q)
          (spawned w) (activeBrowser w) (trace w).

Definition createDir (dir : string) (w : World) : World :=
  mkWorld (now w) (fun q => String.eqb q dir || fs w q) (killed w)
          (spawned w) (activeBrowser w) (trace w).

Definition setActive (a : option RunningChrome) (w : World) : World :=
  mkWorld (now w) (fs w) (killed w) (spawned w) a (trace w).

(** ** The monad of effectful functions *)

Inductive Outcome (A : Type) : Type :=
| Returned (a : A)
| Thrown (e : JsError)
| Died                    (* the Node process has terminated: no result *).
Arguments Returned {A} a.
Arguments Thrown {A} e.
Arguments Died {A}.

Definition M (A : Type) : Type := World -> Outcome A * World.

Definition ret {A} (a : A) : M A := fun w => (Returned a, w).

Definition throw {A} (e : JsError) : M A := fun w => (Thrown e, w).

(** An uncaught exception outside the reach of the running code. *)
Definition die {A} : M A := fun w => (Died, w).

Definition bind {A B} (m : M A) (k : A -> M B) : M B :=
  fun w =>
    match m w with
    | (Returned a, w1) => k a w1
    | (Thrown e, w1) => (Thrown e, w1)
    | (Died, w1) => (Died, w1)
    end.

(** [try { m } catch { h }] *)
Definition tryCatch {A} (m : M A) (h : JsError -> M A) : M A :=
  fun w =>
    match m w with
    | (Returned a, w1) => (Returned a, w1)
    | (Thrown e, w1) => h e w1
    | (Died, w1) => (Died, w1)
    end.

Definition effect (f : World -> World) : M unit := fun w => (Returned tt, f w).

Definition ask {A} (f : World -> A) : M A := fun w => (Returned (f w), w).

(** Case analysis on a computed value that remembers where it came from;
    used by the loops to justify their termination. *)
Definition inspect {A : Type} (x : A) : { y : A | x = y } := exist _ x eq_refl.

Declare Scope js_scope.
Delimit Scope js_scope with js.
Notation "x <- m ;; k" := (bind m (fun x => k))
  (at level 61, m at next level, right associativity) : js_scope.
Notation "m ;; k" := (bind m (fun _ => k))
  (at level 61, right associativity) : js_scope.
#[local] Open Scope js_scope.

(** ** JavaScript strings (ASCII fragment) *)

Definition lowerAscii (c : ascii) : ascii :=
  let n := nat_of_ascii c in
  if (Nat.leb 65 n && Nat.leb n 90)%bool then ascii_of_nat (n + 32) else c.

(** [s.toLowerCase()] *)
Fixpoint toLowerCase (s : string) : string :=
  match s with
  | EmptyString => EmptyString
  | String c r => String (lowerAscii c) (toLowerCase r)
  end.

(** [s.includes(needle)] *)
Definition includes (s needle : string) : bool :=
  match String.index 0 needle s with
  | Some _ => true
  | None => false
  end.

Definition isSpace (c : ascii) : bool :=
  let n := nat_of_ascii c in
  (Nat.eqb n 32 || (Nat.leb 9 n && Nat.leb n 13))%bool.

Fixpoint trimStart (s : string) : string :=
  match s with
  | String c r => if isSpace c then trimStart r else s
  | EmptyString => EmptyString
  end.

(** Drops trailing white space: a suffix made of spaces only vanishes. *)
Fixpoint trimEnd (s : string) : string :=
  match s with
  | EmptyString => EmptyString
  | String c r =>
      match trimEnd r with
      | EmptyString => if isSpace c then EmptyString else String c EmptyString
      | r' => String c r'
      end
  end.

(** [s.trim()] *)
Definition trim (s : string) : string := trimEnd (trimStart s).

(** [s.replace(/\/$/, "")] *)
Fixpoint stripTrailingSlash (s : string) : string :=
  match s with
  | EmptyString => EmptyString
  | String c EmptyString => if Ascii.eqb c "/" then EmptyString else s
  | String c r => String c (stripTrailingSlash r)
  end.

(** A template literal's rendering of an integer. *)
Definition numberToString (n : Z) : string :=
  NilZero.string_of_int (Z.to_int n).

(** The text between double quotes, as template literals write it. *)
Definition quoted (s : string) : string :=
  String (ascii_of_nat 34) (s ++ String (ascii_of_nat 34) EmptyString).

(** [args.push(x)] *)
Definition push (args : list string) (x : string) : list string :=
  (args ++ [x])%list.

(** A string is truthy when it is not empty. *)
Definition truthy (s : string) : bool :=
  match s with EmptyString => false | _ => true end.

(** ** chrome.executables.ts *)

Definition CHROMIUM_BUNDLE_IDS : list string :=
  [ "com.google.Chrome";
    "com.google.Chrome.beta";
    "com.google.Chrome.canary";
    "com.google.Chrome.dev";
    "com.brave.Browser";
    "com.brave.Browser.beta";
    "com.brave.Browser.nightly";
    "com.microsoft.Edge";
    "com.microsoft.EdgeBeta";
    "com.microsoft.EdgeDev";
    "com.microsoft.EdgeCanary";
    "org.chromium.Chromium";
    "com.vivaldi.Vivaldi";
    "com.operasoftware.Opera";
    "com.operasoftware.OperaGX";
    "com.yandex.desktop.yandex-browser";
    "company.thebrowser.Browser" ].

(** [set.has(x)] *)
Definition has (set : list string) (x : string) : bool :=
  existsb (String.eqb x) set.

(** [exists(filePath)]: [fs.existsSync] guarded by a [try]. *)
Definition pathExists (filePath : string) : M bool :=
  fun w => (Returned (fs w filePath), log (EvExists filePath) w).

Definition inferKindFromIdentifier (identifier : string) : BrowserKind :=
  let id := toLowerCase identifier in
  if includes id "brave" then brave
  else if includes id "edge" then edge
  else if includes id "chromium" then chromium
  else if includes id "canary" then canary
  else if (includes id "opera" || includes id "vivaldi"
           || includes id "yandex" || includes id "thebrowser")%bool
  then chromium
  else chrome.

Definition inferKindFromExecutableName (nm : string) : BrowserKind :=
  let lower := toLowerCase nm in
  if includes lower "brave" then brave
  else if (includes lower "edge" || includes lower "msedge")%bool then edge
  else if includes lower "chromium" then chromium
  else if (includes lower "canary" || includes lower "sxs")%bool then canary
  else if (includes lower "opera" || includes lower "vivaldi"
           || includes lower "yandex")%bool
  then chromium
  else chrome.

Fixpoint findFirstExecutable (candidates : list BrowserExecutable)
  : M (option BrowserExecutable) :=
  match candidates with
  | [] => ret None
  | candidate :: rest =>
      found <- pathExists (path candidate) ;;
      if found then ret (Some candidate) else findFirstExecutable rest
  end.

(** The [for] loop of [detectDefaultChromiumExecutableLinux], which builds a
    fresh object from the candidate that exists. *)
Fixpoint firstInstalled (candidates : list BrowserExecutable)
  : M (option BrowserExecutable) :=
  match candidates with
  | [] => ret None
  | c :: rest =>
      found <- pathExists (path c) ;;
      if found then ret (Some (mkExe (kind c) (path c))) else firstInstalled rest
  end.

Definition linuxDefaultCandidates : list BrowserExecutable :=
  [ mkExe chrome "/usr/bin/google-chrome";
    mkExe chromium "/usr/bin/chromium";
    mkExe chromium "/usr/bin/chromium-browser" ].

Definition detectDefaultChromiumExecutableLinux : M (option BrowserExecutable) :=
  firstInstalled linuxDefaultCandidates.

Definition detectDefaultChromiumExecutableWindows : M (option BrowserExecutable) :=
  ret None.

Definition linuxCandidates : list BrowserExecutable :=
  [ mkExe chrome "/usr/bin/google-chrome";
    mkExe chrome "/usr/bin/google-chrome-stable";
    mkExe chrome "/usr/bin/chrome";
    mkExe chromium "/usr/bin/chromium";
    mkExe chromium "/usr/bin/chromium-browser";
    mkExe chromium "/snap/bin/chromium" ].

Definition findChromeExecutableLinux : M (option BrowserExecutable) :=
  findFirstExecutable linuxCandidates.

(** Property access [record[key]] on a parsed object. *)
Fixpoint objGet (fields : list (string * JValue)) (key : string) : option JValue :=
  match fields with
  | [] => None
  | (k, v) :: rest => if String.eqb k key then Some v else objGet rest key
  end.

(** [typeof v === "string" && v]: a non-empty string, or nothing. *)
Definition nonEmptyString (v : option JValue) : option string :=
  match v with
  | Some (JStr s) => if truthy s then Some s else None
  | _ => None
  end.

(** One turn of the loop of [resolveScheme]: the role this entry assigns to
    the scheme, if any. *)
Definition handlerRole (scheme : string) (entry : JValue) : option string :=
  match entry with
  | JObj record =>
      match objGet record "LSHandlerURLScheme" with
      | Some (JStr s) =>
          if String.eqb s scheme then
            match nonEmptyString (objGet record "LSHandlerRoleAll") with
            | Some role => Some role
            | None => nonEmptyString (objGet record "LSHandlerRoleViewer")
            end
          else None
      | _ => None
      end
  | _ => None
  end.

Definition resolveScheme (handlers : list JValue) (scheme : string) : option string :=
  fold_left
    (fun candidate entry =>
       match handlerRole scheme entry with
       | Some role => Some role
       | None => candidate
       end)
    handlers None.

(** ** Kinds of events *)

Definition notHandshake (e : Event) : bool :=
  match e with EvWsHandshake _ => false | _ => true end.

Definition notSpawn (e : Event) : bool :=
  match e with EvSpawn _ _ _ _ => false | _ => true end.

(** The events of executable resolution: existence probes and helper runs. *)
Definition resolutionEvent (e : Event) : bool :=
  match e with EvExists _ | EvExec _ _ => true | _ => false end.

(** A computation that appends to the trace, and only events that [ok]
    admits. *)
Definition emitsOnly {A} (ok : Event -> bool) (m : M A) : Prop :=
  forall w, exists evs,
    trace (snd (m w)) = (trace w ++ evs)%list /\ forallb ok evs = true.

Section Program.

Variable host : Host.

(** [execText]: the helper's trimmed output, [None] when it fails, is cut off
    by the timeout or prints nothing.  [execFileSync] refuses a negative
    timeout before running anything, and takes the timeout 0 to mean none;
    whatever it throws is caught. *)
Definition execText (command : string) (args : list string)
    (timeoutMs maxBuffer : Z) : M (option string) :=
  fun w =>
    if timeoutMs <? 0 then (Returned None, w) else
    let w1 := log (EvExec command args) w in
    let r := execFileSync host command args maxBuffer (now w) in
    if (timeoutMs =? 0) || (Z.of_N (execLatency r) <? timeoutMs) then
      match execOutput r with
      | Some output =>
          let text := trim output in
          (Returned (if truthy text then Some text else None),
           advance (Z.of_N (execLatency r)) w1)
      | None => (Returned None, advance (Z.of_N (execLatency r)) w1)
      end
    else (Returned None, advance timeoutMs w1).

Definition launchServicesPlist : string :=
  "Library/Preferences/com.apple.LaunchServices/com.apple.launchservices.secure.plist".

Definition detectDefaultBrowserBundleIdMac : M (option string) :=
  let plistPath := pathJoin host [homedir host; launchServicesPlist] in
  present <- pathExists plistPath ;;
  if negb present then ret None else
  handlersRaw <- execText "/usr/bin/plutil"
                   ["-extract"; "LSHandlers"; "json"; "-o"; "-"; "--"; plistPath]
                   2000 (5 * 1024 * 1024) ;;
  match handlersRaw with
  | None => ret None
  | Some raw =>
      match jsonParse host raw with
      | Some (JArr handlers) =>
          match resolveScheme handlers "http" with
          | Some id => ret (Some id)
          | None => ret (resolveScheme handlers "https")
          end
      | _ => ret None
      end
  end.

Definition detectDefaultChromiumExecutableMac : M (option BrowserExecutable) :=
  bundle <- detectDefaultBrowserBundleIdMac ;;
  match bundle with
  | None => ret None
  | Some bundleId =>
      if negb (truthy bundleId) || negb (has CHROMIUM_BUNDLE_IDS bundleId)
      then ret None else
      appPathRaw <- execText "/usr/bin/osascript"
                      ["-e";
                       "POSIX path of (path to application id " ++ quoted bundleId
                       ++ ")"]
                      1200 (1024 * 1024) ;;
      match appPathRaw with
      | None => ret None
      | Some raw =>
          let appPath := stripTrailingSlash (trim raw) in
          exeName <- execText "/usr/bin/defaults"
                       ["read"; pathJoin host [appPath; "Contents"; "Info"];
                        "CFBundleExecutable"]
                       1200 (1024 * 1024) ;;
          match exeName with
          | None => ret None
          | Some nm =>
              let exePath := pathJoin host [appPath; "Contents"; "MacOS"; trim nm] in
              present <- pathExists exePath ;;
              if present
              then ret (Some (mkExe (inferKindFromIdentifier bundleId) exePath))
              else ret None
          end
      end
  end.

Definition detectDefaultChromiumExecutable (plat : Platform)
  : M (option BrowserExecutable) :=
  match plat with
  | darwin => detectDefaultChromiumExecutableMac
  | linux => detectDefaultChromiumExecutableLinux
  | win32 => detectDefaultChromiumExecutableWindows
  | otherPlatform _ => ret None
  end.

Definition findChromeExecutableMac : M (option BrowserExecutable) :=
  findFirstExecutable
    [ mkExe chrome "/Applications/Google Chrome.app/Contents/MacOS/Google Chrome";
      mkExe chrome
        (pathJoin host [homedir host;
           "Applications/Google Chrome.app/Contents/MacOS/Google Chrome"]);
      mkExe brave "/Applications/Brave Browser.app/Contents/MacOS/Brave Browser";
      mkExe brave
        (pathJoin host [homedir host;
           "Applications/Brave Browser.app/Contents/MacOS/Brave Browser"]);
      mkExe chromium "/Applications/Chromium.app/Contents/MacOS/Chromium";
      mkExe chromium
        (pathJoin host [homedir host;
           "Applications/Chromium.app/Contents/MacOS/Chromium"]);
      mkExe canary
        "/Applications/Google Chrome Canary.app/Contents/MacOS/Google Chrome Canary" ].

Definition findChromeExecutableWindows : M (option BrowserExecutable) :=
  let programFiles :=
    match envProgramFiles host with Some d => d | None => "C:\Program Files" end in
  let programFilesX86 :=
    match envProgramFilesX86 host with
    | Some d => d
    | None => "C:\Program Files (x86)"
    end in
  let joinWin := pathWin32Join host in
  findFirstExecutable
    [ mkExe chrome
        (joinWin [programFiles; "Google"; "Chrome"; "Application"; "chrome.exe"]);
      mkExe chrome
        (joinWin [programFilesX86; "Google"; "Chrome"; "Application"; "chrome.exe"]) ].

Definition executablePathNotFound (p : string) : JsError :=
  mkError ("browser.executablePath not found: " ++ p).

(** [if (resolved.executablePath)] tests truthiness: an absent field and the
    empty string both skip the branch. *)
Definition resolveBrowserExecutableForPlatform
    (resolved : ResolvedBrowserConfig) (plat : Platform)
  : M (option BrowserExecutable) :=
  match executablePath resolved with
  | Some (String c rest as custom_path) =>
      present <- pathExists custom_path ;;
      if negb present then throw (executablePathNotFound custom_path)
      else ret (Some (mkExe custom custom_path))
  | _ =>
      detected <- detectDefaultChromiumExecutable plat ;;
      match detected with
      | Some e => ret (Some e)
      | None =>
          match plat with
          | darwin => findChromeExecutableMac
          | linux => findChromeExecutableLinux
          | win32 => findChromeExecutableWindows
          | otherPlatform _ => ret None
          end
      end
  end.

(** ** chrome.ts *)

Definition resolveBrowserExecutable (resolved : ResolvedBrowserConfig)
  : M (option BrowserExecutable) :=
  resolveBrowserExecutableForPlatform resolved (platform host).

Definition cdpUrlForPort (port : Z) : string :=
  "http://127.0.0.1:" ++ numberToString port.

(** [Date.now()] *)
Definition dateNow : M Z := ask now.

(** [await new Promise((r) => setTimeout(r, ms))] *)
Definition sleep (ms : Z) : M unit := effect (advance ms).

(** What [fetchChromeVersion] makes of a settled request: the body of a
    successful response when it is an object ([typeof] also calls an array
    an object), nothing otherwise. *)
Definition versionOfReply (r : HttpReply) : option JValue :=
  match r with
  | NetworkError => None
  | Response false _ => None
  | Response true None => None
  | Response true (Some (JObj fields)) => Some (JObj fields)
  | Response true (Some (JArr items)) => Some (JArr items)
  | Response true (Some _) => None
  end.

(** The request races the abort timer armed for [timeoutMs]; every failure,
    the abort included, is caught and yields [null]. *)
Definition fetchChromeVersion (url : string) (timeoutMs : Z) : M (option JValue) :=
  fun w =>
    let versionUrl := appendCdpPath host url "/json/version" in
    let w1 := log (EvHttpGet versionUrl) w in
    let r := httpGet host versionUrl (getHeadersWithAuth host versionUrl) (now w) in
    if Z.of_N (httpLatency r) <? timeoutMs
    then (Returned (versionOfReply (httpReply r)), advance (Z.of_N (httpLatency r)) w1)
    else (Returned None, advance (Z.max 0 timeoutMs) w1).

Definition isChromeReachable (url : string) (timeoutMs : Z) : M bool :=
  version <- fetchChromeVersion url timeoutMs ;;
  ret (match version with Some _ => true | None => false end).

(** [String(v)] *)
Fixpoint jsString (v : JValue) : string :=
  match v with
  | JNull => "null"
  | JBool true => "true"
  | JBool false => "false"
  | JNum n => numberToString n
  | JStr s => s
  | JArr items =>
      String.concat ","
        (map (fun i => match i with JNull => EmptyString | _ => jsString i end) items)
  | JObj _ => "[object Object]"
  end.

(** [String(version?.webSocketDebuggerUrl ?? "").trim()] *)
Definition advertisedWsUrl (version : option JValue) : string :=
  match version with
  | Some (JObj fields) =>
      match objGet fields "webSocketDebuggerUrl" with
      | None | Some JNull => EmptyString
      | Some v => trim (jsString v)
      end
  | _ => EmptyString
  end.

Definition getChromeWebSocketUrl (url : string) (timeoutMs : Z) : M (option string) :=
  version <- fetchChromeVersion url timeoutMs ;;
  let wsUrl := advertisedWsUrl version in
  if negb (truthy wsUrl) then ret None
  else ret (Some (normalizeCdpWsUrl host wsUrl url)).

(** The socket's first event races the timer armed for
    [Math.max(50, timeoutMs + 25)].  When the constructor throws, the
    executor of the promise throws with it: the promise is rejected before
    the timer is armed and before anything is sent. *)
Definition canOpenWebSocket (wsUrl : string) (timeoutMs : Z) : M bool :=
  fun w =>
    let headers := getHeadersWithAuth host wsUrl in
    let w1 := log (EvWsHandshake wsUrl) w in
    let giveUp := Z.max 50 (timeoutMs + 25) in
    match wsConnect host wsUrl headers timeoutMs (now w) with
    | WsThrew e => (Thrown e, w)
    | WsOpen latency =>
        if Z.of_N latency <? giveUp
        then (Returned true, advance (Z.of_N latency) w1)
        else (Returned false, advance giveUp w1)
    | WsError latency =>
        if Z.of_N latency <? giveUp
        then (Returned false, advance (Z.of_N latency) w1)
        else (Returned false, advance giveUp w1)
    | WsSilent => (Returned false, advance giveUp w1)
    end.

Definition isChromeCdpReady (url : string) (timeoutMs handshakeTimeoutMs : Z)
  : M bool :=
  wsUrl <- getChromeWebSocketUrl url timeoutMs ;;
  match wsUrl with
  | None => ret false
  | Some u => canOpenWebSocket u handshakeTimeoutMs
  end.

(** [fs.mkdirSync(dir, { recursive: true })]: throws when the directory
    cannot be created. *)
Definition mkdirSync (dir : string) : M unit :=
  fun w =>
    let w1 := log (EvMkdir dir) w in
    match mkdirFault host dir (now w) with
    | Some e => (Thrown e, w1)
    | None => (Returned tt, createDir dir w1)
    end.

(** [spawn(file, args, { stdio: "pipe", env: { ...process.env, HOME } })]:
    either it throws, or it returns a new [ChildProcess] object, not yet
    [killed].  When the operating system could not start the program the
    object has no [pid] and will emit an "error" event: see
    [unhandledSpawnError]. *)
Definition spawn (file : string) (args : list string) : M ProcRef :=
  fun w =>
    let p := spawned w in
    let w1 := log (EvSpawn p file args (homedir host)) w in
    match spawnFault host file args (now w) with
    | Some e => (Thrown e, w1)
    | None =>
        (Returned p,
         mkWorld (now w1) (fs w1) (fun q => negb (Nat.eqb q p) && killed w1 q)
                 (S p) (activeBrowser w1) (trace w1))
    end.

(** [proc.kill(signal)] *)
Definition procKill (p : ProcRef) (signal : Signal) : M bool :=
  fun w =>
    let w1 := log (EvKill p signal) w in
    match killOutcome host p signal (now w) with
    | Delivered => (Returned true, markKilled p w1)
    | NotDelivered => (Returned false, w1)
    | KillThrew e => (Thrown e, w1)
    end.

(** [try { proc.kill(signal); } catch { /* ignore */ }] *)
Definition tryKill (p : ProcRef) (signal : Signal) : M unit :=
  tryCatch (procKill p signal ;; ret tt) (fun _ => ret tt).

Definition consoleLog (line : string) : M unit := effect (log (EvLog line)).

Definition kindName (k : BrowserKind) : string :=
  match k with
  | brave => "brave"
  | canary => "canary"
  | chromium => "chromium"
  | chrome => "chrome"
  | custom => "custom"
  | edge => "edge"
  end.

(** The argument list built by [spawnOnce]. *)
Definition chromeArgs (resolved : ResolvedBrowserConfig)
    (profile : ResolvedBrowserProfile) (dataDir : string) : list string :=
  let args :=
    [ "--remote-debugging-port=" ++ numberToString (cdpPort profile);
      "--user-data-dir=" ++ dataDir;
      "--no-first-run";
      "--no-default-browser-check";
      "--disable-sync";
      "--disable-background-networking";
      "--disable-component-update";
      "--disable-features=Translate,MediaRouter";
      "--disable-session-crashed-bubble";
      "--hide-crash-restore-bubble";
      "--password-store=basic" ] in
  let args :=
    if headless resolved then push (push args "--headless=new") "--disable-gpu"
    else args in
  let args :=
    if noSandbox resolved
    then push (push args "--no-sandbox") "--disable-setuid-sandbox"
    else args in
  let args :=
    match platform host with
    | linux => push args "--disable-dev-shm-usage"
    | _ => args
    end in
  push args "about:blank".

Definition remoteProfileError (profile : ResolvedBrowserProfile) : JsError :=
  mkError ("Profile " ++ quoted (name profile)
           ++ " is remote; cannot launch local Chrome.").

Definition noBrowserError : JsError :=
  mkError
    "No supported browser found (Chrome/Brave/Edge/Chromium on macOS, Linux, or Windows).".

Definition cdpStartError (profile : ResolvedBrowserProfile) : JsError :=
  mkError ("Failed to start Chrome CDP on port " ++ numberToString (cdpPort profile)
           ++ " for profile " ++ quoted (name profile) ++ ".").

(** A child that the operating system could not start emits an "error"
    event on the next tick, that is when the running code first suspends.
    The code attaches no listener to the child, and nothing in the program
    handles uncaught exceptions: Node terminates the process there.  In
    [launchClawdChrome] the first suspension after the spawn is the [await]
    of the first probe's [fetch], which has been called by then. *)
Definition unhandledSpawnError {A} (url : string) : M A :=
  effect (log (EvHttpGet (appendCdpPath host url "/json/version"))) ;; die.

(** One turn of the readiness loop of [launchClawdChrome]; [true] is [break]. *)
Definition readinessTurn (url : string) : M bool :=
  up <- isChromeReachable url 500 ;;
  if up then ret true else sleep 200 ;; ret false.

(** The clock never runs backwards during a probe. *)
Lemma fetchChromeVersion_clock url timeoutMs w :
  now w <= now (snd (fetchChromeVersion url timeoutMs w)).
Proof.
  unfold fetchChromeVersion.
  destruct (_ <? _); simpl; lia.
Qed.

Lemma isChromeReachable_clock url timeoutMs w :
  now w <= now (snd (isChromeReachable url timeoutMs w)).
Proof.
  unfold isChromeReachable, bind, ret.
  pose proof (fetchChromeVersion_clock url timeoutMs w) as H.
  destruct (fetchChromeVersion url timeoutMs w) as [[v|e|] w1]; simpl in *; lia.
Qed.

Lemma readinessTurn_clock url w w1 :
  readinessTurn url w = (Returned false, w1) -> now w + 200 <= now w1.
Proof.
  unfold readinessTurn, bind, ret, sleep, effect.
  pose proof (isChromeReachable_clock url 500 w) as H.
  destruct (isChromeReachable url 500 w) as [[[|]|e|] w0]; simpl in *;
    intros E; inversion E; subst; simpl; lia.
Qed.

(** [while (Date.now() < readyDeadline) { if (await isChromeReachable(...)) break;
    await sleep(200); }] *)
Equations? waitForCdp (url : string) (readyDeadline : Z) (w : World)
  : Outcome unit * World by wf (Z.to_nat (readyDeadline - now w)) lt :=
  waitForCdp url readyDeadline w with Z_lt_dec (now w) readyDeadline := {
    | right _ => (Returned tt, w)
    | left _ with inspect (readinessTurn url w) := {
        | exist _ (Returned true, w1) _ => (Returned tt, w1)
        | exist _ (Returned false, w1) _ => waitForCdp url readyDeadline w1
        | exist _ (Thrown e, w1) _ => (Thrown e, w1)
        | exist _ (Died, w1) _ => (Died, w1) } }.
Proof.
  match goal with H : readinessTurn _ _ = _ |- _ =>
    apply readinessTurn_clock in H end.
  lia.
Qed.

(** The second half of [launchClawdChrome], from the comment "Wait for CDP to
    come up." to the end: what happens once [spawn] has returned the handle
    [proc]. *)
Definition awaitCdp (profile : ResolvedBrowserProfile) (exe : BrowserExecutable)
    (userDataDir : string) (startedAt : Z) (proc : ProcRef) : M RunningChrome :=
  t <- dateNow ;;
  let readyDeadline := t + 15000 in
  match spawnPid host proc with
  | None => unhandledSpawnError (cdpUrl profile)
  | Some _ =>
      waitForCdp (cdpUrl profile) readyDeadline ;;
      up <- isChromeReachable (cdpUrl profile) 500 ;;
      if negb up then
        tryKill proc SIGKILL ;;
        throw (cdpStartError profile)
      else
        let pid := match spawnPid host proc with Some n => n | None => -1 end in
        consoleLog ("Browser started (" ++ kindName (kind exe) ++ ") on port "
                    ++ numberToString (cdpPort profile)
                    ++ " (pid " ++ numberToString pid ++ ")") ;;
        ret (mkRunning pid exe userDataDir (cdpPort profile) startedAt proc)
  end.

Definition dataDirOf (profile : ResolvedBrowserProfile) : string :=
  pathJoin host [cwd host; "browser-data"; name profile].

Definition launchClawdChrome (resolved : ResolvedBrowserConfig)
    (profile : ResolvedBrowserProfile) : M RunningChrome :=
  if negb (cdpIsLoopback profile) then throw (remoteProfileError profile) else
  found <- resolveBrowserExecutable resolved ;;
  match found with
  | None => throw noBrowserError
  | Some exe =>
      let userDataDir := dataDirOf profile in
      mkdirSync userDataDir ;;
      startedAt <- dateNow ;;
      proc <- spawn (path exe) (chromeArgs resolved profile userDataDir) ;;
      awaitCdp profile exe userDataDir startedAt proc
  end.

(** How a turn of the shutdown loop of [stopClawdChrome] ends. *)
Inductive Flow : Type :=
| Continue    (* next turn *)
| Break       (* [break]: leave the loop *)
| Return      (* [return]: leave the function *).

(** [!proc.exitCode]: true for [null] and for the exit code 0. *)
Definition noExitCode (code : option Z) : bool :=
  match code with
  | None => true
  | Some c => Z.eqb c 0
  end.

Definition shutdownTurn (running : RunningChrome) : M Flow :=
  exitCode <- ask (fun w => exitCodeAt host (proc running) (now w)) ;;
  signalled <- ask (fun w => killed w (proc running)) ;;
  if noExitCode exitCode && signalled then ret Break else
  up <- isChromeReachable (cdpUrlForPort (runningPort running)) 200 ;;
  if negb up then ret Return else
  sleep 100 ;; ret Continue.

Lemma shutdownTurn_clock running w w1 :
  shutdownTurn running w = (Returned Continue, w1) -> now w + 100 <= now w1.
Proof.
  unfold shutdownTurn, bind, ask, ret, sleep, effect.
  destruct (noExitCode _ && _); [discriminate|].
  pose proof (isChromeReachable_clock (cdpUrlForPort (runningPort running)) 200 w) as H.
  destruct (isChromeReachable _ 200 w) as [[[|]|e|] w0]; simpl in *;
    intros E; inversion E; subst; simpl; lia.
Qed.

(** [while (Date.now() - start < timeoutMs) { ... }]: the result tells whether
    the function goes on after the loop ([Break]) or has returned. *)
Equations? shutdownLoop (running : RunningChrome) (start timeoutMs : Z) (w : World)
  : Outcome Flow * World by wf (Z.to_nat (start + timeoutMs - now w)) lt :=
  shutdownLoop running start timeoutMs w with Z_lt_dec (now w - start) timeoutMs := {
    | right _ => (Returned Break, w)
    | left _ with inspect (shutdownTurn running w) := {
        | exist _ (Returned Continue, w1) _ => shutdownLoop running start timeoutMs w1
        | exist _ (Returned Break, w1) _ => (Returned Break, w1)
        | exist _ (Returned Return, w1) _ => (Returned Return, w1)
        | exist _ (Thrown e, w1) _ => (Thrown e, w1)
        | exist _ (Died, w1) _ => (Died, w1) } }.
Proof.
  match goal with H : shutdownTurn _ _ = _ |- _ =>
    apply shutdownTurn_clock in H end.
  lia.
Qed.

Definition stopClawdChrome (running : RunningChrome) (timeoutMs : Z) : M unit :=
  let proc := proc running in
  alreadyKilled <- ask (fun w => killed w proc) ;;
  if alreadyKilled then ret tt else
  tryKill proc SIGTERM ;;
  start <- dateNow ;;
  flow <- shutdownLoop running start timeoutMs ;;
  match flow with
  | Return => ret tt
  | _ => tryKill proc SIGKILL
  end.

(** ** direct-client.ts *)

(** [opts?: { headless?: boolean }] *)
Record StartOptions : Type := mkStartOptions { optHeadless : option bool }.

(** The launch at the end of [browserStart]. *)
Definition launchDefault (opts : option StartOptions) : M unit :=
  let profileName := "default" in
  launched <- launchClawdChrome
    (mkConfig None
       (match opts with
        | Some o => match optHeadless o with Some b => b | None => false end
        | None => false
        end)
       false None None)
    (mkProfile profileName 9222 "http://127.0.0.1:9222" true "#ff0000") ;;
  effect (setActive (Some launched)).

Definition browserStart (opts : option StartOptions) : M unit :=
  active <- ask activeBrowser ;;
  match active with
  | Some running =>
      up <- isChromeReachable
              ("http://127.0.0.1:" ++ numberToString (runningPort running)) 500 ;;
      if up then ret tt
      else effect (setActive None) ;; launchDefault opts
  | None => launchDefault opts
  end.

Definition browserStop : M unit :=
  active <- ask activeBrowser ;;
  match active with
  | None => ret tt
  | Some running =>
      stopClawdChrome running 2500 ;;
      effect (setActive None)
  end.

Definition notStartedError : JsError := mkError "Browser not started".

Definition getCdpUrl : M string :=
  active <- ask activeBrowser ;;
  match active with
  | None => throw notStartedError
  | Some running => ret ("http://127.0.0.1:" ++ numberToString (runningPort running))
  end.

(** ** What the host makes of a probe *)

Definition versionUrlOf (url : string) : string :=
  appendCdpPath host url "/json/version".

Definition probeOutcome (url : string) (t : Z) : HttpOutcome :=
  httpGet host (versionUrlOf url) (getHeadersWithAuth host (versionUrlOf url)) t.

(** The endpoint is HTTP-reachable at time [t]: a probe started then, with
    the given timeout, finds a version object. *)
Definition reachableAt (url : string) (timeoutMs t : Z) : bool :=
  (Z.of_N (httpLatency (probeOutcome url t)) <? timeoutMs)
  && match versionOfReply (httpReply (probeOutcome url t)) with
     | Some _ => true
     | None => false
     end.

(** The time a probe started at [t] takes. *)
Definition probeSpan (url : string) (timeoutMs t : Z) : Z :=
  if Z.of_N (httpLatency (probeOutcome url t)) <? timeoutMs
  then Z.of_N (httpLatency (probeOutcome url t))
  else Z.max 0 timeoutMs.

(** The events a call has added to the trace. *)
Definition newEvents (before after : World) : list Event :=
  skipn (List.length (trace before)) (trace after).

(** ** Properties *)

Lemma probeSpan_bounds url timeoutMs t :
  0 <= probeSpan url timeoutMs t <= Z.max 0 timeoutMs.
Proof.
  unfold probeSpan.
  destruct (Z.ltb_spec (Z.of_N (httpLatency (probeOutcome url t))) timeoutMs); lia.
Qed.

(** A probe is a function of the host and of the time it starts. *)
Lemma isChromeReachable_run url timeoutMs w :
  isChromeReachable url timeoutMs w =
  (Returned (reachableAt url timeoutMs (now w)),
   advance (probeSpan url timeoutMs (now w)) (log (EvHttpGet (versionUrlOf url)) w)).
Proof.
  unfold isChromeReachable, fetchChromeVersion, bind, ret, reachableAt, probeSpan,
    probeOutcome, versionUrlOf.
  destruct (_ <? _); simpl; [|reflexivity].
  destruct (versionOfReply _); reflexivity.
Qed.

Lemma readinessTurn_run url w :
  readinessTurn url w =
  (Returned (reachableAt url 500 (now w)),
   let w1 := advance (probeSpan url 500 (now w)) (log (EvHttpGet (versionUrlOf url)) w) in
   if reachableAt url 500 (now w) then w1 else advance 200 w1).
Proof.
  unfold readinessTurn, bind. rewrite isChromeReachable_run.
  destruct (reachableAt url 500 (now w)); reflexivity.
Qed.

Lemma waitForCdp_step url readyDeadline w :
  waitForCdp url readyDeadline w =
  if now w <? readyDeadline then
    match readinessTurn url w with
    | (Returned true, w1) => (Returned tt, w1)
    | (Returned false, w1) => waitForCdp url readyDeadline w1
    | (Thrown e, w1) => (Thrown e, w1)
    | (Died, w1) => (Died, w1)
    end
  else (Returned tt, w).
Proof.
  funelim (waitForCdp url readyDeadline w);
    destruct (Z.ltb_spec (now w) readyDeadline); try lia; try reflexivity;
    match goal with E : readinessTurn _ _ = _ |- _ => rewrite E end; reflexivity.
Qed.

Lemma shutdownLoop_step running start timeoutMs w :
  shutdownLoop running start timeoutMs w =
  if now w - start <? timeoutMs then
    match shutdownTurn running w with
    | (Returned Continue, w1) => shutdownLoop running start timeoutMs w1
    | (Returned Break, w1) => (Returned Break, w1)
    | (Returned Return, w1) => (Returned Return, w1)
    | (Thrown e, w1) => (Thrown e, w1)
    | (Died, w1) => (Died, w1)
    end
  else (Returned Break, w).
Proof.
  funelim (shutdownLoop running start timeoutMs w);
    destruct (Z.ltb_spec (now w - start) timeoutMs); try lia; try reflexivity;
    match goal with E : shutdownTurn _ _ = _ |- _ => rewrite E end; reflexivity.
Qed.

(** *** Which events a function can add to the trace *)

Section Emits.

Variable ok : Event -> bool.

Lemma emitsOnly_ret {A} (a : A) : emitsOnly ok (ret a).
Proof. intros w. exists []. simpl. now rewrite app_nil_r. Qed.

Lemma emitsOnly_throw {A} e : emitsOnly ok (@throw A e).
Proof. intros w. exists []. simpl. now rewrite app_nil_r. Qed.

Lemma emitsOnly_bind {A B} (m : M A) (k : A -> M B) :
  emitsOnly ok m -> (forall a, emitsOnly ok (k a)) -> emitsOnly ok (bind m k).
Proof.
  intros Hm Hk w. unfold bind.
  destruct (Hm w) as (evs & Ht & Hok).
  destruct (m w) as [[a|e|] w1]; simpl in *.
  - destruct (Hk a w1) as (evs' & Ht' & Hok').
    exists (evs ++ evs')%list. rewrite Ht', Ht, app_assoc, forallb_app, Hok, Hok'.
    now split.
  - now exists evs.
  - now exists evs.
Qed.

Lemma emitsOnly_tryCatch {A} (m : M A) (h : JsError -> M A) :
  emitsOnly ok m -> (forall e, emitsOnly ok (h e)) -> emitsOnly ok (tryCatch m h).
Proof.
  intros Hm Hh w. unfold tryCatch.
  destruct (Hm w) as (evs & Ht & Hok).
  destruct (m w) as [[a|e|] w1]; simpl in *.
  - now exists evs.
  - destruct (Hh e w1) as (evs' & Ht' & Hok').
    exists (evs ++ evs')%list. rewrite Ht', Ht, app_assoc, forallb_app, Hok, Hok'.
    now split.
  - now exists evs.
Qed.

(** A function that adds exactly one admissible event. *)
Lemma emitsOnly_one {A} (m : M A) (e : Event) :
  ok e = true -> (forall w, trace (snd (m w)) = (trace w ++ [e])%list) ->
  emitsOnly ok m.
Proof.
  intros He Hm w. exists [e]. rewrite Hm. simpl. now rewrite He.
Qed.

Lemma emitsOnly_pathExists p :
  ok (EvExists p) = true -> emitsOnly ok (pathExists p).
Proof. intros H. now apply emitsOnly_one with (e := EvExists p). Qed.

Lemma emitsOnly_findFirstExecutable candidates :
  (forall p, ok (EvExists p) = true) ->
  emitsOnly ok (findFirstExecutable candidates).
Proof.
  intros H. induction candidates as [|c rest IH]; simpl.
  - apply emitsOnly_ret.
  - apply emitsOnly_bind; [now apply emitsOnly_pathExists|].
    intros [|]; [apply emitsOnly_ret | exact IH].
Qed.

Lemma emitsOnly_firstInstalled candidates :
  (forall p, ok (EvExists p) = true) ->
  emitsOnly ok (firstInstalled candidates).
Proof.
  intros H. induction candidates as [|c rest IH]; simpl.
  - apply emitsOnly_ret.
  - apply emitsOnly_bind; [now apply emitsOnly_pathExists|].
    intros [|]; [apply emitsOnly_ret | exact IH].
Qed.

Lemma emitsOnly_execText command args timeoutMs maxBuffer :
  ok (EvExec command args) = true ->
  emitsOnly ok (execText command args timeoutMs maxBuffer).
Proof.
  intros H.
  intros w. unfold execText.
  destruct (timeoutMs <? 0); [exists []; cbn; now rewrite app_nil_r|].
  exists [EvExec command args]. cbn [forallb]. rewrite H.
  split; [|reflexivity].
  destruct (_ || _); [destruct (execOutput _)|]; reflexivity.
Qed.

Hypothesis ok_exists : forall p, ok (EvExists p) = true.
Hypothesis ok_exec : forall c a, ok (EvExec c a) = true.

Lemma emitsOnly_detectBundleId : emitsOnly ok detectDefaultBrowserBundleIdMac.
Proof.
  unfold detectDefaultBrowserBundleIdMac.
  apply emitsOnly_bind; [now apply emitsOnly_pathExists|].
  intros [|]; simpl; [|apply emitsOnly_ret].
  apply emitsOnly_bind; [now apply emitsOnly_execText|].
  intros [raw|]; [|apply emitsOnly_ret].
  destruct (jsonParse host raw) as [[| | | |handlers|]|]; try apply emitsOnly_ret.
  destruct (resolveScheme handlers "http"); apply emitsOnly_ret.
Qed.

Lemma emitsOnly_detectMac : emitsOnly ok detectDefaultChromiumExecutableMac.
Proof.
  unfold detectDefaultChromiumExecutableMac.
  apply emitsOnly_bind; [apply emitsOnly_detectBundleId|].
  intros [bundleId|]; [|apply emitsOnly_ret].
  destruct (_ || _); [apply emitsOnly_ret|].
  apply emitsOnly_bind; [now apply emitsOnly_execText|].
  intros [raw|]; [|apply emitsOnly_ret].
  apply emitsOnly_bind; [now apply emitsOnly_execText|].
  intros [nm|]; [|apply emitsOnly_ret].
  apply emitsOnly_bind; [now apply emitsOnly_pathExists|].
  intros [|]; apply emitsOnly_ret.
Qed.

Lemma emitsOnly_resolve resolved plat :
  emitsOnly ok (resolveBrowserExecutableForPlatform resolved plat).
Proof.
  assert (Hauto : emitsOnly ok
            (detected <- detectDefaultChromiumExecutable plat ;;
             match detected with
             | Some e => ret (Some e)
             | None =>
                 match plat with
                 | darwin => findChromeExecutableMac
                 | linux => findChromeExecutableLinux
                 | win32 => findChromeExecutableWindows
                 | otherPlatform _ => ret None
                 end
             end)).
  { apply emitsOnly_bind.
    - destruct plat; simpl; try apply emitsOnly_ret.
      + apply emitsOnly_detectMac.
      + now apply emitsOnly_firstInstalled.
    - intros [e|]; [apply emitsOnly_ret|].
      destruct plat; try apply emitsOnly_ret;
        now apply emitsOnly_findFirstExecutable. }
  unfold resolveBrowserExecutableForPlatform.
  destruct (executablePath resolved) as [[|c rest]|]; try exact Hauto.
  apply emitsOnly_bind; [now apply emitsOnly_pathExists|].
  intros [|]; simpl; [apply emitsOnly_ret | apply emitsOnly_throw].
Qed.

End Emits.

(** *** What a function leaves alone *)

(** A computation that leaves a component of the world as it found it. *)
Definition keeps {A X : Type} (part : World -> X) (m : M A) : Prop :=
  forall w, part (snd (m w)) = part w.

(** What neither a probe, nor a helper run, nor a sleep touches. *)
Definition store (w : World)
  : (string -> bool) * (ProcRef -> bool) * nat * option RunningChrome :=
  (fs w, killed w, spawned w, activeBrowser w).

Lemma store_fs w w' : store w' = store w -> fs w' = fs w.
Proof. unfold store. intros H. now inversion H. Qed.

Lemma store_parts w w' :
  store w' = store w ->
  fs w' = fs w /\ killed w' = killed w /\ spawned w' = spawned w /\
  activeBrowser w' = activeBrowser w.
Proof. unfold store. intros H. now inversion H. Qed.

Lemma keeps_ret {A X} (part : World -> X) (a : A) : keeps part (ret a).
Proof. intros w. reflexivity. Qed.

Lemma keeps_throw {A X} (part : World -> X) e : keeps part (@throw A e).
Proof. intros w. reflexivity. Qed.

Lemma keeps_bind {A B X} (part : World -> X) (m : M A) (k : A -> M B) :
  keeps part m -> (forall a, keeps part (k a)) -> keeps part (bind m k).
Proof.
  intros Hm Hk w. unfold bind. specialize (Hm w).
  destruct (m w) as [[a|e|] w1]; cbn [snd] in *; [|exact Hm|exact Hm].
  now rewrite Hk.
Qed.

Lemma keeps_pathExists p : keeps store (pathExists p).
Proof. intros w. reflexivity. Qed.

Lemma keeps_execText command args timeoutMs maxBuffer :
  keeps store (execText command args timeoutMs maxBuffer).
Proof.
  intros w. unfold execText.
  destruct (timeoutMs <? 0); [reflexivity|].
  destruct (_ || _); [destruct (execOutput _)|]; reflexivity.
Qed.

Lemma keeps_findFirstExecutable candidates :
  keeps store (findFirstExecutable candidates).
Proof.
  induction candidates as [|c rest IH]; cbn [findFirstExecutable].
  - apply keeps_ret.
  - apply keeps_bind; [apply keeps_pathExists|].
    intros [|]; [apply keeps_ret | exact IH].
Qed.

Lemma keeps_firstInstalled candidates : keeps store (firstInstalled candidates).
Proof.
  induction candidates as [|c rest IH]; cbn [firstInstalled].
  - apply keeps_ret.
  - apply keeps_bind; [apply keeps_pathExists|].
    intros [|]; [apply keeps_ret | exact IH].
Qed.

Lemma keeps_detectBundleId : keeps store detectDefaultBrowserBundleIdMac.
Proof.
  unfold detectDefaultBrowserBundleIdMac.
  apply keeps_bind; [apply keeps_pathExists|].
  intros [|]; cbn [negb]; [|apply keeps_ret].
  apply keeps_bind; [apply keeps_execText|].
  intros [raw|]; [|apply keeps_ret].
  destruct (jsonParse host raw) as [[| | | |handlers|]|]; try apply keeps_ret.
  destruct (resolveScheme handlers "http"); apply keeps_ret.
Qed.

Lemma keeps_detectMac : keeps store detectDefaultChromiumExecutableMac.
Proof.
  unfold detectDefaultChromiumExecutableMac.
  apply keeps_bind; [apply keeps_detectBundleId|].
  intros [bundleId|]; [|apply keeps_ret].
  destruct (_ || _); [apply keeps_ret|].
  apply keeps_bind; [apply keeps_execText|].
  intros [raw|]; [|apply keeps_ret].
  apply keeps_bind; [apply keeps_execText|].
  intros [nm|]; [|apply keeps_ret].
  apply keeps_bind; [apply keeps_pathExists|].
  intros [|]; apply keeps_ret.
Qed.

Lemma keeps_detect plat : keeps store (detectDefaultChromiumExecutable plat).
Proof.
  destruct plat; cbn [detectDefaultChromiumExecutable]; try apply keeps_ret.
  - apply keeps_detectMac.
  - apply keeps_firstInstalled.
Qed.

Lemma keeps_resolve resolved plat :
  keeps store (resolveBrowserExecutableForPlatform resolved plat).
Proof.
  assert (Hauto : keeps store
            (detected <- detectDefaultChromiumExecutable plat ;;
             match detected with
             | Some e => ret (Some e)
             | None =>
                 match plat with
                 | darwin => findChromeExecutableMac
                 | linux => findChromeExecutableLinux
                 | win32 => findChromeExecutableWindows
                 | otherPlatform _ => ret None
                 end
             end)).
  { apply keeps_bind; [apply keeps_detect|].
    intros [e|]; [apply keeps_ret|].
    destruct plat; try apply keeps_ret; apply keeps_findFirstExecutable. }
  unfold resolveBrowserExecutableForPlatform.
  destruct (executablePath resolved) as [[|c rest]|]; try exact Hauto.
  apply keeps_bind; [apply keeps_pathExists|].
  intros [|]; cbn [negb]; [apply keeps_ret | apply keeps_throw].
Qed.

(** *** The readiness loop *)

(** The loop never throws; it only probes, [n] times, and touches nothing but
    the clock and the trace.  It leaves either at the deadline or right
    after a probe that succeeded; a first probe that succeeds ends it at
    once; and when no probe can succeed it runs until the deadline and
    overshoots it by less than one turn (a probe of at most 500 ms and a
    sleep of 200 ms). *)
Lemma waitForCdp_spec url readyDeadline w :
  exists n w',
    waitForCdp url readyDeadline w = (Returned tt, w') /\
    trace w' = (trace w ++ repeat (EvHttpGet (versionUrlOf url)) n)%list /\
    store w' = store w /\
    now w <= now w' /\
    (readyDeadline <= now w' \/
     exists t, now w <= t <= now w' /\ reachableAt url 500 t = true) /\
    (now w < readyDeadline -> reachableAt url 500 (now w) = true ->
     n = 1%nat /\
     w' = advance (probeSpan url 500 (now w)) (log (EvHttpGet (versionUrlOf url)) w)) /\
    ((forall t, now w <= t -> reachableAt url 500 t = false) ->
     Z.max (now w) readyDeadline <= now w' <= Z.max (now w) (readyDeadline + 699)).
Proof.
  remember (Z.to_nat (readyDeadline - now w)) as k eqn:Hk.
  revert w Hk. induction k as [k IH] using lt_wf_ind. intros w Hk.
  rewrite waitForCdp_step.
  destruct (Z.ltb_spec (now w) readyDeadline) as [Hlt|Hge].
  - rewrite readinessTurn_run.
    pose proof (probeSpan_bounds url 500 (now w)) as Hspan.
    destruct (reachableAt url 500 (now w)) eqn:Hup.
    + exists 1%nat. eexists. split; [reflexivity|].
      split; [reflexivity|]. split; [reflexivity|].
      split; [cbn [now advance log]; lia|]. split; [|split].
      * right. exists (now w). split; [cbn [now advance log]; lia | exact Hup].
      * intros _ _. now split.
      * intros Hnever. rewrite Hnever in Hup by lia. discriminate.
    + set (w1 := advance 200 _).
      assert (Hnow : now w1 = now w + probeSpan url 500 (now w) + 200)
        by (unfold w1; cbn [now advance log]; lia).
      destruct (IH (Z.to_nat (readyDeadline - now w1))) with (w := w1)
        as (n & w' & Hrun & Htrace & Hstore & Hmono & Hexit & _ & Hdead);
        [lia | reflexivity |].
      exists (S n), w'. split; [exact Hrun|].
      split; [rewrite Htrace; unfold w1; cbn [trace advance log repeat];
              now rewrite <- app_assoc|].
      split; [rewrite Hstore; reflexivity|].
      split; [lia|]. split; [|split].
      * destruct Hexit as [Hd|(t & Ht & Hr)]; [now left|].
        right. exists t. split; [lia | exact Hr].
      * intros _ H. discriminate H.
      * intros Hnever.
        assert (Hnever1 : forall t, now w1 <= t -> reachableAt url 500 t = false)
          by (intros t Ht; apply Hnever; lia).
        specialize (Hdead Hnever1). lia.
  - exists 0%nat, w. cbn [repeat]. rewrite app_nil_r.
    split; [reflexivity|]. split; [reflexivity|]. split; [reflexivity|].
    split; [lia|]. split; [now left|]. split; [lia|]. intros _. lia.
Qed.

Lemma tryKill_run p signal w :
  exists w',
    tryKill p signal w = (Returned tt, w') /\
    trace w' = (trace w ++ [EvKill p signal])%list /\
    now w' = now w /\ activeBrowser w' = activeBrowser w.
Proof.
  unfold tryKill, tryCatch, bind, procKill, ret.
  destruct (killOutcome host p signal (now w)); eexists; split; try reflexivity;
    simpl; auto.
Qed.

(** A guarded [kill] in full: it always returns, and what it changes is the
    [killed] flag of its handle, when the signal is delivered. *)
Lemma tryKill_effect p signal w :
  exists w',
    tryKill p signal w = (Returned tt, w') /\
    trace w' = (trace w ++ [EvKill p signal])%list /\
    now w' = now w /\ fs w' = fs w /\ spawned w' = spawned w /\
    activeBrowser w' = activeBrowser w /\
    (forall q, killed w q = true -> killed w' q = true) /\
    (forall q, q <> p -> killed w' q = killed w q) /\
    (killOutcome host p signal (now w) = Delivered -> killed w' p = true) /\
    (killOutcome host p signal (now w) <> Delivered -> killed w' = killed w).
Proof.
  unfold tryKill, tryCatch, bind, procKill, ret.
  destruct (killOutcome host p signal (now w)); eexists;
    (split; [reflexivity|]); cbn [trace now fs spawned activeBrowser killed
                                     markKilled log];
    repeat split; try reflexivity; try congruence.
  - intros q Hq. now rewrite Hq, orb_true_r.
  - intros q Hq. apply Nat.eqb_neq in Hq. now rewrite Hq.
  - intros _. now rewrite Nat.eqb_refl.
Qed.

(** The line logged on success. *)
Definition startedLine (profile : ResolvedBrowserProfile) (exe : BrowserExecutable)
    (proc : ProcRef) : string :=
  "Browser started (" ++ kindName (kind exe) ++ ") on port "
  ++ numberToString (cdpPort profile) ++ " (pid "
  ++ numberToString (match spawnPid host proc with Some n => n | None => -1 end)
  ++ ")".

(** The world in which the probe that follows the loop has been answered,
    when it is issued in the world [wl] that the loop left. *)
Definition probed (url : string) (wl : World) : World :=
  advance (probeSpan url 500 (now wl)) (log (EvHttpGet (versionUrlOf url)) wl).

(** The wait as a whole.  For a child that could not be started the process
    dies in the first probe.  Otherwise the loop ends in some world [wl]
    after [n] probes, one more probe is issued there, and its answer alone
    decides between success and kill-and-fail. *)
Lemma awaitCdp_run profile exe dir startedAt proc w :
  match spawnPid host proc with
  | None =>
      awaitCdp profile exe dir startedAt proc w
      = (Died, log (EvHttpGet (versionUrlOf (cdpUrl profile))) w)
  | Some pid =>
      exists n wl,
        waitForCdp (cdpUrl profile) (now w + 15000) w = (Returned tt, wl) /\
        trace wl
        = (trace w ++ repeat (EvHttpGet (versionUrlOf (cdpUrl profile))) n)%list /\
        store wl = store w /\
        now w <= now wl /\
        (now w + 15000 <= now wl \/
         exists t, now w <= t <= now wl /\ reachableAt (cdpUrl profile) 500 t = true) /\
        (reachableAt (cdpUrl profile) 500 (now w) = true ->
         n = 1%nat /\ wl = probed (cdpUrl profile) w) /\
        ((forall t, now w <= t -> reachableAt (cdpUrl profile) 500 t = false) ->
         now w + 15000 <= now wl <= now w + 15699) /\
        awaitCdp profile exe dir startedAt proc w
        = if reachableAt (cdpUrl profile) 500 (now wl)
          then (Returned (mkRunning pid exe dir (cdpPort profile) startedAt proc),
                log (EvLog (startedLine profile exe proc)) (probed (cdpUrl profile) wl))
          else (Thrown (cdpStartError profile),
                snd (tryKill proc SIGKILL (probed (cdpUrl profile) wl)))
  end.
Proof.
  destruct (spawnPid host proc) as [pid|] eqn:Hpid.
  - destruct (waitForCdp_spec (cdpUrl profile) (now w + 15000) w)
      as (n & wl & Hloop & Htrace & Hstore & Hmono & Hexit & Hfirst & Hdead).
    exists n, wl. split; [exact Hloop|]. split; [exact Htrace|].
    split; [exact Hstore|]. split; [exact Hmono|]. split; [exact Hexit|].
    split; [intros Hup; apply Hfirst; [lia | exact Hup]|].
    split; [intros Hnever; specialize (Hdead Hnever); lia|].
    unfold awaitCdp, bind, dateNow, ask. rewrite Hpid, Hloop, isChromeReachable_run.
    fold (probed (cdpUrl profile) wl).
    destruct (reachableAt (cdpUrl profile) 500 (now wl)); cbn [negb].
    + unfold startedLine. rewrite Hpid. reflexivity.
    + destruct (tryKill_run proc SIGKILL (probed (cdpUrl profile) wl))
        as (w4 & Hkill & _).
      cbv beta. now rewrite Hkill.
  - unfold awaitCdp, bind, dateNow, ask. rewrite Hpid. reflexivity.
Qed.

(** *** The launch as a whole *)

Lemma repeat_snoc {A} (x : A) (n : nat) (l : list A) :
  (repeat x n ++ x :: l = repeat x (S n) ++ l)%list.
Proof.
  induction n as [|n IH]; [reflexivity|]. cbn [repeat app] in *. now rewrite IH.
Qed.

Lemma newEvents_app w w' evs :
  trace w' = (trace w ++ evs)%list -> newEvents w w' = evs.
Proof.
  intros H. unfold newEvents. rewrite H, skipn_app, skipn_all, Nat.sub_diag.
  reflexivity.
Qed.

(** The world right after [spawn] has returned the handle of [exe], from the
    world [wr] that the resolution left: the directory exists, the handle
    [spawned wr] is new and not [killed]. *)
Definition spawnedWorld (resolved : ResolvedBrowserConfig)
    (profile : ResolvedBrowserProfile) (exe : BrowserExecutable) (wr : World) : World :=
  let w1 :=
    log (EvSpawn (spawned wr) (path exe)
           (chromeArgs resolved profile (dataDirOf profile)) (homedir host))
      (createDir (dataDirOf profile) (log (EvMkdir (dataDirOf profile)) wr)) in
  mkWorld (now w1) (fs w1) (fun q => negb (Nat.eqb q (spawned wr)) && killed w1 q)
          (S (spawned wr)) (activeBrowser w1) (trace w1).

(** A launch for a loopback profile, step by step: the resolution, the
    creation of the directory, the spawn, the wait. *)
Lemma launch_cases resolved profile w :
  cdpIsLoopback profile = true ->
  match resolveBrowserExecutable resolved w with
  | (Returned (Some exe), wr) =>
      match mkdirFault host (dataDirOf profile) (now wr) with
      | Some e =>
          launchClawdChrome resolved profile w
          = (Thrown e, log (EvMkdir (dataDirOf profile)) wr)
      | None =>
          match spawnFault host (path exe)
                  (chromeArgs resolved profile (dataDirOf profile)) (now wr) with
          | Some e =>
              launchClawdChrome resolved profile w
              = (Thrown e,
                 log (EvSpawn (spawned wr) (path exe)
                        (chromeArgs resolved profile (dataDirOf profile))
                        (homedir host))
                   (createDir (dataDirOf profile)
                      (log (EvMkdir (dataDirOf profile)) wr)))
          | None =>
              launchClawdChrome resolved profile w
              = awaitCdp profile exe (dataDirOf profile) (now wr) (spawned wr)
                  (spawnedWorld resolved profile exe wr)
          end
      end
  | (Returned None, wr) =>
      launchClawdChrome resolved profile w = (Thrown noBrowserError, wr)
  | (Thrown e, wr) =>
      launchClawdChrome resolved profile w = (Thrown e, wr)
  | (Died, wr) =>
      launchClawdChrome resolved profile w = (Died, wr)
  end.
Proof.
  intros Hloop.
  destruct (resolveBrowserExecutable resolved w) as [[[exe|]|e|] wr] eqn:Hres;
    unfold launchClawdChrome, bind; rewrite Hloop; cbn [negb]; rewrite Hres;
    try reflexivity.
  unfold mkdirSync.
  destruct (mkdirFault host (dataDirOf profile) (now wr)) as [e|]; [reflexivity|].
  unfold dateNow, ask, spawn. cbv beta iota zeta. cbn [now log createDir spawned].
  destruct (spawnFault host (path exe) _ (now wr)) as [e|]; reflexivity.
Qed.

(** The events that a launch adds once an executable is resolved, and the
    rest of what it leaves, on each of its paths. *)
Lemma launch_paths resolved profile w exe wr :
  cdpIsLoopback profile = true ->
  resolveBrowserExecutable resolved w = (Returned (Some exe), wr) ->
  exists n tail,
    trace (snd (launchClawdChrome resolved profile w))
    = (trace wr
       ++ EvMkdir (dataDirOf profile)
          :: match mkdirFault host (dataDirOf profile) (now wr) with
             | Some _ => []
             | None =>
                 EvSpawn (spawned wr) (path exe)
                   (chromeArgs resolved profile (dataDirOf profile)) (homedir host)
                 :: repeat (EvHttpGet (versionUrlOf (cdpUrl profile))) n ++ tail
             end)%list /\
    (tail = [] \/ tail = [EvLog (startedLine profile exe (spawned wr))]
     \/ tail = [EvKill (spawned wr) SIGKILL]) /\
    (forall running,
       fst (launchClawdChrome resolved profile w) = Returned running ->
       runningPort running = cdpPort profile /\ proc running = spawned wr) /\
    activeBrowser (snd (launchClawdChrome resolved profile w)) = activeBrowser wr /\
    (spawned (snd (launchClawdChrome resolved profile w)) = spawned wr \/
     spawned (snd (launchClawdChrome resolved profile w)) = S (spawned wr)) /\
    (forall q, q <> spawned wr ->
       killed (snd (launchClawdChrome resolved profile w)) q = killed wr q).
Proof.
  intros Hloop Hres.
  pose proof (launch_cases resolved profile w Hloop) as Hcases.
  rewrite Hres in Hcases.
  destruct (mkdirFault host (dataDirOf profile) (now wr)) as [e|].
  { rewrite Hcases. exists 0%nat, []. cbn [snd fst trace log activeBrowser spawned killed].
    split; [reflexivity|]. split; [now left|]. split; [discriminate|].
    split; [reflexivity|]. split; [now left|]. reflexivity. }
  destruct (spawnFault host (path exe) _ (now wr)) as [e|].
  { rewrite Hcases. exists 0%nat, [].
    cbn [snd fst trace log createDir activeBrowser spawned killed repeat app].
    split; [now rewrite <- app_assoc|]. split; [now left|]. split; [discriminate|].
    split; [reflexivity|]. split; [now left|]. reflexivity. }
  rewrite Hcases.
  set (ws := spawnedWorld resolved profile exe wr).
  assert (Hws : trace ws
                = (trace wr
                   ++ [EvMkdir (dataDirOf profile);
                       EvSpawn (spawned wr) (path exe)
                         (chromeArgs resolved profile (dataDirOf profile))
                         (homedir host)])%list
                /\ activeBrowser ws = activeBrowser wr
                /\ spawned ws = S (spawned wr)
                /\ forall q, killed ws q = negb (Nat.eqb q (spawned wr)) && killed wr q).
  { unfold ws, spawnedWorld. cbn [trace log createDir activeBrowser spawned killed].
    rewrite <- app_assoc. repeat split. }
  destruct Hws as (Htr & Hact & Hsp & Hk).
  assert (Hold : forall q, q <> spawned wr -> killed ws q = killed wr q).
  { intros q Hq. rewrite Hk. apply Nat.eqb_neq in Hq. now rewrite Hq. }
  pose proof (awaitCdp_run profile exe (dataDirOf profile) (now wr) (spawned wr) ws)
    as Hrun.
  destruct (spawnPid host (spawned wr)) as [pid|].
  - destruct Hrun as (n & wl & _ & Htrace & Hstore & _ & _ & _ & _ & Hrun).
    apply store_parts in Hstore. destruct Hstore as (_ & Hkl & Hspl & Hactl).
    rewrite Hrun. exists (S n).
    destruct (reachableAt (cdpUrl profile) 500 (now wl)).
    + exists [EvLog (startedLine profile exe (spawned wr))].
      cbn [snd fst trace log advance probed activeBrowser spawned killed].
      unfold probed. cbn [trace log advance activeBrowser spawned killed].
      split.
      { rewrite Htrace, Htr, <- !app_assoc. cbn [app]. do 3 f_equal.
        apply repeat_snoc. }
      split; [right; now left|].
      split; [intros running H; inversion H; now split|].
      split; [now rewrite Hactl|]. split; [right; now rewrite Hspl|].
      intros q Hq. rewrite Hkl. now apply Hold.
    + exists [EvKill (spawned wr) SIGKILL].
      destruct (tryKill_effect (spawned wr) SIGKILL (probed (cdpUrl profile) wl))
        as (w4 & Hkill & Htr4 & _ & _ & Hsp4 & Hact4 & _ & Hother & _).
      rewrite Hkill. cbn [snd fst]. rewrite Htr4, Hsp4, Hact4.
      unfold probed. cbn [trace log advance activeBrowser spawned killed].
      split.
      { rewrite Htrace, Htr, <- !app_assoc. cbn [app]. do 3 f_equal.
        apply repeat_snoc. }
      split; [right; now right|]. split; [discriminate|].
      split; [now rewrite Hactl|]. split; [right; now rewrite Hspl|].
      intros q Hq. rewrite (Hother q Hq). unfold probed.
      cbn [killed advance log]. rewrite Hkl. now apply Hold.
  - rewrite Hrun. exists 1%nat, [].
    cbn [snd fst trace log activeBrowser spawned killed repeat app].
    split; [rewrite Htr, <- app_assoc; reflexivity|].
    split; [now left|]. split; [discriminate|].
    split; [exact Hact|]. split; [right; exact Hsp|]. exact Hold.
Qed.

(** *** Shutdown *)

Lemma shutdownTurn_run running w :
  shutdownTurn running w =
  if noExitCode (exitCodeAt host (proc running) (now w)) && killed w (proc running)
  then (Returned Break, w)
  else
    let url := cdpUrlForPort (runningPort running) in
    let w1 := advance (probeSpan url 200 (now w)) (log (EvHttpGet (versionUrlOf url)) w) in
    if reachableAt url 200 (now w)
    then (Returned Continue, advance 100 w1)
    else (Returned Return, w1).
Proof.
  unfold shutdownTurn, bind, ask. cbv beta iota.
  destruct (noExitCode _ && _); [reflexivity|].
  rewrite isChromeReachable_run.
  destruct (reachableAt _ 200 (now w)); reflexivity.
Qed.

(** The shutdown loop always ends, and without an exception. *)
Lemma shutdownLoop_returns running start timeoutMs w :
  exists flow w', shutdownLoop running start timeoutMs w = (Returned flow, w').
Proof.
  remember (Z.to_nat (start + timeoutMs - now w)) as k eqn:Hk.
  revert w Hk. induction k as [k IH] using lt_wf_ind. intros w Hk.
  rewrite shutdownLoop_step.
  destruct (Z.ltb_spec (now w - start) timeoutMs) as [Hlt|Hge]; [|eauto].
  rewrite shutdownTurn_run.
  destruct (noExitCode _ && _); [eauto|]. cbv zeta.
  pose proof (probeSpan_bounds (cdpUrlForPort (runningPort running)) 200 (now w)).
  destruct (reachableAt _ 200 (now w)); [|eauto].
  eapply IH; [|reflexivity]. simpl. lia.
Qed.

Lemma stopClawdChrome_returns running timeoutMs w :
  exists w', stopClawdChrome running timeoutMs w = (Returned tt, w').
Proof.
  unfold stopClawdChrome, bind, dateNow, ask. cbv beta iota zeta.
  destruct (killed w (proc running)); [eexists; reflexivity|].
  destruct (tryKill_run (proc running) SIGTERM w) as (w1 & Hterm & _).
  rewrite Hterm. cbv beta iota.
  destruct (shutdownLoop_returns running (now w1) timeoutMs w1) as (flow & w2 & Hloop).
  rewrite Hloop. cbv beta iota.
  destruct flow; try (eexists; reflexivity);
    destruct (tryKill_run (proc running) SIGKILL w2) as (w3 & Hkill & _);
    rewrite Hkill; eexists; reflexivity.
Qed.

(** *** Executable resolution *)

(** The scan returns the first candidate whose path exists, and leaves the
    file system as it found it. *)
Lemma findFirstExecutable_run candidates w :
  fst (findFirstExecutable candidates w)
  = Returned (find (fun c => fs w (path c)) candidates) /\
  fs (snd (findFirstExecutable candidates w)) = fs w.
Proof.
  revert w. induction candidates as [|c rest IH]; intros w; [now split|].
  cbn [findFirstExecutable find]. unfold bind, pathExists. cbv beta iota.
  destruct (fs w (path c)) eqn:Hc; [now split|].
  destruct (IH (log (EvExists (path c)) w)) as [Hres Hfs]. now split.
Qed.

Lemma firstInstalled_run candidates w :
  fst (firstInstalled candidates w)
  = Returned (find (fun c => fs w (path c)) candidates) /\
  fs (snd (firstInstalled candidates w)) = fs w.
Proof.
  revert w. induction candidates as [|c rest IH]; intros w; [now split|].
  cbn [firstInstalled find]. unfold bind, pathExists. cbv beta iota.
  destruct (fs w (path c)) eqn:Hc; [destruct c; now split|].
  destruct (IH (log (EvExists (path c)) w)) as [Hres Hfs]. now split.
Qed.

Lemma find_app_first {A} (f : A -> bool) (l1 l2 : list A) :
  find f (l1 ++ l2)
  = match find f l1 with Some x => Some x | None => find f l2 end.
Proof.
  induction l1 as [|x l1 IH]; [reflexivity|]. simpl. now destruct (f x).
Qed.

(** Resolution on Linux when [executablePath] is unset or empty. *)
Lemma resolve_linux_auto resolved w :
  executablePath resolved = None \/ executablePath resolved = Some EmptyString ->
  fst (resolveBrowserExecutableForPlatform resolved linux w)
  = Returned (find (fun c => fs w (path c))
                (linuxDefaultCandidates ++ linuxCandidates)).
Proof.
  intros Hpath.
  assert (Hauto :
    resolveBrowserExecutableForPlatform resolved linux
    = (detected <- detectDefaultChromiumExecutable linux ;;
       match detected with
       | Some e => ret (Some e)
       | None => findChromeExecutableLinux
       end)).
  { unfold resolveBrowserExecutableForPlatform.
    destruct Hpath as [H|H]; now rewrite H. }
  rewrite Hauto, find_app_first. unfold bind.
  cbn [detectDefaultChromiumExecutable]. unfold detectDefaultChromiumExecutableLinux.
  destruct (firstInstalled_run linuxDefaultCandidates w) as [Hres Hfs].
  destruct (firstInstalled linuxDefaultCandidates w) as [o w1].
  cbn [fst snd] in Hres, Hfs. rewrite Hres.
  destruct (find _ linuxDefaultCandidates); [reflexivity|].
  unfold findChromeExecutableLinux.
  destruct (findFirstExecutable_run linuxCandidates w1) as [Hres2 _].
  now rewrite Hres2, Hfs.
Qed.

(** Everything a launch adds to the trace: the events of the resolution,
    then either nothing (the launch failed before creating the directory)
    or the directory creation, followed unless it failed by one spawn with
    the arguments of [chromeArgs], probes, and at most one closing event,
    the log line or the SIGKILL. *)
Lemma launch_events resolved profile w :
  exists pre post,
    newEvents w (snd (launchClawdChrome resolved profile w)) = (pre ++ post)%list /\
    forallb resolutionEvent pre = true /\
    (post = [] \/ post = [EvMkdir (dataDirOf profile)] \/
     exists exe wr n tail,
       post = (EvMkdir (dataDirOf profile)
               :: EvSpawn (spawned wr) (path exe)
                    (chromeArgs resolved profile (dataDirOf profile)) (homedir host)
               :: repeat (EvHttpGet (versionUrlOf (cdpUrl profile))) n ++ tail)%list /\
       spawned wr = spawned w /\
       (tail = [] \/ tail = [EvLog (startedLine profile exe (spawned wr))]
        \/ tail = [EvKill (spawned wr) SIGKILL])).
Proof.
  destruct (cdpIsLoopback profile) eqn:Hloop.
  - pose proof (launch_cases resolved profile w Hloop) as Hcases.
    pose proof (keeps_resolve resolved (platform host) w) as Hkeep.
    destruct (emitsOnly_resolve resolutionEvent (fun _ => eq_refl)
                (fun _ _ => eq_refl) resolved (platform host) w)
      as (pre & Hpre & Hok).
    fold (resolveBrowserExecutable resolved) in Hpre, Hkeep.
    destruct (resolveBrowserExecutable resolved w) as [[[exe|]|e|] wr] eqn:Hres;
      cbn [snd] in Hpre, Hkeep.
    + destruct (launch_paths resolved profile w exe wr Hloop Hres)
        as (n & tail & Htrace & Htail & _).
      apply store_parts in Hkeep. destruct Hkeep as (_ & _ & Hsp & _).
      rewrite Hpre, <- app_assoc in Htrace.
      exists pre. eexists. split; [exact (newEvents_app _ _ _ Htrace)|].
      split; [exact Hok|].
      destruct (mkdirFault host (dataDirOf profile) (now wr)); [right; now left|].
      right. right. exists exe, wr, n, tail. now repeat split.
    + rewrite Hcases. cbn [snd]. exists pre, [].
      split; [rewrite app_nil_r; exact (newEvents_app _ _ _ Hpre)|].
      split; [exact Hok | now left].
    + rewrite Hcases. cbn [snd]. exists pre, [].
      split; [rewrite app_nil_r; exact (newEvents_app _ _ _ Hpre)|].
      split; [exact Hok | now left].
    + rewrite Hcases. cbn [snd]. exists pre, [].
      split; [rewrite app_nil_r; exact (newEvents_app _ _ _ Hpre)|].
      split; [exact Hok | now left].
  - exists [], []. unfold launchClawdChrome. rewrite Hloop. cbn [negb snd throw].
    split; [apply newEvents_app; now rewrite app_nil_r|]. split; [reflexivity | now left].
Qed.

(** The events of a launch that matter to its neighbours: no handshake, one
    kind of signal, one argument list. *)
Lemma launch_event_kinds resolved profile w ev :
  In ev (newEvents w (snd (launchClawdChrome resolved profile w))) ->
  notHandshake ev = true /\
  (forall q s, ev = EvKill q s -> q = spawned w /\ s = SIGKILL) /\
  (forall p file args home,
     ev = EvSpawn p file args home ->
     args = chromeArgs resolved profile (dataDirOf profile)).
Proof.
  intros Hin.
  destruct (launch_events resolved profile w) as (pre & post & Hnew & Hpre & Hpost).
  rewrite Hnew in Hin. apply in_app_or in Hin. destruct Hin as [Hin|Hin].
  { rewrite forallb_forall in Hpre. apply Hpre in Hin.
    destruct ev; try discriminate; repeat split; discriminate. }
  destruct Hpost as [->|[->|(exe & wr & n & tail & -> & Hsp & Htail)]].
  - destruct Hin.
  - destruct Hin as [<-|[]]. repeat split; discriminate.
  - cbn [In] in Hin. destruct Hin as [<-|[<-|Hin]].
    + repeat split; discriminate.
    + split; [reflexivity|]. split; [discriminate|].
      intros p file args home H. now inversion H.
    + apply in_app_or in Hin. destruct Hin as [Hin|Hin].
      * apply repeat_spec in Hin. subst ev. repeat split; discriminate.
      * destruct Htail as [->|[->| ->]]; [destruct Hin | |];
          destruct Hin as [<-|[]]; (split; [reflexivity|]);
          (split; [|discriminate]); try discriminate.
        intros q s H. inversion H. now split.
Qed.

(** ** The claims *)

(** C7. For every config and every profile with [cdpIsLoopback = false],
    [launchClawdChrome] raises the "profile is remote" configuration error
    at once: the world it leaves is the world it found, so no executable was
    resolved, no directory created and no process spawned. *)
Theorem launch_rejects_remote_profile resolved profile w :
  cdpIsLoopback profile = false ->
  launchClawdChrome resolved profile w = (Thrown (remoteProfileError profile), w).
Proof.
  intros H. unfold launchClawdChrome. rewrite H. reflexivity.
Qed.

(** C5. While a session is tracked and its endpoint answers the HTTP probe,
    [browserStart] is a no-op: it returns normally, the only thing it does
    is that one probe, no process is created, and the tracked session is
    the very same record (same pid, same process handle). *)
Theorem browserStart_reuses_reachable_session opts w running :
  activeBrowser w = Some running ->
  reachableAt (cdpUrlForPort (runningPort running)) 500 (now w) = true ->
  exists w',
    browserStart opts w = (Returned tt, w') /\
    activeBrowser w' = Some running /\
    spawned w' = spawned w /\
    killed w' = killed w /\
    fs w' = fs w /\
    newEvents w w'
    = [EvHttpGet (versionUrlOf (cdpUrlForPort (runningPort running)))].
Proof.
  intros Hactive Hup.
  unfold browserStart, bind, ask. cbv beta iota. rewrite Hactive.
  change ("http://127.0.0.1:" ++ numberToString (runningPort running))
    with (cdpUrlForPort (runningPort running)).
  rewrite isChromeReachable_run, Hup.
  eexists. split; [reflexivity|]. cbn [activeBrowser spawned killed fs advance log].
  repeat (split; [try assumption; reflexivity|]).
  now apply newEvents_app.
Qed.

(** C10. When a reachable session is reused, the options of the call play
    no part: whatever [opts] is, [browserStart] gives the result it gives
    without options; the world it leaves is the initial one but for the
    time and the trace of the one probe, so the tracked session is the same
    record and nothing is spawned. *)
Theorem browserStart_reuse_ignores_options opts w running :
  activeBrowser w = Some running ->
  reachableAt (cdpUrlForPort (runningPort running)) 500 (now w) = true ->
  browserStart opts w = browserStart None w /\
  snd (browserStart opts w)
  = advance (probeSpan (cdpUrlForPort (runningPort running)) 500 (now w))
      (log (EvHttpGet (versionUrlOf (cdpUrlForPort (runningPort running)))) w) /\
  activeBrowser (snd (browserStart opts w)) = Some running /\
  forallb notSpawn (newEvents w (snd (browserStart opts w))) = true.
Proof.
  intros Hactive Hup.
  assert (Hrun : forall o, browserStart o w =
            (Returned tt,
             advance (probeSpan (cdpUrlForPort (runningPort running)) 500 (now w))
               (log (EvHttpGet (versionUrlOf (cdpUrlForPort (runningPort running)))) w))).
  { intros o. unfold browserStart, bind, ask. cbv beta iota. rewrite Hactive.
    change ("http://127.0.0.1:" ++ numberToString (runningPort running))
      with (cdpUrlForPort (runningPort running)).
    now rewrite isChromeReachable_run, Hup. }
  rewrite !Hrun. split; [reflexivity|]. split; [reflexivity|].
  split; [exact Hactive|].
  erewrite newEvents_app; [|reflexivity]. reflexivity.
Qed.

(** C9. [browserStop] with no tracked session returns at once and changes
    nothing.  With a tracked session it always returns normally, whatever
    the process and the host do with the signals, and leaves no tracked
    session, so that [getCdpUrl] then raises "Browser not started". *)
Theorem browserStop_clears_session w :
  (activeBrowser w = None -> browserStop w = (Returned tt, w)) /\
  (forall running, activeBrowser w = Some running ->
     exists w',
       browserStop w = (Returned tt, w') /\
       activeBrowser w' = None /\
       getCdpUrl w' = (Thrown notStartedError, w')).
Proof.
  split.
  - intros H. unfold browserStop, bind, ask. cbv beta iota. now rewrite H.
  - intros running H.
    unfold browserStop, bind, ask. cbv beta iota. rewrite H.
    destruct (stopClawdChrome_returns running 2500 w) as (w1 & Hstop).
    rewrite Hstop. cbv beta iota.
    eexists. split; [reflexivity|]. split; reflexivity.
Qed.

(** C2 (what the code does). When the SIGTERM is delivered to a live child
    whose exit code is still unset (or 0), the first turn of the loop takes
    the [break]: the SIGKILL follows the SIGTERM at once, without a single
    probe and without any time passing, whatever the timeout. *)
Theorem stop_escalates_without_waiting running timeoutMs w :
  killed w (proc running) = false ->
  killOutcome host (proc running) SIGTERM (now w) = Delivered ->
  noExitCode (exitCodeAt host (proc running) (now w)) = true ->
  exists w',
    stopClawdChrome running timeoutMs w = (Returned tt, w') /\
    newEvents w w' = [EvKill (proc running) SIGTERM; EvKill (proc running) SIGKILL] /\
    now w' = now w.
Proof.
  intros Hlive Hterm Hcode.
  unfold stopClawdChrome, bind, dateNow, ask. cbv beta iota zeta. rewrite Hlive.
  unfold tryKill at 1, tryCatch, bind, procKill, ret. rewrite Hterm. cbv beta iota.
  set (w1 := markKilled _ _).
  assert (Hloop : shutdownLoop running (now w1) timeoutMs w1 = (Returned Break, w1)).
  { rewrite shutdownLoop_step. destruct (_ <? _); [|reflexivity].
    rewrite shutdownTurn_run.
    change (now w1) with (now w). rewrite Hcode.
    unfold w1. cbn [killed markKilled]. now rewrite Nat.eqb_refl. }
  rewrite Hloop. cbv beta iota.
  destruct (tryKill_run (proc running) SIGKILL w1) as (w2 & Hkill & Htrace & Hnow & _).
  rewrite Hkill. exists w2. split; [reflexivity|]. split; [|exact Hnow].
  apply newEvents_app. rewrite Htrace. unfold w1. cbn [trace markKilled log].
  now rewrite <- app_assoc.
Qed.

(** C6 (amended). On every platform, when [executablePath] is a non-empty
    string the resolution probes that path and nothing else: it raises
    "browser.executablePath not found" when the path does not exist, and
    returns [{ kind: "custom", path }] when it does.  In both cases the
    world is the initial one plus that single existence probe, so neither
    the default-browser detection nor the candidate scan has run.  An empty
    [executablePath] is treated as an absent one. *)
Theorem resolve_custom_path_only resolved plat w :
  (forall p,
     executablePath resolved = Some p ->
     p <> EmptyString ->
     (fs w p = false ->
      resolveBrowserExecutableForPlatform resolved plat w
      = (Thrown (executablePathNotFound p), log (EvExists p) w)) /\
     (fs w p = true ->
      resolveBrowserExecutableForPlatform resolved plat w
      = (Returned (Some (mkExe custom p)), log (EvExists p) w))) /\
  (executablePath resolved = Some EmptyString ->
   forall unset,
     executablePath unset = None ->
     resolveBrowserExecutableForPlatform resolved plat w
     = resolveBrowserExecutableForPlatform unset plat w).
Proof.
  split.
  - intros p Hp Hne. unfold resolveBrowserExecutableForPlatform. rewrite Hp.
    destruct p as [|c rest]; [contradiction|].
    unfold bind, pathExists. cbv beta iota.
    split; intros Hfs; rewrite Hfs; reflexivity.
  - intros Hempty unset Hunset. unfold resolveBrowserExecutableForPlatform.
    now rewrite Hempty, Hunset.
Qed.

(** C3 (amended). On Linux the default-detection step is a scan of its own:
    it returns the first of /usr/bin/google-chrome, /usr/bin/chromium and
    /usr/bin/chromium-browser that exists, and null exactly when none of the
    three exists.  Without an [executablePath], resolution on Linux returns
    the first existing path of those three followed by the fixed candidate
    list. *)
Theorem linux_default_detection_scans w :
  fst (detectDefaultChromiumExecutable linux w)
  = Returned (find (fun c => fs w (path c)) linuxDefaultCandidates) /\
  (fst (detectDefaultChromiumExecutable linux w) = Returned None <->
   fs w "/usr/bin/google-chrome" = false /\
   fs w "/usr/bin/chromium" = false /\
   fs w "/usr/bin/chromium-browser" = false) /\
  (forall resolved,
     executablePath resolved = None ->
     fst (resolveBrowserExecutableForPlatform resolved linux w)
     = Returned (find (fun c => fs w (path c))
                   (linuxDefaultCandidates ++ linuxCandidates))).
Proof.
  assert (Hrun := proj1 (firstInstalled_run linuxDefaultCandidates w)).
  change (firstInstalled linuxDefaultCandidates)
    with (detectDefaultChromiumExecutable linux) in Hrun.
  split; [exact Hrun|]. split.
  - rewrite Hrun. unfold linuxDefaultCandidates. cbn [find path].
    destruct (fs w "/usr/bin/google-chrome"), (fs w "/usr/bin/chromium"),
      (fs w "/usr/bin/chromium-browser"); split;
      solve [ intros H; inversion H
            | intros (H1 & H2 & H3); discriminate
            | auto ].
  - intros resolved H. apply resolve_linux_auto. now left.
Qed.

(** C8. Whatever the config and the profile, every process that a launch
    spawns receives exactly this argument list, in this order: the eleven
    fixed flags (port and user-data directory filled in), then
    [--headless=new --disable-gpu] iff [headless], then
    [--no-sandbox --disable-setuid-sandbox] iff [noSandbox], then
    [--disable-dev-shm-usage] iff the platform is Linux, then [about:blank]. *)
Theorem launch_spawn_arguments resolved profile w p file args home :
  In (EvSpawn p file args home)
     (newEvents w (snd (launchClawdChrome resolved profile w))) ->
  args =
    ([ ("--remote-debugging-port=" ++ numberToString (cdpPort profile))%string;
       ("--user-data-dir="
        ++ pathJoin host [cwd host; "browser-data"; name profile])%string;
       "--no-first-run";
       "--no-default-browser-check";
       "--disable-sync";
       "--disable-background-networking";
       "--disable-component-update";
       "--disable-features=Translate,MediaRouter";
       "--disable-session-crashed-bubble";
       "--hide-crash-restore-bubble";
       "--password-store=basic" ]
     ++ (if headless resolved then ["--headless=new"; "--disable-gpu"] else [])
     ++ (if noSandbox resolved then ["--no-sandbox"; "--disable-setuid-sandbox"] else [])
     ++ (match platform host with linux => ["--disable-dev-shm-usage"] | _ => [] end)
     ++ ["about:blank"])%list.
Proof.
  intros Hin.
  assert (Hargs : args = chromeArgs resolved profile (dataDirOf profile))
    by exact (proj2 (proj2 (launch_event_kinds _ _ _ _ Hin)) p file args home eq_refl).
  rewrite Hargs. unfold chromeArgs, push, dataDirOf.
  destruct (headless resolved), (noSandbox resolved), (platform host); reflexivity.
Qed.

(** What a launch does once [spawn] has returned the handle of a child that
    runs with the pid [pid]: the loop ends in a world [wl] after [n] probes;
    the probe that follows, the last one, is issued in [wl]; after it comes
    a single event, the log line or the SIGKILL, and no time passes. *)
Lemma launch_started resolved profile w exe wr pid :
  cdpIsLoopback profile = true ->
  resolveBrowserExecutable resolved w = (Returned (Some exe), wr) ->
  mkdirFault host (dataDirOf profile) (now wr) = None ->
  spawnFault host (path exe) (chromeArgs resolved profile (dataDirOf profile)) (now wr)
  = None ->
  spawnPid host (spawned wr) = Some pid ->
  exists n wl w',
    waitForCdp (cdpUrl profile) (now wr + 15000) (spawnedWorld resolved profile exe wr)
    = (Returned tt, wl) /\
    trace wl
    = (trace wr
       ++ [EvMkdir (dataDirOf profile);
           EvSpawn (spawned wr) (path exe)
             (chromeArgs resolved profile (dataDirOf profile)) (homedir host)]
       ++ repeat (EvHttpGet (versionUrlOf (cdpUrl profile))) n)%list /\
    now wr <= now wl /\
    isChromeReachable (cdpUrl profile) 500 wl
    = (Returned (reachableAt (cdpUrl profile) 500 (now wl)), probed (cdpUrl profile) wl) /\
    launchClawdChrome resolved profile w
    = (if reachableAt (cdpUrl profile) 500 (now wl)
       then Returned (mkRunning pid exe (dataDirOf profile) (cdpPort profile) (now wr)
                        (spawned wr))
       else Thrown (cdpStartError profile), w') /\
    trace w'
    = (trace wl
       ++ [EvHttpGet (versionUrlOf (cdpUrl profile));
           if reachableAt (cdpUrl profile) 500 (now wl)
           then EvLog (startedLine profile exe (spawned wr))
           else EvKill (spawned wr) SIGKILL])%list /\
    now w' = now wl + probeSpan (cdpUrl profile) 500 (now wl) /\
    ((forall t, now wr <= t -> reachableAt (cdpUrl profile) 500 t = false) ->
     now wr + 15000 <= now wl <= now wr + 15699).
Proof.
  intros Hloop Hres Hmk Hsp Hpid.
  pose proof (launch_cases resolved profile w Hloop) as Hcases.
  rewrite Hres, Hmk, Hsp in Hcases.
  pose proof (awaitCdp_run profile exe (dataDirOf profile) (now wr) (spawned wr)
                (spawnedWorld resolved profile exe wr)) as Hrun.
  rewrite Hpid in Hrun.
  destruct Hrun as (n & wl & Hwait & Htrace & _ & Hmono & _ & _ & Hdead & Hrun).
  change (now (spawnedWorld resolved profile exe wr)) with (now wr) in *.
  exists n, wl. rewrite Hcases, Hrun.
  pose proof (isChromeReachable_run (cdpUrl profile) 500 wl) as Hprobe.
  fold (probed (cdpUrl profile) wl) in Hprobe. revert Hprobe.
  destruct (reachableAt (cdpUrl profile) 500 (now wl)); intros Hprobe.
  - eexists. split; [exact Hwait|]. split.
    { rewrite Htrace. unfold spawnedWorld. cbn [trace log createDir].
      now rewrite <- !app_assoc. }
    split; [exact Hmono|]. split; [exact Hprobe|].
    split; [reflexivity|]. unfold probed. cbn [trace now log advance].
    split; [now rewrite <- app_assoc|]. split; [reflexivity | exact Hdead].
  - destruct (tryKill_effect (spawned wr) SIGKILL (probed (cdpUrl profile) wl))
      as (w4 & Hkill & Htr4 & Hnow4 & _).
    rewrite Hkill. exists w4. split; [exact Hwait|]. split.
    { rewrite Htrace. unfold spawnedWorld. cbn [trace log createDir].
      now rewrite <- !app_assoc. }
    split; [exact Hmono|]. split; [exact Hprobe|].
    split; [reflexivity|]. rewrite Htr4, Hnow4. unfold probed.
    cbn [trace now log advance].
    split; [now rewrite <- app_assoc|]. split; [reflexivity | exact Hdead].
Qed.

(** A launch returns a session only on the path of [launch_started]. *)
Lemma launch_returned resolved profile w running w' :
  launchClawdChrome resolved profile w = (Returned running, w') ->
  cdpIsLoopback profile = true /\
  exists exe wr pid,
    resolveBrowserExecutable resolved w = (Returned (Some exe), wr) /\
    mkdirFault host (dataDirOf profile) (now wr) = None /\
    spawnFault host (path exe) (chromeArgs resolved profile (dataDirOf profile))
      (now wr) = None /\
    spawnPid host (spawned wr) = Some pid.
Proof.
  intros Hrun.
  destruct (cdpIsLoopback profile) eqn:Hloop;
    [|unfold launchClawdChrome in Hrun; rewrite Hloop in Hrun; discriminate].
  split; [reflexivity|].
  pose proof (launch_cases resolved profile w Hloop) as Hcases.
  destruct (resolveBrowserExecutable resolved w) as [[[exe|]|e|] wr];
    try (rewrite Hrun in Hcases; discriminate).
  destruct (mkdirFault host (dataDirOf profile) (now wr)) eqn:Hmk;
    [rewrite Hrun in Hcases; discriminate|].
  destruct (spawnFault host (path exe) _ (now wr)) eqn:Hsp;
    [rewrite Hrun in Hcases; discriminate|].
  pose proof (awaitCdp_run profile exe (dataDirOf profile) (now wr) (spawned wr)
                (spawnedWorld resolved profile exe wr)) as Hwait.
  destruct (spawnPid host (spawned wr)) as [pid|] eqn:Hpid.
  - exists exe, wr, pid. repeat split; assumption.
  - rewrite <- Hcases, Hrun in Hwait. discriminate.
Qed.


(** C1 (amended). Take a loopback profile for which an executable resolves
    (in the world [wr]).  When the data directory can be created and the
    child is started, the launch spawns one process, polls until the loop
    ends (in the world [wl], after [n] probes), probes once more and then:
    - returns the session if that last probe found the endpoint reachable,
      after logging the start line;
    - sends SIGKILL to the process it spawned, as its last action, and
      raises the connectivity error naming the port and the profile, if
      that last probe found the endpoint unreachable.
    If the endpoint is never HTTP-reachable from the spawn on, it is the
    second, and the error is raised no earlier than 15 000 ms and no later
    than 16 199 ms after the spawn (the deadline, the loop turn in progress
    and the last probe).
    When the directory cannot be created, or [spawn] throws, the launch
    raises that error and sends no signal; when the operating system could
    not start the child, the process dies in the first probe.  When no
    executable resolves, the launch raises the error of the resolution in
    the world the resolution left: nothing is spawned or killed. *)
Theorem launch_unreachable_kills_then_fails resolved profile w :
  cdpIsLoopback profile = true ->
  (forall exe wr,
     resolveBrowserExecutable resolved w = (Returned (Some exe), wr) ->
     (forall pid,
        mkdirFault host (dataDirOf profile) (now wr) = None ->
        spawnFault host (path exe) (chromeArgs resolved profile (dataDirOf profile))
          (now wr) = None ->
        spawnPid host (spawned wr) = Some pid ->
        exists n wl w',
          waitForCdp (cdpUrl profile) (now wr + 15000)
            (spawnedWorld resolved profile exe wr) = (Returned tt, wl) /\
          trace wl
          = (trace wr
             ++ [EvMkdir (dataDirOf profile);
                 EvSpawn (spawned wr) (path exe)
                   (chromeArgs resolved profile (dataDirOf profile)) (homedir host)]
             ++ repeat (EvHttpGet (versionUrlOf (cdpUrl profile))) n)%list /\
          isChromeReachable (cdpUrl profile) 500 wl
          = (Returned (reachableAt (cdpUrl profile) 500 (now wl)),
             probed (cdpUrl profile) wl) /\
          launchClawdChrome resolved profile w
          = (if reachableAt (cdpUrl profile) 500 (now wl)
             then Returned (mkRunning pid exe (dataDirOf profile) (cdpPort profile)
                              (now wr) (spawned wr))
             else Thrown (cdpStartError profile), w') /\
          trace w'
          = (trace wl
             ++ [EvHttpGet (versionUrlOf (cdpUrl profile));
                 if reachableAt (cdpUrl profile) 500 (now wl)
                 then EvLog (startedLine profile exe (spawned wr))
                 else EvKill (spawned wr) SIGKILL])%list /\
          now w' = now wl + probeSpan (cdpUrl profile) 500 (now wl) /\
          ((forall t, now wr <= t -> reachableAt (cdpUrl profile) 500 t = false) ->
           launchClawdChrome resolved profile w = (Thrown (cdpStartError profile), w') /\
           trace w'
           = (trace wr
              ++ [EvMkdir (dataDirOf profile);
                  EvSpawn (spawned wr) (path exe)
                    (chromeArgs resolved profile (dataDirOf profile)) (homedir host)]
              ++ repeat (EvHttpGet (versionUrlOf (cdpUrl profile))) (S n)
              ++ [EvKill (spawned wr) SIGKILL])%list /\
           now wr + 15000 <= now w' <= now wr + 16199)) /\
     (forall e,
        mkdirFault host (dataDirOf profile) (now wr) = Some e ->
        launchClawdChrome resolved profile w
        = (Thrown e, log (EvMkdir (dataDirOf profile)) wr)) /\
     (forall e,
        mkdirFault host (dataDirOf profile) (now wr) = None ->
        spawnFault host (path exe) (chromeArgs resolved profile (dataDirOf profile))
          (now wr) = Some e ->
        launchClawdChrome resolved profile w
        = (Thrown e,
           log (EvSpawn (spawned wr) (path exe)
                  (chromeArgs resolved profile (dataDirOf profile)) (homedir host))
             (createDir (dataDirOf profile) (log (EvMkdir (dataDirOf profile)) wr)))) /\
     (mkdirFault host (dataDirOf profile) (now wr) = None ->
      spawnFault host (path exe) (chromeArgs resolved profile (dataDirOf profile))
        (now wr) = None ->
      spawnPid host (spawned wr) = None ->
      launchClawdChrome resolved profile w
      = (Died,
         log (EvHttpGet (versionUrlOf (cdpUrl profile)))
           (spawnedWorld resolved profile exe wr)))) /\
  (forall wr,
     resolveBrowserExecutable resolved w = (Returned None, wr) ->
     launchClawdChrome resolved profile w = (Thrown noBrowserError, wr)) /\
  (forall e wr,
     resolveBrowserExecutable resolved w = (Thrown e, wr) ->
     launchClawdChrome resolved profile w = (Thrown e, wr)).
Proof.
  intros Hloop.
  pose proof (launch_cases resolved profile w Hloop) as Hcases.
  split; [|split].
  - intros exe wr Hres. split; [|split; [|split]].
    + intros pid Hmk Hsp Hpid.
      destruct (launch_started _ _ _ _ _ _ Hloop Hres Hmk Hsp Hpid)
        as (n & wl & w' & Hwait & Htrl & Hmono & Hprobe & Hrun & Htrace & Hnow & Hdead).
      exists n, wl, w'. split; [exact Hwait|]. split; [exact Htrl|].
      split; [exact Hprobe|]. split; [exact Hrun|]. split; [exact Htrace|].
      split; [exact Hnow|].
      intros Hnever. rewrite (Hnever (now wl) Hmono) in Hrun, Htrace.
      split; [exact Hrun|]. split.
      * rewrite Htrace, Htrl, <- !app_assoc. cbn [app]. do 3 f_equal.
        apply repeat_snoc.
      * specialize (Hdead Hnever).
        pose proof (probeSpan_bounds (cdpUrl profile) 500 (now wl)). lia.
    + intros e Hmk. rewrite Hres, Hmk in Hcases. exact Hcases.
    + intros e Hmk Hsp. rewrite Hres, Hmk, Hsp in Hcases. exact Hcases.
    + intros Hmk Hsp Hpid. rewrite Hres, Hmk, Hsp in Hcases. rewrite Hcases.
      pose proof (awaitCdp_run profile exe (dataDirOf profile) (now wr) (spawned wr)
                    (spawnedWorld resolved profile exe wr)) as Hrun.
      now rewrite Hpid in Hrun.
  - intros wr Hres. now rewrite Hres in Hcases.
  - intros e wr Hres. now rewrite Hres in Hcases.
Qed.

(** ** More of the code: resolution *)

Lemma findFirstExecutable_found candidates w e w' :
  findFirstExecutable candidates w = (Returned (Some e), w') ->
  In e candidates /\ fs w (path e) = true.
Proof.
  intros H. pose proof (proj1 (findFirstExecutable_run candidates w)) as Hrun.
  rewrite H in Hrun. cbn [fst] in Hrun. inversion Hrun as [Hfind].
  symmetry in Hfind. now apply find_some in Hfind.
Qed.

Lemma firstInstalled_found candidates w e w' :
  firstInstalled candidates w = (Returned (Some e), w') ->
  In e candidates /\ fs w (path e) = true.
Proof.
  intros H. pose proof (proj1 (firstInstalled_run candidates w)) as Hrun.
  rewrite H in Hrun. cbn [fst] in Hrun. inversion Hrun as [Hfind].
  symmetry in Hfind. now apply find_some in Hfind.
Qed.

Lemma inferKindFromIdentifier_not_custom identifier :
  inferKindFromIdentifier identifier <> custom.
Proof.
  unfold inferKindFromIdentifier.
  repeat match goal with |- context [if ?b then _ else _] => destruct b end;
    discriminate.
Qed.

(** What the macOS detection returns is a file that exists, of a kind
    inferred from the bundle identifier. *)
Lemma detectMac_found w e w' :
  detectDefaultChromiumExecutableMac w = (Returned (Some e), w') ->
  fs w (path e) = true /\ kind e <> custom.
Proof.
  unfold detectDefaultChromiumExecutableMac, bind.
  pose proof (keeps_detectBundleId w) as K1.
  destruct (detectDefaultBrowserBundleIdMac w) as [[[bundleId|]|e0|] w1];
    [|discriminate|discriminate|discriminate].
  cbn [snd] in K1. destruct (_ || _); [discriminate|].
  match goal with |- context [execText ?c ?a ?t ?b w1] =>
    pose proof (keeps_execText c a t b w1) as K2;
    destruct (execText c a t b w1) as [[[raw|]|e1|] w2] end;
    [|discriminate|discriminate|discriminate].
  cbn [snd] in K2.
  match goal with |- context [execText ?c ?a ?t ?b w2] =>
    pose proof (keeps_execText c a t b w2) as K3;
    destruct (execText c a t b w2) as [[[nm|]|e2|] w3] end;
    [|discriminate|discriminate|discriminate].
  cbn [snd] in K3. unfold pathExists.
  match goal with |- context [fs w3 ?p] => destruct (fs w3 p) eqn:Hfs end;
    [|discriminate].
  intros H. inversion H; subst. cbn [path kind].
  split; [|apply inferKindFromIdentifier_not_custom].
  rewrite <- (store_fs _ _ K1), <- (store_fs _ _ K2), <- (store_fs _ _ K3).
  exact Hfs.
Qed.

Lemma detect_found plat w e w' :
  detectDefaultChromiumExecutable plat w = (Returned (Some e), w') ->
  fs w (path e) = true /\ kind e <> custom.
Proof.
  destruct plat; cbn [detectDefaultChromiumExecutable]; try discriminate.
  - apply detectMac_found.
  - intros H. apply firstInstalled_found in H. destruct H as [Hin Hfs].
    split; [exact Hfs|].
    cbn in Hin. destruct Hin as [<-|[<-|[<-|[]]]]; discriminate.
Qed.

Lemma candidates_found plat w e w' :
  match plat with
  | darwin => findChromeExecutableMac
  | linux => findChromeExecutableLinux
  | win32 => findChromeExecutableWindows
  | otherPlatform _ => ret None
  end w = (Returned (Some e), w') ->
  fs w (path e) = true /\ kind e <> custom.
Proof.
  destruct plat; try discriminate; intros H;
    apply findFirstExecutable_found in H; destruct H as [Hin Hfs];
    (split; [exact Hfs|]); cbn [In] in Hin;
    repeat (destruct Hin as [<-|Hin]; [discriminate|]); destruct Hin.
Qed.

(** The two ways a resolution can yield an executable. *)
Lemma resolve_found resolved plat w e w' :
  resolveBrowserExecutableForPlatform resolved plat w = (Returned (Some e), w') ->
  fs w (path e) = true /\
  ((kind e = custom /\ executablePath resolved = Some (path e)
    /\ path e <> EmptyString) \/
   (kind e <> custom /\
    (executablePath resolved = None \/ executablePath resolved = Some EmptyString))).
Proof.
  assert (Hauto :
    (executablePath resolved = None \/ executablePath resolved = Some EmptyString) ->
    (detected <- detectDefaultChromiumExecutable plat ;;
     match detected with
     | Some e => ret (Some e)
     | None =>
         match plat with
         | darwin => findChromeExecutableMac
         | linux => findChromeExecutableLinux
         | win32 => findChromeExecutableWindows
         | otherPlatform _ => ret None
         end
     end) w = (Returned (Some e), w') ->
    fs w (path e) = true /\
    ((kind e = custom /\ executablePath resolved = Some (path e)
      /\ path e <> EmptyString) \/
     (kind e <> custom /\
      (executablePath resolved = None \/ executablePath resolved = Some EmptyString)))).
  { intros Hunset. unfold bind.
    pose proof (keeps_detect plat w) as K.
    destruct (detectDefaultChromiumExecutable plat w) as [[[d|]|e0|] w1] eqn:Hdet;
      [| |discriminate|discriminate]; cbn [snd] in K.
    - intros H. inversion H; subst.
      destruct (detect_found _ _ _ _ Hdet) as [Hfs Hkind]. split; [exact Hfs|].
      right. now split.
    - intros H. apply candidates_found in H. destruct H as [Hfs Hkind].
      rewrite (store_fs _ _ K) in Hfs. split; [exact Hfs|]. right. now split. }
  unfold resolveBrowserExecutableForPlatform.
  destruct (executablePath resolved) as [[|c rest]|];
    [apply Hauto; now right | | apply Hauto; now left].
  unfold bind, pathExists.
  destruct (fs w (String c rest)) eqn:Hfs; cbn [negb]; [|discriminate].
  intros H. inversion H; subst. cbn [path kind]. split; [exact Hfs|].
  left. repeat split. discriminate.
Qed.

(** X1. Whatever the platform, the config and the host, an executable
    returned by the resolution existed on disk when the resolution began:
    every return is guarded by an existence test and the resolution itself
    creates and deletes nothing. *)
Theorem resolved_executable_exists resolved plat w exe w' :
  resolveBrowserExecutableForPlatform resolved plat w = (Returned (Some exe), w') ->
  fs w (path exe) = true /\ fs w' = fs w.
Proof.
  intros H. split; [exact (proj1 (resolve_found _ _ _ _ _ H))|].
  pose proof (keeps_resolve resolved plat w) as K. rewrite H in K.
  exact (store_fs _ _ K).
Qed.

(** X2. The kind [custom] is the mark of the configured path and of nothing
    else: a resolved executable has kind [custom] exactly when the config
    carries a non-empty [executablePath], and then its path is that one;
    the default detection and the candidate scans never produce it. *)
Theorem custom_kind_iff_configured resolved plat w exe w' :
  resolveBrowserExecutableForPlatform resolved plat w = (Returned (Some exe), w') ->
  (kind exe = custom <->
   exists p, executablePath resolved = Some p /\ p <> EmptyString) /\
  (kind exe = custom -> executablePath resolved = Some (path exe)).
Proof.
  intros H. destruct (resolve_found _ _ _ _ _ H) as [_ [(Hk & Hp & Hne)|(Hk & Hp)]].
  - split; [|intros _; exact Hp]. split; [|intros _; exact Hk].
    intros _. now exists (path exe).
  - split; [|intros Hc; contradiction]. split; [intros Hc; contradiction|].
    intros (p & Hsome & Hne). destruct Hp as [Hp|Hp]; rewrite Hp in Hsome.
    + discriminate.
    + inversion Hsome. now subst p.
Qed.

(** A computation that never raises. *)
Definition neverThrows {A : Type} (m : M A) : Prop :=
  forall w e, fst (m w) <> Thrown e.

Lemma neverThrows_ret {A} (a : A) : neverThrows (ret a).
Proof. intros w e. discriminate. Qed.

Lemma neverThrows_bind {A B} (m : M A) (k : A -> M B) :
  neverThrows m -> (forall a, neverThrows (k a)) -> neverThrows (bind m k).
Proof.
  intros Hm Hk w e. unfold bind. specialize (Hm w).
  destruct (m w) as [[a|e0|] w1]; cbn [fst] in *; [apply Hk| |discriminate].
  now destruct (Hm e0).
Qed.

Lemma neverThrows_pathExists p : neverThrows (pathExists p).
Proof. intros w e. discriminate. Qed.

Lemma neverThrows_execText command args timeoutMs maxBuffer :
  neverThrows (execText command args timeoutMs maxBuffer).
Proof.
  intros w e. unfold execText.
  destruct (timeoutMs <? 0); [discriminate|].
  destruct (_ || _); [destruct (execOutput _)|]; discriminate.
Qed.

Lemma neverThrows_findFirstExecutable candidates :
  neverThrows (findFirstExecutable candidates).
Proof.
  induction candidates as [|c rest IH]; cbn [findFirstExecutable].
  - apply neverThrows_ret.
  - apply neverThrows_bind; [apply neverThrows_pathExists|].
    intros [|]; [apply neverThrows_ret | exact IH].
Qed.

Lemma neverThrows_firstInstalled candidates :
  neverThrows (firstInstalled candidates).
Proof.
  induction candidates as [|c rest IH]; cbn [firstInstalled].
  - apply neverThrows_ret.
  - apply neverThrows_bind; [apply neverThrows_pathExists|].
    intros [|]; [apply neverThrows_ret | exact IH].
Qed.

Lemma neverThrows_detectBundleId : neverThrows detectDefaultBrowserBundleIdMac.
Proof.
  unfold detectDefaultBrowserBundleIdMac.
  apply neverThrows_bind; [apply neverThrows_pathExists|].
  intros [|]; cbn [negb]; [|apply neverThrows_ret].
  apply neverThrows_bind; [apply neverThrows_execText|].
  intros [raw|]; [|apply neverThrows_ret].
  destruct (jsonParse host raw) as [[| | | |handlers|]|]; try apply neverThrows_ret.
  destruct (resolveScheme handlers "http"); apply neverThrows_ret.
Qed.

Lemma neverThrows_detect plat : neverThrows (detectDefaultChromiumExecutable plat).
Proof.
  destruct plat; cbn [detectDefaultChromiumExecutable]; try apply neverThrows_ret.
  - unfold detectDefaultChromiumExecutableMac.
    apply neverThrows_bind; [apply neverThrows_detectBundleId|].
    intros [bundleId|]; [|apply neverThrows_ret].
    destruct (_ || _); [apply neverThrows_ret|].
    apply neverThrows_bind; [apply neverThrows_execText|].
    intros [raw|]; [|apply neverThrows_ret].
    apply neverThrows_bind; [apply neverThrows_execText|].
    intros [nm|]; [|apply neverThrows_ret].
    apply neverThrows_bind; [apply neverThrows_pathExists|].
    intros [|]; apply neverThrows_ret.
  - apply neverThrows_firstInstalled.
Qed.

(** X3. A resolution only looks: it leaves the file system, the process
    table and the tracked session as they were, adds nothing to the trace
    but existence probes and helper runs, and the only error it can raise
    is "browser.executablePath not found", for a configured, non-empty path
    that does not exist. *)
Theorem resolve_only_looks resolved plat w :
  store (snd (resolveBrowserExecutableForPlatform resolved plat w)) = store w /\
  forallb resolutionEvent
    (newEvents w (snd (resolveBrowserExecutableForPlatform resolved plat w))) = true /\
  (forall e,
     fst (resolveBrowserExecutableForPlatform resolved plat w) = Thrown e ->
     exists p,
       executablePath resolved = Some p /\ p <> EmptyString /\
       fs w p = false /\ e = executablePathNotFound p).
Proof.
  split; [apply keeps_resolve|]. split.
  - destruct (emitsOnly_resolve resolutionEvent (fun _ => eq_refl)
                (fun _ _ => eq_refl) resolved plat w) as (evs & Htrace & Hok).
    now rewrite (newEvents_app _ _ _ Htrace).
  - intros e.
    assert (Hauto : neverThrows
              (detected <- detectDefaultChromiumExecutable plat ;;
               match detected with
               | Some e => ret (Some e)
               | None =>
                   match plat with
                   | darwin => findChromeExecutableMac
                   | linux => findChromeExecutableLinux
                   | win32 => findChromeExecutableWindows
                   | otherPlatform _ => ret None
                   end
               end)).
    { apply neverThrows_bind; [apply neverThrows_detect|].
      intros [d|]; [apply neverThrows_ret|].
      destruct plat; try apply neverThrows_ret; apply neverThrows_findFirstExecutable. }
    unfold resolveBrowserExecutableForPlatform.
    destruct (executablePath resolved) as [[|c rest]|] eqn:Hpath;
      [intros H; now destruct (Hauto w e) | | intros H; now destruct (Hauto w e)].
    unfold bind, pathExists.
    destruct (fs w (String c rest)) eqn:Hfs; cbn [negb fst throw]; [discriminate|].
    intros H. inversion H. exists (String c rest). repeat split; try discriminate.
    exact Hfs.
Qed.

(** X4. [findFirstExecutable] probes the candidates in list order and stops
    at the first whose path exists, which it returns; it returns null only
    after probing every candidate and finding none. *)
Theorem findFirstExecutable_stops_at_first candidates w :
  exists before rest,
    candidates = (before ++ rest)%list /\
    (forall c, In c before -> fs w (path c) = false) /\
    match rest with
    | [] =>
        fst (findFirstExecutable candidates w) = Returned None /\
        newEvents w (snd (findFirstExecutable candidates w))
        = map (fun c => EvExists (path c)) before
    | hit :: _ =>
        fs w (path hit) = true /\
        fst (findFirstExecutable candidates w) = Returned (Some hit) /\
        newEvents w (snd (findFirstExecutable candidates w))
        = map (fun c => EvExists (path c)) (before ++ [hit])
    end.
Proof.
  assert (Hgen : forall w0,
    fs w0 = fs w ->
    exists before rest,
      candidates = (before ++ rest)%list /\
      (forall c, In c before -> fs w (path c) = false) /\
      match rest with
      | [] =>
          fst (findFirstExecutable candidates w0) = Returned None /\
          trace (snd (findFirstExecutable candidates w0))
          = (trace w0 ++ map (fun c => EvExists (path c)) before)%list
      | hit :: _ =>
          fs w (path hit) = true /\
          fst (findFirstExecutable candidates w0) = Returned (Some hit) /\
          trace (snd (findFirstExecutable candidates w0))
          = (trace w0 ++ map (fun c => EvExists (path c)) (before ++ [hit]))%list
      end).
  { induction candidates as [|c cs IH]; intros w0 Hfs.
    - exists [], []. cbn. rewrite app_nil_r. repeat split. intros c [].
    - cbn [findFirstExecutable]. unfold bind, pathExists. rewrite Hfs.
      destruct (fs w (path c)) eqn:Hc.
      + exists [], (c :: cs). cbn. repeat split; try assumption. intros c0 [].
      + destruct (IH (log (EvExists (path c)) w0) Hfs)
          as (before & rest & Hsplit & Hnone & Hrest).
        exists (c :: before), rest. split; [cbn; now rewrite Hsplit|].
        split; [intros c0 [<-|Hin]; [exact Hc | now apply Hnone]|].
        destruct rest as [|hit rest'].
        * destruct Hrest as [Hres Htr]. split; [exact Hres|].
          rewrite Htr. cbn. now rewrite <- app_assoc.
        * destruct Hrest as (Hhit & Hres & Htr). split; [exact Hhit|].
          split; [exact Hres|]. rewrite Htr. cbn. now rewrite <- app_assoc. }
  destruct (Hgen w eq_refl) as (before & rest & Hsplit & Hnone & Hrest).
  exists before, rest. split; [exact Hsplit|]. split; [exact Hnone|].
  destruct rest as [|hit rest'].
  - destruct Hrest as [Hres Htr]. split; [exact Hres|]. now apply newEvents_app.
  - destruct Hrest as (Hhit & Hres & Htr). split; [exact Hhit|].
    split; [exact Hres|]. now apply newEvents_app.
Qed.

(** *** macOS default-browser detection *)

(** An entry assigns a role to a scheme only if it is an object whose
    [LSHandlerURLScheme] is that scheme; the role is then its
    [LSHandlerRoleAll] when that is a non-empty string, and otherwise its
    [LSHandlerRoleViewer] when that is one. *)
Lemma handlerRole_inv scheme entry role :
  handlerRole scheme entry = Some role ->
  role <> EmptyString /\
  exists record,
    entry = JObj record /\
    objGet record "LSHandlerURLScheme" = Some (JStr scheme) /\
    (objGet record "LSHandlerRoleAll" = Some (JStr role) \/
     (nonEmptyString (objGet record "LSHandlerRoleAll") = None /\
      objGet record "LSHandlerRoleViewer" = Some (JStr role))).
Proof.
  assert (Hne : forall v r, nonEmptyString v = Some r ->
                            v = Some (JStr r) /\ r <> EmptyString).
  { intros [[| | |s| |]|] r; cbn; try discriminate.
    destruct s; cbn; [discriminate|]. intros H. inversion H. now split. }
  destruct entry as [| | | | |record]; cbn; try discriminate.
  destruct (objGet record "LSHandlerURLScheme") as [[| | |s| |]|] eqn:Hs;
    try discriminate.
  destruct (String.eqb_spec s scheme) as [->|]; [|discriminate].
  destruct (nonEmptyString (objGet record "LSHandlerRoleAll")) as [r|] eqn:Hall.
  - intros H. inversion H; subst r. destruct (Hne _ _ Hall) as [Hv Hr].
    split; [exact Hr|]. exists record. repeat split; [exact Hs | now left].
  - intros Hview. destruct (Hne _ _ Hview) as [Hv Hr].
    split; [exact Hr|]. exists record. repeat split; [exact Hs | now right].
Qed.

(** X5. [resolveScheme] returns the role of the last handler entry that
    assigns one to the scheme (later entries override earlier ones), and
    null exactly when no entry assigns one.  The deciding entry is an
    object whose [LSHandlerURLScheme] is the scheme, and the role is a
    non-empty string: its [LSHandlerRoleAll], or else its
    [LSHandlerRoleViewer]. *)
Theorem resolveScheme_last_entry_wins handlers scheme :
  match resolveScheme handlers scheme with
  | Some role =>
      role <> EmptyString /\
      exists before record after,
        handlers = (before ++ JObj record :: after)%list /\
        objGet record "LSHandlerURLScheme" = Some (JStr scheme) /\
        (objGet record "LSHandlerRoleAll" = Some (JStr role) \/
         (nonEmptyString (objGet record "LSHandlerRoleAll") = None /\
          objGet record "LSHandlerRoleViewer" = Some (JStr role))) /\
        (forall later, In later after -> handlerRole scheme later = None)
  | None => forall entry, In entry handlers -> handlerRole scheme entry = None
  end.
Proof.
  assert (Hlast :
    match resolveScheme handlers scheme with
    | Some role =>
        exists before entry after,
          handlers = (before ++ entry :: after)%list /\
          handlerRole scheme entry = Some role /\
          (forall later, In later after -> handlerRole scheme later = None)
    | None => forall entry, In entry handlers -> handlerRole scheme entry = None
    end).
  { unfold resolveScheme.
    induction handlers as [|entry handlers IH] using rev_ind; [intros e []|].
    rewrite fold_left_app. cbn [fold_left].
    destruct (handlerRole scheme entry) as [role|] eqn:Hentry.
    - exists handlers, entry, []. repeat split; [exact Hentry | intros l []].
    - destruct (fold_left _ handlers None) as [role|].
      + destruct IH as (before & hit & after & Hsplit & Hhit & Hafter).
        exists before, hit, (after ++ [entry])%list.
        split; [rewrite Hsplit, <- app_assoc; reflexivity|].
        split; [exact Hhit|].
        intros later Hin. apply in_app_or in Hin.
        destruct Hin as [Hin|[<-|[]]]; [now apply Hafter | exact Hentry].
      + intros e Hin. apply in_app_or in Hin.
        destruct Hin as [Hin|[<-|[]]]; [now apply IH | exact Hentry]. }
  destruct (resolveScheme handlers scheme) as [role|]; [|exact Hlast].
  destruct Hlast as (before & entry & after & Hsplit & Hrole & Hafter).
  destruct (handlerRole_inv _ _ _ Hrole) as (Hne & record & -> & Hscheme & Hwhich).
  split; [exact Hne|]. exists before, record, after. now repeat split.
Qed.

(** X6. On macOS the detection yields an executable only for a default
    browser of the Chromium family: the bundle identifier found in the
    launch-services handlers is one of [CHROMIUM_BUNDLE_IDS], the kind is
    inferred from it, and the file exists.  With any other default browser
    the detection returns null without running a further helper. *)
Theorem mac_detection_needs_chromium_default w :
  (forall exe w',
     detectDefaultChromiumExecutableMac w = (Returned (Some exe), w') ->
     exists bundleId,
       fst (detectDefaultBrowserBundleIdMac w) = Returned (Some bundleId) /\
       has CHROMIUM_BUNDLE_IDS bundleId = true /\
       kind exe = inferKindFromIdentifier bundleId /\
       fs w (path exe) = true) /\
  (forall bundleId w1,
     detectDefaultBrowserBundleIdMac w = (Returned (Some bundleId), w1) ->
     has CHROMIUM_BUNDLE_IDS bundleId = false ->
     detectDefaultChromiumExecutableMac w = (Returned None, w1)).
Proof.
  split.
  - intros exe w' H. pose proof (detectMac_found _ _ _ H) as [Hfs _].
    revert H. unfold detectDefaultChromiumExecutableMac, bind.
    destruct (detectDefaultBrowserBundleIdMac w) as [[[bundleId|]|e0|] w1];
      [|discriminate|discriminate|discriminate].
    destruct (has CHROMIUM_BUNDLE_IDS bundleId) eqn:Hhas;
      [|rewrite orb_true_r; discriminate].
    destruct (negb (truthy bundleId) || negb true); [discriminate|].
    destruct (execText _ _ _ _ w1) as [[[raw|]|e1|] w2];
      [|discriminate|discriminate|discriminate].
    destruct (execText _ _ _ _ w2) as [[[nm|]|e2|] w3];
      [|discriminate|discriminate|discriminate].
    unfold pathExists. destruct (fs w3 _); [|discriminate].
    intros H. inversion H; subst. exists bundleId. now repeat split.
  - intros bundleId w1 Hid Hhas.
    unfold detectDefaultChromiumExecutableMac, bind. rewrite Hid, Hhas.
    now rewrite orb_true_r.
Qed.

(** *** Kind inference *)

Lemma substring_msedge_edge m s :
  substring m 6 s = "msedge" -> substring (m + 2) 4 s = "edge".
Proof.
  revert s. induction m as [|m IH]; intros s H.
  - destruct s as [|c1 [|c2 rest]]; cbn in H; try discriminate.
    inversion H. reflexivity.
  - destruct s as [|c rest]; [discriminate|]. cbn in *. now apply IH.
Qed.

Lemma includes_msedge_edge s : includes s "msedge" = true -> includes s "edge" = true.
Proof.
  unfold includes. destruct (String.index 0 "msedge" s) as [m|] eqn:Hm; [|discriminate].
  intros _. apply index_correct1 in Hm. apply substring_msedge_edge in Hm.
  destruct (String.index 0 "edge" s) eqn:He; [reflexivity|].
  exfalso. apply (index_correct3 0 (m + 2) _ _ He); [discriminate | lia | exact Hm].
Qed.

(** X7. The two kind inferences differ by two tokens only: on every name
    that contains neither "sxs" nor "thebrowser" (in any letter case) they
    give the same kind.  In particular the test for "msedge" adds nothing
    to the test for "edge". *)
Theorem kind_inferences_agree nm :
  includes (toLowerCase nm) "sxs" = false ->
  includes (toLowerCase nm) "thebrowser" = false ->
  inferKindFromExecutableName nm = inferKindFromIdentifier nm.
Proof.
  intros Hsxs Harc. unfold inferKindFromExecutableName, inferKindFromIdentifier.
  rewrite Hsxs, Harc. cbv zeta.
  pose proof (includes_msedge_edge (toLowerCase nm)) as Hedge.
  destruct (includes (toLowerCase nm) "brave"); [reflexivity|].
  destruct (includes (toLowerCase nm) "edge");
    [reflexivity|].
  destruct (includes (toLowerCase nm) "msedge"); [now discriminate Hedge|].
  cbn [orb].
  destruct (includes (toLowerCase nm) "chromium"); [reflexivity|].
  destruct (includes (toLowerCase nm) "canary"); [reflexivity|].
  now rewrite !orb_false_r.
Qed.

(** *** Helper programs and probes *)


(** What [fetchChromeVersion] returns for a request started at time [t]. *)
Definition versionSeen (url : string) (timeoutMs t : Z) : option JValue :=
  if Z.of_N (httpLatency (probeOutcome url t)) <? timeoutMs
  then versionOfReply (httpReply (probeOutcome url t))
  else None.

Lemma fetchChromeVersion_run url timeoutMs w :
  fetchChromeVersion url timeoutMs w =
  (Returned (versionSeen url timeoutMs (now w)),
   advance (probeSpan url timeoutMs (now w)) (log (EvHttpGet (versionUrlOf url)) w)).
Proof.
  unfold fetchChromeVersion, versionSeen, probeSpan, probeOutcome, versionUrlOf.
  destruct (_ <? _); reflexivity.
Qed.

Lemma reachableAt_versionSeen url timeoutMs t :
  reachableAt url timeoutMs t
  = match versionSeen url timeoutMs t with Some _ => true | None => false end.
Proof.
  unfold reachableAt, versionSeen. destruct (_ <? _); reflexivity.
Qed.


Lemma getChromeWebSocketUrl_run url timeoutMs w :
  getChromeWebSocketUrl url timeoutMs w =
  (Returned
     (if truthy (advertisedWsUrl (versionSeen url timeoutMs (now w)))
      then Some (normalizeCdpWsUrl host
                   (advertisedWsUrl (versionSeen url timeoutMs (now w))) url)
      else None),
   advance (probeSpan url timeoutMs (now w)) (log (EvHttpGet (versionUrlOf url)) w)).
Proof.
  unfold getChromeWebSocketUrl, bind. rewrite fetchChromeVersion_run.
  destruct (truthy _); reflexivity.
Qed.

(** The time a handshake started at [t] takes, and whether the socket opens
    before the code gives up. *)
Definition handshakeSpan (wsUrl : string) (timeoutMs t : Z) : Z :=
  match wsConnect host wsUrl (getHeadersWithAuth host wsUrl) timeoutMs t with
  | WsOpen latency | WsError latency =>
      if Z.of_N latency <? Z.max 50 (timeoutMs + 25)
      then Z.of_N latency
      else Z.max 50 (timeoutMs + 25)
  | WsSilent => Z.max 50 (timeoutMs + 25)
  | WsThrew _ => 0
  end.

Definition opensAt (wsUrl : string) (timeoutMs t : Z) : bool :=
  match wsConnect host wsUrl (getHeadersWithAuth host wsUrl) timeoutMs t with
  | WsOpen latency => Z.of_N latency <? Z.max 50 (timeoutMs + 25)
  | _ => false
  end.

Lemma canOpenWebSocket_run wsUrl timeoutMs w :
  canOpenWebSocket wsUrl timeoutMs w =
  match wsConnect host wsUrl (getHeadersWithAuth host wsUrl) timeoutMs (now w) with
  | WsThrew e => (Thrown e, w)
  | _ =>
      (Returned (opensAt wsUrl timeoutMs (now w)),
       advance (handshakeSpan wsUrl timeoutMs (now w)) (log (EvWsHandshake wsUrl) w))
  end.
Proof.
  unfold canOpenWebSocket, opensAt, handshakeSpan.
  destruct (wsConnect _ _ _ _ _) as [latency|latency| |e];
    try destruct (_ <? _); reflexivity.
Qed.

Lemma handshakeSpan_bounds wsUrl timeoutMs t :
  0 <= handshakeSpan wsUrl timeoutMs t <= Z.max 50 (timeoutMs + 25).
Proof.
  unfold handshakeSpan.
  destruct (wsConnect _ _ _ _ _) as [latency|latency| |e];
    try destruct (Z.ltb_spec (Z.of_N latency) (Z.max 50 (timeoutMs + 25))); lia.
Qed.


(** X11. The strict check implies the weak one: when [isChromeCdpReady]
    answers true, the endpoint was HTTP-reachable at the instant of the
    call (with the same timeout), its version object advertised a
    non-blank [webSocketDebuggerUrl], and the handshake was made on that
    URL as normalised against the base URL. *)
Theorem cdpReady_implies_reachable url timeoutMs handshakeTimeoutMs w :
  fst (isChromeCdpReady url timeoutMs handshakeTimeoutMs w) = Returned true ->
  reachableAt url timeoutMs (now w) = true /\
  exists fields advertised,
    versionSeen url timeoutMs (now w) = Some (JObj fields) /\
    objGet fields "webSocketDebuggerUrl" = Some advertised /\
    trim (jsString advertised) <> EmptyString /\
    newEvents w (snd (isChromeCdpReady url timeoutMs handshakeTimeoutMs w))
    = [EvHttpGet (versionUrlOf url);
       EvWsHandshake (normalizeCdpWsUrl host (trim (jsString advertised)) url)].
Proof.
  unfold isChromeCdpReady, bind. rewrite getChromeWebSocketUrl_run.
  rewrite reachableAt_versionSeen.
  destruct (versionSeen url timeoutMs (now w)) as [[| | | | |fields]|];
    unfold advertisedWsUrl; try discriminate.
  destruct (objGet fields "webSocketDebuggerUrl") as [advertised|] eqn:Hget;
    [|discriminate].
  destruct advertised as [|b|n|s|items|fs0];
    try discriminate;
    (destruct (trim (jsString _)) as [|c rest] eqn:Htrim; cbn [truthy];
     [discriminate|]);
    rewrite canOpenWebSocket_run;
    (destruct (wsConnect _ _ _ _ _) as [l|l| |e]; [| | |discriminate]); intros _;
    (split; [reflexivity|]);
    match goal with Hg : _ = Some ?a |- _ => exists fields, a end;
    (split; [reflexivity|]); (split; [exact Hget|]);
    rewrite Htrim; (split; [discriminate|]);
    apply newEvents_app; cbn [snd trace advance log];
    now rewrite <- app_assoc.
Qed.

(** X12. An endpoint that answers [/json/version] without a usable
    [webSocketDebuggerUrl] (absent, [null], empty or blank) is never
    CDP-ready: [isChromeCdpReady] answers false after the one HTTP request,
    without attempting a handshake, whatever the socket would do. *)
Theorem cdpReady_needs_advertised_url url timeoutMs handshakeTimeoutMs w :
  advertisedWsUrl (versionSeen url timeoutMs (now w)) = EmptyString ->
  isChromeCdpReady url timeoutMs handshakeTimeoutMs w =
  (Returned false,
   advance (probeSpan url timeoutMs (now w)) (log (EvHttpGet (versionUrlOf url)) w)).
Proof.
  intros Hblank. unfold isChromeCdpReady, bind.
  now rewrite getChromeWebSocketUrl_run, Hblank.
Qed.

(** X13. [isChromeCdpReady] lasts at most the HTTP timeout plus
    [max(50, handshakeTimeoutMs + 25)] ms; with the default timeouts of 500
    and 800 ms that is 1325 ms.  It changes nothing but the clock and the
    trace.  It answers, unless the endpoint advertises a WebSocket URL that
    the [WebSocket] constructor refuses: it then raises the constructor's
    error right after the HTTP request, without a handshake. *)
Theorem cdpReady_bounded url timeoutMs handshakeTimeoutMs w :
  exists w',
    snd (isChromeCdpReady url timeoutMs handshakeTimeoutMs w) = w' /\
    store w' = store w /\
    now w <= now w'
    <= now w + Z.max 0 timeoutMs + Z.max 50 (handshakeTimeoutMs + 25) /\
    ((exists ready,
        fst (isChromeCdpReady url timeoutMs handshakeTimeoutMs w) = Returned ready) \/
     (exists e,
        fst (isChromeCdpReady url timeoutMs handshakeTimeoutMs w) = Thrown e /\
        advertisedWsUrl (versionSeen url timeoutMs (now w)) <> EmptyString /\
        (let wsUrl :=
           normalizeCdpWsUrl host (advertisedWsUrl (versionSeen url timeoutMs (now w)))
             url in
         wsConnect host wsUrl (getHeadersWithAuth host wsUrl) handshakeTimeoutMs
           (now w + probeSpan url timeoutMs (now w)) = WsThrew e) /\
        newEvents w w' = [EvHttpGet (versionUrlOf url)])).
Proof.
  unfold isChromeCdpReady, bind. rewrite getChromeWebSocketUrl_run.
  pose proof (probeSpan_bounds url timeoutMs (now w)) as Hspan.
  destruct (advertisedWsUrl (versionSeen url timeoutMs (now w))) as [|c rest] eqn:Hadv;
    cbn [truthy].
  - eexists. split; [reflexivity|]. split; [reflexivity|].
    split; [cbn [snd now advance log ret]; lia|]. left. now eexists.
  - rewrite canOpenWebSocket_run.
    match goal with |- context [handshakeSpan ?u ?t ?n] =>
      pose proof (handshakeSpan_bounds u t n) as Hhs end.
    cbn [now advance log] in *.
    destruct (wsConnect _ _ _ _ _) as [l|l| |e] eqn:Hws;
      (eexists; split; [reflexivity|]; split; [reflexivity|];
       split; [cbn [snd now advance log]; lia|]);
      try (left; now eexists).
    right. exists e. split; [reflexivity|]. split; [discriminate|].
    split; [reflexivity|]. now apply newEvents_app.
Qed.

(** *** Shutdown, path by path *)

(** The shutdown loop only probes; it leaves within one turn (a probe of at
    most 200 ms and a sleep of 100 ms) of the timeout; it takes the [break]
    only on the exit-code test or at the timeout, and the [return] only
    after a probe that failed. *)
Lemma shutdownLoop_spec running start timeoutMs w :
  exists flow n w',
    shutdownLoop running start timeoutMs w = (Returned flow, w') /\
    trace w'
    = (trace w
       ++ repeat (EvHttpGet (versionUrlOf (cdpUrlForPort (runningPort running)))) n)%list /\
    store w' = store w /\
    now w <= now w' <= Z.max (now w) (start + timeoutMs + 299) /\
    match flow with
    | Continue => False
    | Return =>
        exists t, now w <= t <= now w' /\
                  reachableAt (cdpUrlForPort (runningPort running)) 200 t = false
    | Break =>
        start + timeoutMs <= now w' \/
        noExitCode (exitCodeAt host (proc running) (now w'))
        && killed w' (proc running) = true
    end /\
    (killed w (proc running) = false ->
     (forall t, now w <= t ->
                reachableAt (cdpUrlForPort (runningPort running)) 200 t = true) ->
     flow = Break /\ Z.max (now w) (start + timeoutMs) <= now w').
Proof.
  remember (Z.to_nat (start + timeoutMs - now w)) as k eqn:Hk.
  revert w Hk. induction k as [k IH] using lt_wf_ind. intros w Hk.
  rewrite shutdownLoop_step.
  destruct (Z.ltb_spec (now w - start) timeoutMs) as [Hlt|Hge].
  - rewrite shutdownTurn_run.
    destruct (noExitCode _ && killed w (proc running)) eqn:Hbreak.
    + exists Break, 0%nat, w. cbn [repeat]. rewrite app_nil_r.
      split; [reflexivity|]. split; [reflexivity|]. split; [reflexivity|].
      split; [lia|]. split; [now right|].
      intros Hlive _. rewrite Hlive, andb_false_r in Hbreak. discriminate.
    + cbv zeta.
      pose proof (probeSpan_bounds (cdpUrlForPort (runningPort running)) 200 (now w))
        as Hspan.
      destruct (reachableAt _ 200 (now w)) eqn:Hup.
      * set (w1 := advance 100 _).
        assert (Hnow : now w1
                       = now w + probeSpan (cdpUrlForPort (runningPort running)) 200
                                   (now w) + 100) by (unfold w1; reflexivity).
        destruct (IH (Z.to_nat (start + timeoutMs - now w1))) with (w := w1)
          as (flow & n & w' & Hrun & Htrace & Hstore & Hclock & Hflow & Hpoll);
          [lia | reflexivity |].
        exists flow, (S n), w'. split; [exact Hrun|].
        split; [rewrite Htrace; unfold w1; cbn; now rewrite <- app_assoc|].
        split; [rewrite Hstore; reflexivity|]. split; [lia|]. split.
        -- destruct flow; [exact Hflow | exact Hflow |].
           destruct Hflow as (t & Ht & Hdown). exists t. split; [lia | exact Hdown].
        -- intros Hlive Halways.
           destruct Hpoll as [Hb Hd]; [exact Hlive | intros t Ht; apply Halways; lia|].
           split; [exact Hb | lia].
      * eexists Return, 1%nat, _. split; [reflexivity|].
        split; [reflexivity|]. split; [reflexivity|].
        split; [cbn [now advance log]; lia|]. split.
        -- exists (now w). split; [cbn [now advance log]; lia | exact Hup].
        -- intros _ Halways. rewrite Halways in Hup by lia. discriminate.
  - exists Break, 0%nat, w. cbn [repeat]. rewrite app_nil_r.
    split; [reflexivity|]. split; [reflexivity|]. split; [reflexivity|].
    split; [lia|]. split; [left; lia|]. intros _ _. split; [reflexivity | lia].
Qed.

(** What [tryKill] does to the world. *)
(** A stop on a handle that was not signalled yet: the SIGTERM, the loop,
    and the SIGKILL unless the loop returned. *)
Lemma stopClawdChrome_run running timeoutMs w :
  killed w (proc running) = false ->
  exists w1 flow n w2,
    tryKill (proc running) SIGTERM w = (Returned tt, w1) /\
    shutdownLoop running (now w) timeoutMs w1 = (Returned flow, w2) /\
    trace w2
    = (trace w ++ [EvKill (proc running) SIGTERM]
       ++ repeat (EvHttpGet (versionUrlOf (cdpUrlForPort (runningPort running)))) n)%list /\
    stopClawdChrome running timeoutMs w
    = match flow with
      | Return => (Returned tt, w2)
      | _ => tryKill (proc running) SIGKILL w2
      end.
Proof.
  intros Hlive.
  destruct (tryKill_effect (proc running) SIGTERM w)
    as (w1 & Hterm & Htr1 & Hnow1 & _).
  destruct (shutdownLoop_spec running (now w) timeoutMs w1)
    as (flow & n & w2 & Hloop & Htr2 & _).
  exists w1, flow, n, w2. split; [exact Hterm|]. split; [exact Hloop|].
  split; [rewrite Htr2, Htr1, <- app_assoc; reflexivity|].
  unfold stopClawdChrome, bind, dateNow, ask. cbv beta iota zeta.
  rewrite Hlive, Hterm. cbv beta iota. rewrite Hnow1, Hloop.
  destruct flow; reflexivity.
Qed.

(** X14. Stopping is idempotent on the handle: a stop on a handle whose
    [killed] flag is set returns at once and changes nothing, and a stop in
    which the SIGTERM was delivered sets that flag, so that a second stop
    of the same session is such a no-op. *)
Theorem stop_twice_is_stop_once running timeoutMs timeoutMs' w :
  (killed w (proc running) = true ->
   stopClawdChrome running timeoutMs w = (Returned tt, w)) /\
  (killOutcome host (proc running) SIGTERM (now w) = Delivered ->
   stopClawdChrome running timeoutMs'
     (snd (stopClawdChrome running timeoutMs w))
   = (Returned tt, snd (stopClawdChrome running timeoutMs w))).
Proof.
  assert (Hnoop : forall t w0, killed w0 (proc running) = true ->
                               stopClawdChrome running t w0 = (Returned tt, w0)).
  { intros t w0 H. unfold stopClawdChrome, bind, ask. cbv beta iota zeta.
    now rewrite H. }
  split; [apply Hnoop|].
  intros Hdelivered. apply Hnoop.
  destruct (killed w (proc running)) eqn:Hlive; [now rewrite Hnoop|].
  destruct (stopClawdChrome_run running timeoutMs w Hlive)
    as (w1 & flow & n & w2 & Hterm & Hloop & _ & Hstop).
  destruct (tryKill_effect (proc running) SIGTERM w)
    as (w1' & Hterm' & _ & _ & _ & _ & _ & _ & _ & Hset & _).
  rewrite Hterm in Hterm'. inversion Hterm'; subst w1'.
  specialize (Hset Hdelivered).
  destruct (shutdownLoop_spec running (now w) timeoutMs w1)
    as (flow' & n' & w2' & Hloop' & _ & Hstore & _).
  rewrite Hloop in Hloop'. inversion Hloop'; subst flow' w2'.
  apply store_parts in Hstore. destruct Hstore as (_ & Hkilled & _).
  assert (Hk2 : killed w2 (proc running) = true) by now rewrite Hkilled.
  rewrite Hstop.
  destruct (tryKill_effect (proc running) SIGKILL w2)
    as (w3 & Hkill & _ & _ & _ & _ & _ & Hmono & _).
  destruct flow; rewrite ?Hkill; cbn [snd]; auto.
Qed.

(** X15. [stopClawdChrome] never raises and is bounded: with a timeout
    [timeoutMs >= 0] it returns no later than [timeoutMs + 299] ms after
    the call.  It touches neither the file system nor the process table nor
    the tracked session; the only handle whose [killed] flag can change is
    the session's; and what it adds to the trace is nothing at all, or the
    SIGTERM, then probes of the session's endpoint, then at most one
    SIGKILL, both signals to the session's process. *)
Theorem stop_bounded running timeoutMs w :
  0 <= timeoutMs ->
  exists w' n closing,
    stopClawdChrome running timeoutMs w = (Returned tt, w') /\
    now w <= now w' <= now w + timeoutMs + 299 /\
    fs w' = fs w /\ spawned w' = spawned w /\ activeBrowser w' = activeBrowser w /\
    (forall q, q <> proc running -> killed w' q = killed w q) /\
    (newEvents w w' = [] \/
     newEvents w w'
     = ([EvKill (proc running) SIGTERM]
        ++ repeat (EvHttpGet (versionUrlOf (cdpUrlForPort (runningPort running)))) n
        ++ closing)%list /\
     (closing = [] \/ closing = [EvKill (proc running) SIGKILL])).
Proof.
  intros Htimeout.
  destruct (killed w (proc running)) eqn:Hlive.
  - exists w, 0%nat, []. unfold stopClawdChrome, bind, ask. cbv beta iota zeta.
    rewrite Hlive. split; [reflexivity|]. split; [lia|].
    repeat (split; [reflexivity|]). left. apply newEvents_app.
    now rewrite app_nil_r.
  - destruct (stopClawdChrome_run running timeoutMs w Hlive)
      as (w1 & flow & n & w2 & Hterm & Hloop & Htrace & Hstop).
    destruct (tryKill_effect (proc running) SIGTERM w)
      as (w1' & Hterm' & _ & Hnow1 & Hfs1 & Hsp1 & Hact1 & _ & Hother1 & _).
    rewrite Hterm in Hterm'. inversion Hterm'; subst w1'.
    destruct (shutdownLoop_spec running (now w) timeoutMs w1)
      as (flow' & n' & w2' & Hloop' & _ & Hstore & Hclock & Hflow & _).
    rewrite Hloop in Hloop'. inversion Hloop'; subst flow' w2'.
    apply store_parts in Hstore. destruct Hstore as (Hfs2 & Hk2 & Hsp2 & Hact2).
    destruct (tryKill_effect (proc running) SIGKILL w2)
      as (w3 & Hkill & Htr3 & Hnow3 & Hfs3 & Hsp3 & Hact3 & _ & Hother3 & _).
    assert (Hfinal :
      forall wf closing,
        stopClawdChrome running timeoutMs w = (Returned tt, wf) ->
        now wf = now w2 -> fs wf = fs w2 -> spawned wf = spawned w2 ->
        activeBrowser wf = activeBrowser w2 ->
        (forall q, q <> proc running -> killed wf q = killed w2 q) ->
        trace wf = (trace w2 ++ closing)%list ->
        (closing = [] \/ closing = [EvKill (proc running) SIGKILL]) ->
        exists w' n closing,
          stopClawdChrome running timeoutMs w = (Returned tt, w') /\
          now w <= now w' <= now w + timeoutMs + 299 /\
          fs w' = fs w /\ spawned w' = spawned w /\
          activeBrowser w' = activeBrowser w /\
          (forall q, q <> proc running -> killed w' q = killed w q) /\
          (newEvents w w' = [] \/
           newEvents w w'
           = ([EvKill (proc running) SIGTERM]
              ++ repeat (EvHttpGet (versionUrlOf (cdpUrlForPort (runningPort running)))) n
              ++ closing)%list /\
           (closing = [] \/ closing = [EvKill (proc running) SIGKILL]))).
    { intros wf closing Hrun Hn Hf Hs Ha Hk Ht Hc.
      exists wf, n, closing. split; [exact Hrun|]. split; [lia|].
      split; [congruence|]. split; [congruence|]. split; [congruence|].
      split; [intros q Hq; rewrite Hk, Hk2 by exact Hq; now apply Hother1|].
      right. split; [|exact Hc]. apply newEvents_app.
      rewrite Ht, Htrace, <- !app_assoc. reflexivity. }
    destruct flow.
    + destruct Hflow.
    + rewrite Hkill in Hstop. apply (Hfinal w3 [EvKill (proc running) SIGKILL]);
        auto.
    + apply (Hfinal w2 []); auto. now rewrite app_nil_r.
Qed.

(** X16. The escalation after the timeout happens when the SIGTERM could
    not be delivered ([kill] returned false or threw, so [killed] stays
    unset) while the endpoint keeps answering: the loop then polls until
    the timeout has elapsed and the SIGKILL is sent, no earlier than
    [timeoutMs] and no later than [timeoutMs + 299] ms after the call. *)
Theorem stop_escalates_after_timeout running timeoutMs w :
  0 <= timeoutMs ->
  killed w (proc running) = false ->
  killOutcome host (proc running) SIGTERM (now w) <> Delivered ->
  (forall t, now w <= t ->
             reachableAt (cdpUrlForPort (runningPort running)) 200 t = true) ->
  exists w' n,
    stopClawdChrome running timeoutMs w = (Returned tt, w') /\
    newEvents w w'
    = ([EvKill (proc running) SIGTERM]
       ++ repeat (EvHttpGet (versionUrlOf (cdpUrlForPort (runningPort running)))) n
       ++ [EvKill (proc running) SIGKILL])%list /\
    now w + timeoutMs <= now w' <= now w + timeoutMs + 299.
Proof.
  intros Htimeout Hlive Hfail Halways.
  destruct (stopClawdChrome_run running timeoutMs w Hlive)
    as (w1 & flow & n & w2 & Hterm & Hloop & Htrace & Hstop).
  destruct (tryKill_effect (proc running) SIGTERM w)
    as (w1' & Hterm' & _ & Hnow1 & _ & _ & _ & _ & _ & _ & Hsame).
  rewrite Hterm in Hterm'. inversion Hterm'; subst w1'.
  specialize (Hsame Hfail).
  destruct (shutdownLoop_spec running (now w) timeoutMs w1)
    as (flow' & n' & w2' & Hloop' & _ & _ & Hclock & _ & Hpoll).
  rewrite Hloop in Hloop'. inversion Hloop'; subst flow' w2'.
  destruct Hpoll as [Hbreak Hdead];
    [now rewrite Hsame | intros t Ht; apply Halways; lia|].
  subst flow.
  destruct (tryKill_effect (proc running) SIGKILL w2)
    as (w3 & Hkill & Htr3 & Hnow3 & _).
  rewrite Hkill in Hstop. exists w3, n. split; [exact Hstop|]. split; [|lia].
  apply newEvents_app. rewrite Htr3, Htrace, <- !app_assoc. reflexivity.
Qed.

(** X17. When the browser is already gone (the SIGTERM is not delivered and
    the endpoint does not answer), a stop with a positive timeout ends
    after its first probe, within 200 ms, and sends no SIGKILL. *)
Theorem stop_of_dead_browser running timeoutMs w :
  0 < timeoutMs ->
  killed w (proc running) = false ->
  killOutcome host (proc running) SIGTERM (now w) <> Delivered ->
  reachableAt (cdpUrlForPort (runningPort running)) 200 (now w) = false ->
  exists w',
    stopClawdChrome running timeoutMs w = (Returned tt, w') /\
    newEvents w w'
    = [EvKill (proc running) SIGTERM;
       EvHttpGet (versionUrlOf (cdpUrlForPort (runningPort running)))] /\
    now w <= now w' <= now w + 200 /\
    killed w' = killed w.
Proof.
  intros Htimeout Hlive Hfail Hdown.
  destruct (tryKill_effect (proc running) SIGTERM w)
    as (w1 & Hterm & Htr1 & Hnow1 & _ & _ & _ & _ & _ & _ & Hsame).
  specialize (Hsame Hfail).
  unfold stopClawdChrome, bind, dateNow, ask. cbv beta iota zeta.
  rewrite Hlive, Hterm. cbv beta iota. rewrite shutdownLoop_step.
  destruct (Z.ltb_spec (now w1 - now w1) timeoutMs) as [_|Hge]; [|lia].
  rewrite shutdownTurn_run, Hsame, Hlive, andb_false_r. cbv zeta.
  rewrite Hnow1, Hdown. cbv beta iota.
  pose proof (probeSpan_bounds (cdpUrlForPort (runningPort running)) 200 (now w))
    as Hspan.
  eexists. split; [reflexivity|]. split.
  - apply newEvents_app. cbn [trace advance log]. now rewrite Htr1, <- app_assoc.
  - split; [cbn [now advance log]; lia | exact Hsame].
Qed.

(** *** Launch, path by path *)

(** X18. When the directory can be created, the child is started and the
    endpoint answers from the spawn on, a launch takes the short path: one
    probe in the loop, one after it, the log line, and the session is
    returned less than a second after the spawn.  No signal is sent. *)
Theorem launch_of_ready_browser resolved profile w exe wr pid :
  cdpIsLoopback profile = true ->
  resolveBrowserExecutable resolved w = (Returned (Some exe), wr) ->
  mkdirFault host (dataDirOf profile) (now wr) = None ->
  spawnFault host (path exe) (chromeArgs resolved profile (dataDirOf profile)) (now wr)
  = None ->
  spawnPid host (spawned wr) = Some pid ->
  (forall t, now wr <= t -> reachableAt (cdpUrl profile) 500 t = true) ->
  exists w',
    launchClawdChrome resolved profile w
    = (Returned (mkRunning pid exe (dataDirOf profile) (cdpPort profile) (now wr)
                   (spawned wr)),
       w') /\
    newEvents wr w'
    = [EvMkdir (dataDirOf profile);
       EvSpawn (spawned wr) (path exe)
         (chromeArgs resolved profile (dataDirOf profile)) (homedir host);
       EvHttpGet (versionUrlOf (cdpUrl profile));
       EvHttpGet (versionUrlOf (cdpUrl profile));
       EvLog (startedLine profile exe (spawned wr))] /\
    now wr <= now w' <= now wr + 998.
Proof.
  intros Hloop Hres Hmk Hsp Hpid Hup.
  destruct (launch_started _ _ _ _ _ _ Hloop Hres Hmk Hsp Hpid)
    as (n & wl & w' & Hwait & Htrl & Hmono & _ & Hrun & Htrace & Hnow & _).
  destruct (waitForCdp_spec (cdpUrl profile) (now wr + 15000)
              (spawnedWorld resolved profile exe wr))
    as (n' & wl' & Hwait' & Htrl' & _ & _ & _ & Hfirst & _).
  rewrite Hwait in Hwait'. inversion Hwait'; subst wl'.
  change (now (spawnedWorld resolved profile exe wr)) with (now wr) in Hfirst.
  destruct Hfirst as [Hn Hwl]; [lia | apply Hup; lia |].
  assert (Hspan : forall t, now wr <= t -> 0 <= probeSpan (cdpUrl profile) 500 t <= 499).
  { intros t Ht. specialize (Hup t Ht). unfold reachableAt in Hup.
    unfold probeSpan.
    destruct (Z.ltb_spec (Z.of_N (httpLatency (probeOutcome (cdpUrl profile) t))) 500);
      [lia | discriminate]. }
  assert (Hnowl : now wl = now wr + probeSpan (cdpUrl profile) 500 (now wr))
    by (rewrite Hwl; reflexivity).
  pose proof (Hspan (now wr) ltac:(lia)) as H1.
  pose proof (Hspan (now wl) ltac:(lia)) as H2.
  rewrite (Hup (now wl) Hmono) in Hrun, Htrace.
  exists w'. split; [exact Hrun|]. split; [|lia].
  apply newEvents_app. rewrite Htrace, Hwl. unfold spawnedWorld.
  cbn [trace log advance createDir]. now rewrite <- !app_assoc.
Qed.

(** X19. When the directory can be created, the child is started, and
    reachability is lasting (an endpoint that answers keeps answering) and
    sets in no later than the readiness deadline, 15 s after the spawn, the
    launch succeeds: it returns the session with the spawned process, and
    after the spawn it only probes and logs; no SIGKILL is sent. *)
Theorem launch_succeeds_if_up_by_deadline resolved profile w exe wr pid upAt :
  cdpIsLoopback profile = true ->
  resolveBrowserExecutable resolved w = (Returned (Some exe), wr) ->
  mkdirFault host (dataDirOf profile) (now wr) = None ->
  spawnFault host (path exe) (chromeArgs resolved profile (dataDirOf profile)) (now wr)
  = None ->
  spawnPid host (spawned wr) = Some pid ->
  (forall t t', t <= t' ->
     reachableAt (cdpUrl profile) 500 t = true ->
     reachableAt (cdpUrl profile) 500 t' = true) ->
  upAt <= now wr + 15000 ->
  reachableAt (cdpUrl profile) 500 upAt = true ->
  exists n w',
    launchClawdChrome resolved profile w
    = (Returned (mkRunning pid exe (dataDirOf profile) (cdpPort profile) (now wr)
                   (spawned wr)),
       w') /\
    newEvents wr w'
    = ([EvMkdir (dataDirOf profile);
        EvSpawn (spawned wr) (path exe)
          (chromeArgs resolved profile (dataDirOf profile)) (homedir host)]
       ++ repeat (EvHttpGet (versionUrlOf (cdpUrl profile))) (S n)
       ++ [EvLog (startedLine profile exe (spawned wr))])%list.
Proof.
  intros Hloop Hres Hmk Hsp Hpid Hlasting Hby Hup.
  destruct (launch_started _ _ _ _ _ _ Hloop Hres Hmk Hsp Hpid)
    as (n & wl & w' & Hwait & Htrl & Hmono & _ & Hrun & Htrace & _).
  destruct (waitForCdp_spec (cdpUrl profile) (now wr + 15000)
              (spawnedWorld resolved profile exe wr))
    as (n' & wl' & Hwait' & _ & _ & _ & Hexit & _).
  rewrite Hwait in Hwait'. inversion Hwait'; subst wl'.
  change (now (spawnedWorld resolved profile exe wr)) with (now wr) in Hexit.
  assert (Hfinal : reachableAt (cdpUrl profile) 500 (now wl) = true).
  { destruct Hexit as [Hd|(t & Ht & Hr)].
    - apply (Hlasting upAt); [lia | exact Hup].
    - apply (Hlasting t); [lia | exact Hr]. }
  rewrite Hfinal in Hrun, Htrace.
  exists n, w'. split; [exact Hrun|].
  apply newEvents_app. rewrite Htrace, Htrl, <- !app_assoc. cbn [app].
  do 3 f_equal. apply repeat_snoc.
Qed.

(** What a launch can change besides the clock, the trace and the file
    system: it creates at most one process handle, and no flag of an older
    handle moves. *)
Lemma launch_frame resolved profile w :
  activeBrowser (snd (launchClawdChrome resolved profile w)) = activeBrowser w /\
  (spawned (snd (launchClawdChrome resolved profile w)) = spawned w \/
   spawned (snd (launchClawdChrome resolved profile w)) = S (spawned w)) /\
  (forall q, q <> spawned w ->
     killed (snd (launchClawdChrome resolved profile w)) q = killed w q).
Proof.
  destruct (cdpIsLoopback profile) eqn:Hloop.
  - pose proof (launch_cases resolved profile w Hloop) as Hcases.
    pose proof (keeps_resolve resolved (platform host) w) as Hkeep.
    fold (resolveBrowserExecutable resolved) in Hkeep.
    destruct (resolveBrowserExecutable resolved w) as [[[exe|]|e|] wr] eqn:Hres;
      cbn [snd] in Hkeep; apply store_parts in Hkeep;
      destruct Hkeep as (Hfs & Hk & Hsp & Hact).
    + destruct (launch_paths resolved profile w exe wr Hloop Hres)
        as (_ & _ & _ & _ & _ & Hact' & Hsp' & Hk').
      rewrite Hact', Hact. rewrite Hsp in Hsp', Hk'.
      split; [reflexivity|]. split; [exact Hsp'|].
      intros q Hq. rewrite (Hk' q Hq). now rewrite Hk.
    + rewrite Hcases. cbn [snd]. split; [exact Hact|]. split; [now left|].
      intros q _. now rewrite Hk.
    + rewrite Hcases. cbn [snd]. split; [exact Hact|]. split; [now left|].
      intros q _. now rewrite Hk.
    + rewrite Hcases. cbn [snd]. split; [exact Hact|]. split; [now left|].
      intros q _. now rewrite Hk.
  - unfold launchClawdChrome. rewrite Hloop. cbn [negb snd throw].
    split; [reflexivity|]. split; [now left | reflexivity].
Qed.

(** Every signal a launch sends is a SIGKILL to the handle it created. *)
Lemma launch_signals resolved profile w q s :
  In (EvKill q s) (newEvents w (snd (launchClawdChrome resolved profile w))) ->
  q = spawned w /\ s = SIGKILL.
Proof.
  intros Hin. exact (proj1 (proj2 (launch_event_kinds _ _ _ _ Hin)) q s eq_refl).
Qed.

(** X20. A launch minds its own process only: it never changes the tracked
    session, it creates at most one process handle, it leaves the [killed]
    flag of every older handle alone, and the only signal it ever sends is
    a SIGKILL to the handle it has just created. *)
Theorem launch_minds_its_own_process resolved profile w :
  activeBrowser (snd (launchClawdChrome resolved profile w)) = activeBrowser w /\
  (spawned (snd (launchClawdChrome resolved profile w)) = spawned w \/
   spawned (snd (launchClawdChrome resolved profile w)) = S (spawned w)) /\
  (forall q, q <> spawned w ->
     killed (snd (launchClawdChrome resolved profile w)) q = killed w q) /\
  (forall q s,
     In (EvKill q s) (newEvents w (snd (launchClawdChrome resolved profile w))) ->
     q = spawned w /\ s = SIGKILL).
Proof.
  destruct (launch_frame resolved profile w) as (Hact & Hsp & Hk).
  split; [exact Hact|]. split; [exact Hsp|]. split; [exact Hk|].
  apply launch_signals.
Qed.

(** *** The session registry *)

(** The session that a launch returns holds the port of the profile and the
    handle that the launch created. *)
Lemma launch_session resolved profile w running w' :
  launchClawdChrome resolved profile w = (Returned running, w') ->
  runningPort running = cdpPort profile /\ proc running = spawned w.
Proof.
  intros Hrun.
  destruct (launch_returned _ _ _ _ _ Hrun) as (Hloop & exe & wr & pid & Hres & _).
  pose proof (keeps_resolve resolved (platform host) w) as Hkeep.
  fold (resolveBrowserExecutable resolved) in Hkeep. rewrite Hres in Hkeep.
  cbn [snd] in Hkeep. apply store_parts in Hkeep. destruct Hkeep as (_ & _ & Hsp & _).
  destruct (launch_paths resolved profile w exe wr Hloop Hres)
    as (_ & _ & _ & _ & Hret & _).
  rewrite Hrun in Hret. specialize (Hret running eq_refl). now rewrite <- Hsp.
Qed.

(** A computation that the process survives. *)
Definition neverDies {A : Type} (m : M A) : Prop :=
  forall w, fst (m w) <> Died.

Lemma neverDies_ret {A} (a : A) : neverDies (ret a).
Proof. intros w. discriminate. Qed.

Lemma neverDies_throw {A} e : neverDies (@throw A e).
Proof. intros w. discriminate. Qed.

Lemma neverDies_bind {A B} (m : M A) (k : A -> M B) :
  neverDies m -> (forall a, neverDies (k a)) -> neverDies (bind m k).
Proof.
  intros Hm Hk w. unfold bind. specialize (Hm w).
  destruct (m w) as [[a|e0|] w1]; cbn [fst] in *;
    [apply Hk | discriminate | now destruct Hm].
Qed.

Lemma neverDies_pathExists p : neverDies (pathExists p).
Proof. intros w. discriminate. Qed.

Lemma neverDies_execText command args timeoutMs maxBuffer :
  neverDies (execText command args timeoutMs maxBuffer).
Proof.
  intros w. unfold execText.
  destruct (timeoutMs <? 0); [discriminate|].
  destruct (_ || _); [destruct (execOutput _)|]; discriminate.
Qed.

Lemma neverDies_findFirstExecutable candidates :
  neverDies (findFirstExecutable candidates).
Proof.
  induction candidates as [|c rest IH]; cbn [findFirstExecutable].
  - apply neverDies_ret.
  - apply neverDies_bind; [apply neverDies_pathExists|].
    intros [|]; [apply neverDies_ret | exact IH].
Qed.

Lemma neverDies_firstInstalled candidates :
  neverDies (firstInstalled candidates).
Proof.
  induction candidates as [|c rest IH]; cbn [firstInstalled].
  - apply neverDies_ret.
  - apply neverDies_bind; [apply neverDies_pathExists|].
    intros [|]; [apply neverDies_ret | exact IH].
Qed.

Lemma neverDies_detect plat : neverDies (detectDefaultChromiumExecutable plat).
Proof.
  destruct plat; cbn [detectDefaultChromiumExecutable]; try apply neverDies_ret.
  - unfold detectDefaultChromiumExecutableMac.
    apply neverDies_bind.
    { unfold detectDefaultBrowserBundleIdMac.
      apply neverDies_bind; [apply neverDies_pathExists|].
      intros [|]; cbn [negb]; [|apply neverDies_ret].
      apply neverDies_bind; [apply neverDies_execText|].
      intros [raw|]; [|apply neverDies_ret].
      destruct (jsonParse host raw) as [[| | | |handlers|]|]; try apply neverDies_ret.
      destruct (resolveScheme handlers "http"); apply neverDies_ret. }
    intros [bundleId|]; [|apply neverDies_ret].
    destruct (_ || _); [apply neverDies_ret|].
    apply neverDies_bind; [apply neverDies_execText|].
    intros [raw|]; [|apply neverDies_ret].
    apply neverDies_bind; [apply neverDies_execText|].
    intros [nm|]; [|apply neverDies_ret].
    apply neverDies_bind; [apply neverDies_pathExists|].
    intros [|]; apply neverDies_ret.
  - apply neverDies_firstInstalled.
Qed.

Lemma neverDies_resolve resolved plat :
  neverDies (resolveBrowserExecutableForPlatform resolved plat).
Proof.
  assert (Hauto : neverDies
            (detected <- detectDefaultChromiumExecutable plat ;;
             match detected with
             | Some e => ret (Some e)
             | None =>
                 match plat with
                 | darwin => findChromeExecutableMac
                 | linux => findChromeExecutableLinux
                 | win32 => findChromeExecutableWindows
                 | otherPlatform _ => ret None
                 end
             end)).
  { apply neverDies_bind; [apply neverDies_detect|].
    intros [d|]; [apply neverDies_ret|].
    destruct plat; try apply neverDies_ret; apply neverDies_findFirstExecutable. }
  unfold resolveBrowserExecutableForPlatform.
  destruct (executablePath resolved) as [[|c rest]|]; try exact Hauto.
  apply neverDies_bind; [apply neverDies_pathExists|].
  intros [|]; cbn [negb]; [apply neverDies_ret | apply neverDies_throw].
Qed.

(** The process dies in a launch on one path only: an executable is
    resolved, the directory is created, [spawn] returns a handle, but the
    operating system could not start the child. *)
Lemma launch_died resolved profile w w' :
  launchClawdChrome resolved profile w = (Died, w') ->
  exists exe wr,
    resolveBrowserExecutable resolved w = (Returned (Some exe), wr) /\
    mkdirFault host (dataDirOf profile) (now wr) = None /\
    spawnFault host (path exe) (chromeArgs resolved profile (dataDirOf profile))
      (now wr) = None /\
    spawnPid host (spawned wr) = None /\
    w' = log (EvHttpGet (versionUrlOf (cdpUrl profile)))
           (spawnedWorld resolved profile exe wr).
Proof.
  intros Hrun.
  destruct (cdpIsLoopback profile) eqn:Hloop;
    [|unfold launchClawdChrome in Hrun; rewrite Hloop in Hrun; discriminate].
  pose proof (launch_cases resolved profile w Hloop) as Hcases.
  pose proof (neverDies_resolve resolved (platform host) w) as Hlive.
  fold (resolveBrowserExecutable resolved) in Hlive.
  destruct (resolveBrowserExecutable resolved w) as [[[exe|]|e|] wr];
    try (rewrite Hrun in Hcases; discriminate); [|now destruct Hlive].
  destruct (mkdirFault host (dataDirOf profile) (now wr)) eqn:Hmk;
    [rewrite Hrun in Hcases; discriminate|].
  destruct (spawnFault host (path exe) _ (now wr)) eqn:Hsp;
    [rewrite Hrun in Hcases; discriminate|].
  pose proof (awaitCdp_run profile exe (dataDirOf profile) (now wr) (spawned wr)
                (spawnedWorld resolved profile exe wr)) as Hwait.
  destruct (spawnPid host (spawned wr)) as [pid|] eqn:Hpid.
  - destruct Hwait as (n & wl & _ & _ & _ & _ & _ & _ & _ & Hwait).
    rewrite <- Hcases, Hrun in Hwait.
    destruct (reachableAt (cdpUrl profile) 500 (now wl)); discriminate.
  - rewrite <- Hcases, Hrun in Hwait. inversion Hwait.
    exists exe, wr. now repeat split.
Qed.

Definition startConfig (opts : option StartOptions) : ResolvedBrowserConfig :=
  mkConfig None
    (match opts with
     | Some o => match optHeadless o with Some b => b | None => false end
     | None => false
     end)
    false None None.

Definition startProfile : ResolvedBrowserProfile :=
  mkProfile "default" 9222 "http://127.0.0.1:9222" true "#ff0000".

(** [launchDefault] is the launch, followed by the recording of its result. *)
Lemma launchDefault_run opts w :
  launchDefault opts w =
  match launchClawdChrome (startConfig opts) startProfile w with
  | (Returned launched, w1) => (Returned tt, setActive (Some launched) w1)
  | (Thrown e, w1) => (Thrown e, w1)
  | (Died, w1) => (Died, w1)
  end.
Proof.
  unfold launchDefault, bind, effect, startConfig, startProfile.
  destruct (launchClawdChrome _ _ w) as [[launched|e|] w1]; reflexivity.
Qed.

(** The world in which [browserStart] launches, when it does. *)
Definition launchPoint (w : World) : World :=
  match activeBrowser w with
  | Some running =>
      setActive None
        (advance (probeSpan (cdpUrlForPort (runningPort running)) 500 (now w))
           (log (EvHttpGet (versionUrlOf (cdpUrlForPort (runningPort running)))) w))
  | None => w
  end.

Lemma browserStart_run opts w :
  browserStart opts w =
  match activeBrowser w with
  | Some running =>
      if reachableAt (cdpUrlForPort (runningPort running)) 500 (now w)
      then (Returned tt,
            advance (probeSpan (cdpUrlForPort (runningPort running)) 500 (now w))
              (log (EvHttpGet (versionUrlOf (cdpUrlForPort (runningPort running)))) w))
      else launchDefault opts (launchPoint w)
  | None => launchDefault opts (launchPoint w)
  end.
Proof.
  unfold browserStart, bind, ask, launchPoint. cbv beta iota.
  destruct (activeBrowser w) as [running|]; [|reflexivity].
  change ("http://127.0.0.1:" ++ numberToString (runningPort running))
    with (cdpUrlForPort (runningPort running)).
  rewrite isChromeReachable_run.
  destruct (reachableAt _ 500 (now w)); reflexivity.
Qed.

Lemma browserStart_registry opts w :
  match browserStart opts w with
  | (Returned _, w') =>
      exists running,
        activeBrowser w' = Some running /\
        getCdpUrl w' = (Returned (cdpUrlForPort (runningPort running)), w') /\
        (activeBrowser w = Some running \/ runningPort running = 9222)
  | (Thrown _, w') =>
      activeBrowser w' = None /\
      exists e, getCdpUrl w' = (Thrown e, w')
  | (Died, w') => activeBrowser w' = None
  end.
Proof.
  assert (Hget : forall w' running,
            activeBrowser w' = Some running ->
            getCdpUrl w' = (Returned (cdpUrlForPort (runningPort running)), w')).
  { intros w' running H. unfold getCdpUrl, bind, ask. cbv beta iota. now rewrite H. }
  assert (Hnone : forall w', activeBrowser w' = None ->
                             exists e, getCdpUrl w' = (Thrown e, w')).
  { intros w' H. unfold getCdpUrl, bind, ask. cbv beta iota. rewrite H.
    now eexists. }
  assert (Hlaunch : forall w0,
            activeBrowser w0 = None ->
            match launchDefault opts w0 with
            | (Returned _, w') =>
                exists running,
                  activeBrowser w' = Some running /\
                  getCdpUrl w' = (Returned (cdpUrlForPort (runningPort running)), w') /\
                  (activeBrowser w = Some running \/ runningPort running = 9222)
            | (Thrown _, w') =>
                activeBrowser w' = None /\ exists e, getCdpUrl w' = (Thrown e, w')
            | (Died, w') => activeBrowser w' = None
            end).
  { intros w0 H0. rewrite launchDefault_run.
    pose proof (proj1 (launch_frame (startConfig opts) startProfile w0)) as Hact.
    destruct (launchClawdChrome (startConfig opts) startProfile w0)
      as [[launched|e|] w1] eqn:Hrun; cbn [snd] in Hact.
    - exists launched. split; [reflexivity|]. split; [now apply Hget|].
      right. exact (proj1 (launch_session _ _ _ _ _ Hrun)).
    - rewrite H0 in Hact. split; [exact Hact | now apply Hnone].
    - now rewrite H0 in Hact. }
  rewrite browserStart_run. unfold launchPoint.
  destruct (activeBrowser w) as [running|] eqn:Hactive; [|now apply Hlaunch].
  destruct (reachableAt _ 500 (now w)); [|now apply Hlaunch].
  exists running. split; [exact Hactive|]. split; [now apply Hget | now left].
Qed.

(** X21. [browserStart] and the registry agree, whatever happens: when it
    returns normally a session is tracked, and [getCdpUrl] then returns the
    loopback URL of its port, which is 9222 unless the session is the one
    that was tracked before the call; when it raises, no session is tracked
    (a failed start leaves no stale entry behind); and when the process dies
    during the start, no session had been recorded. *)
Theorem browserStart_agrees_with_registry opts w :
  match browserStart opts w with
  | (Returned _, w') =>
      exists running,
        activeBrowser w' = Some running /\
        getCdpUrl w' = (Returned (cdpUrlForPort (runningPort running)), w') /\
        (activeBrowser w = Some running \/ runningPort running = 9222)
  | (Thrown _, w') =>
      activeBrowser w' = None /\
      exists e, getCdpUrl w' = (Thrown e, w')
  | (Died, w') => activeBrowser w' = None
  end.
Proof. exact (browserStart_registry opts w). Qed.

Lemma launch_appends resolved profile w :
  trace (snd (launchClawdChrome resolved profile w))
  = (trace w ++ newEvents w (snd (launchClawdChrome resolved profile w)))%list.
Proof.
  assert (Hext : exists evs, trace (snd (launchClawdChrome resolved profile w))
                             = (trace w ++ evs)%list).
  { destruct (cdpIsLoopback profile) eqn:Hloop.
    - pose proof (launch_cases resolved profile w Hloop) as Hcases.
      destruct (emitsOnly_resolve resolutionEvent (fun _ => eq_refl)
                  (fun _ _ => eq_refl) resolved (platform host) w)
        as (pre & Hpre & _).
      fold (resolveBrowserExecutable resolved) in Hpre.
      destruct (resolveBrowserExecutable resolved w) as [[[exe|]|e|] wr] eqn:Hres;
        cbn [snd] in Hpre.
      + destruct (launch_paths resolved profile w exe wr Hloop Hres)
          as (n & tail & Htrace & _).
        rewrite Htrace, Hpre, <- app_assoc. now eexists.
      + rewrite Hcases. cbn [snd]. now exists pre.
      + rewrite Hcases. cbn [snd]. now exists pre.
      + rewrite Hcases. cbn [snd]. now exists pre.
    - unfold launchClawdChrome. rewrite Hloop. cbn [negb snd throw].
      exists []. now rewrite app_nil_r. }
  destruct Hext as (evs & Hevs). now rewrite (newEvents_app _ _ _ Hevs).
Qed.

(** The events of [browserStart]: at most the probe of the tracked session,
    then those of the launch, if there is one. *)
Lemma browserStart_events opts w :
  exists probe,
    (probe = [] \/ exists url, probe = [EvHttpGet url]) /\
    trace (launchPoint w) = (trace w ++ probe)%list /\
    (newEvents w (snd (browserStart opts w)) = probe \/
     newEvents w (snd (browserStart opts w))
     = (probe ++ newEvents (launchPoint w)
                   (snd (launchClawdChrome (startConfig opts) startProfile
                           (launchPoint w))))%list).
Proof.
  assert (Hlaunch : forall probe,
            trace (launchPoint w) = (trace w ++ probe)%list ->
            newEvents w (snd (launchDefault opts (launchPoint w)))
            = (probe ++ newEvents (launchPoint w)
                          (snd (launchClawdChrome (startConfig opts) startProfile
                                  (launchPoint w))))%list).
  { intros probe Hprobe. rewrite launchDefault_run.
    pose proof (launch_appends (startConfig opts) startProfile (launchPoint w))
      as Happ.
    destruct (launchClawdChrome (startConfig opts) startProfile (launchPoint w))
      as [[launched|e|] w1]; cbn [snd] in *; apply newEvents_app;
      cbn [trace setActive]; now rewrite Happ, Hprobe, <- app_assoc. }
  rewrite browserStart_run. unfold launchPoint in *.
  destruct (activeBrowser w) as [running|].
  - exists [EvHttpGet (versionUrlOf (cdpUrlForPort (runningPort running)))].
    split; [right; now eexists|]. split; [reflexivity|].
    destruct (reachableAt _ 500 (now w)).
    + left. now apply newEvents_app.
    + right. now apply Hlaunch.
  - exists []. split; [now left|]. split; [now rewrite app_nil_r|].
    right. apply Hlaunch. now rewrite app_nil_r.
Qed.

(** The process dies in [browserStart] only in the launch, of a child that
    the operating system could not start. *)
Lemma browserStart_died opts w w' :
  browserStart opts w = (Died, w') ->
  activeBrowser w' = None /\
  exists exe wr,
    resolveBrowserExecutable (startConfig opts) (launchPoint w)
    = (Returned (Some exe), wr) /\
    spawnPid host (spawned wr) = None /\
    newEvents wr w'
    = [EvMkdir (dataDirOf startProfile);
       EvSpawn (spawned wr) (path exe)
         (chromeArgs (startConfig opts) startProfile (dataDirOf startProfile))
         (homedir host);
       EvHttpGet (versionUrlOf (cdpUrl startProfile))].
Proof.
  intros Hrun.
  assert (Hnone : activeBrowser (launchPoint w) = None).
  { unfold launchPoint. destruct (activeBrowser w) eqn:H; [reflexivity | exact H]. }
  assert (Hlaunch : launchDefault opts (launchPoint w) = (Died, w')).
  { rewrite browserStart_run in Hrun.
    destruct (activeBrowser w) as [running|]; [|exact Hrun].
    destruct (reachableAt _ 500 (now w)); [discriminate | exact Hrun]. }
  rewrite launchDefault_run in Hlaunch.
  pose proof (proj1 (launch_frame (startConfig opts) startProfile (launchPoint w)))
    as Hact.
  destruct (launchClawdChrome (startConfig opts) startProfile (launchPoint w))
    as [[launched|e|] w1] eqn:Hl; try discriminate.
  inversion Hlaunch; subst w1. cbn [snd] in Hact.
  split; [now rewrite Hact|].
  destruct (launch_died _ _ _ _ Hl) as (exe & wr & Hres & _ & _ & Hpid & Hw').
  exists exe, wr. split; [exact Hres|]. split; [exact Hpid|].
  apply newEvents_app. rewrite Hw'. unfold spawnedWorld.
  cbn [trace log createDir]. now rewrite <- !app_assoc.
Qed.

(** X22. Whatever the options, a process that [browserStart] spawns gets
    port 9222 and the user-data directory of the profile "default"; it runs
    headless exactly when the call passes [headless: true]; and it is never
    given [--no-sandbox] or [--disable-setuid-sandbox]. *)
Theorem browserStart_spawn_arguments opts w p file args home :
  In (EvSpawn p file args home) (newEvents w (snd (browserStart opts w))) ->
  args =
    ([ "--remote-debugging-port=9222";
       ("--user-data-dir="
        ++ pathJoin host [cwd host; "browser-data"; "default"])%string;
       "--no-first-run";
       "--no-default-browser-check";
       "--disable-sync";
       "--disable-background-networking";
       "--disable-component-update";
       "--disable-features=Translate,MediaRouter";
       "--disable-session-crashed-bubble";
       "--hide-crash-restore-bubble";
       "--password-store=basic" ]
     ++ (match opts with
         | Some (mkStartOptions (Some true)) => ["--headless=new"; "--disable-gpu"]
         | _ => []
         end)
     ++ (match platform host with linux => ["--disable-dev-shm-usage"] | _ => [] end)
     ++ ["about:blank"])%list /\
  ~ In "--no-sandbox" args /\ ~ In "--disable-setuid-sandbox" args.
Proof.
  intros Hin.
  assert (Hargs : args = chromeArgs (startConfig opts) startProfile
                           (dataDirOf startProfile)).
  { destruct (browserStart_events opts w) as (probe & Hprobe & _ & Hnew).
    assert (Hnp : ~ In (EvSpawn p file args home) probe)
      by (destruct Hprobe as [->|(u & ->)]; [intros [] | intros [H|[]]; discriminate]).
    destruct Hnew as [Hnew|Hnew]; rewrite Hnew in Hin; [contradiction|].
    apply in_app_or in Hin. destruct Hin as [Hin|Hin]; [contradiction|].
    exact (proj2 (proj2 (launch_event_kinds _ _ _ _ Hin)) p file args home eq_refl). }
  rewrite Hargs. unfold chromeArgs, push, dataDirOf, startConfig, startProfile.
  cbn [headless noSandbox cdpPort name app].
  change (numberToString 9222) with "9222".
  destruct opts as [[[[|]|]]|], (platform host); cbn [app optHeadless];
    (split; [reflexivity|]); split; cbn [In];
    intros H; repeat (destruct H as [H|H]; [discriminate H|]); exact H.
Qed.

(** X23. Recovery from a stale session: when the tracked session no longer
    answers, [browserStart] forgets it and launches afresh; it never sends
    a signal to the stale process nor touches its [killed] flag, and the
    session tracked after a successful relaunch holds a new process handle. *)
Theorem browserStart_drops_stale_session opts w running :
  activeBrowser w = Some running ->
  (proc running < spawned w)%nat ->
  reachableAt (cdpUrlForPort (runningPort running)) 500 (now w) = false ->
  browserStart opts w
  = launchDefault opts
      (setActive None
         (advance (probeSpan (cdpUrlForPort (runningPort running)) 500 (now w))
            (log (EvHttpGet (versionUrlOf (cdpUrlForPort (runningPort running)))) w))) /\
  (forall s, ~ In (EvKill (proc running) s)
               (newEvents w (snd (browserStart opts w)))) /\
  killed (snd (browserStart opts w)) (proc running) = killed w (proc running) /\
  (forall running',
     activeBrowser (snd (browserStart opts w)) = Some running' ->
     proc running' = spawned w /\ proc running' <> proc running).
Proof.
  intros Hactive Holder Hdown.
  assert (Hpoint : launchPoint w
                   = setActive None
                       (advance (probeSpan (cdpUrlForPort (runningPort running)) 500
                                   (now w))
                          (log (EvHttpGet
                                  (versionUrlOf (cdpUrlForPort (runningPort running))))
                             w)))
    by (unfold launchPoint; now rewrite Hactive).
  assert (Hsp : spawned (launchPoint w) = spawned w) by now rewrite Hpoint.
  assert (Hk : killed (launchPoint w) = killed w) by now rewrite Hpoint.
  assert (Hrun : browserStart opts w = launchDefault opts (launchPoint w))
    by (rewrite browserStart_run, Hactive, Hdown; reflexivity).
  split; [now rewrite Hrun, Hpoint|]. split; [|split].
  - intros s Hin.
    destruct (browserStart_events opts w) as (probe & Hprobe & _ & Hnew).
    assert (Hnp : ~ In (EvKill (proc running) s) probe)
      by (destruct Hprobe as [->|(u & ->)]; [intros [] | intros [H|[]]; discriminate]).
    destruct Hnew as [Hnew|Hnew]; rewrite Hnew in Hin; [contradiction|].
    apply in_app_or in Hin. destruct Hin as [Hin|Hin]; [contradiction|].
    apply launch_signals in Hin. destruct Hin as [Hq _]. rewrite Hsp in Hq. lia.
  - rewrite Hrun, launchDefault_run.
    pose proof (proj2 (proj2 (launch_frame (startConfig opts) startProfile
                                (launchPoint w))) (proc running)) as Hframe.
    rewrite Hsp, Hk in Hframe. specialize (Hframe ltac:(lia)).
    destruct (launchClawdChrome _ _ (launchPoint w)) as [[launched|e|] w1];
      exact Hframe.
  - intros running'. rewrite Hrun, launchDefault_run.
    pose proof (proj1 (launch_frame (startConfig opts) startProfile
                         (launchPoint w))) as Hact.
    destruct (launchClawdChrome _ _ (launchPoint w)) as [[launched|e|] w1] eqn:Hl;
      cbn [snd activeBrowser setActive] in *.
    + intros H. inversion H; subst running'.
      destruct (launch_session _ _ _ _ _ Hl) as [_ Hproc].
      rewrite Hproc, Hsp. split; [reflexivity | lia].
    + rewrite Hact, Hpoint. discriminate.
    + rewrite Hact, Hpoint. discriminate.
Qed.

(** ** direct-client.ts: snapshots and actions *)

(** The automation engine of [pw-tools-core.snapshot.ts] and
    [pw-tools-core.interactions.ts], which [direct-client.ts] only calls:
    each function is an arbitrary effectful computation.  [jsonStringify]
    stands for [JSON.stringify(nodes, null, 2)]. *)
Record Playwright : Type := mkPlaywright {
  snapshotAiViaPlaywright :
    string -> option string -> option Z -> M (string * option JValue);
  snapshotAriaViaPlaywright : string -> option string -> M JValue;
  jsonStringify : JValue -> string;
  navigateViaPlaywright : string -> option string -> option string -> M JValue;
  clickViaPlaywright :
    string -> option string -> option string -> option string -> M JValue;
  typeViaPlaywright :
    string -> option string -> option string -> option string -> option bool
    -> M JValue;
  scrollIntoViewViaPlaywright : string -> option string -> option string -> M JValue;
  hoverViaPlaywright : string -> option string -> option string -> M JValue
}.

Variable pw : Playwright.

(** [SnapshotResult]; the field [ok] is always [true]. *)
Record SnapshotResult : Type := mkSnapshot {
  snapshotFormat : string;
  snapshot : string;
  refs : option JValue
}.

Definition unsupportedFormatError : JsError := mkError "Unsupported format".

Definition browserSnapshot (format : string) (targetId : option string)
    (maxChars : option Z) : M SnapshotResult :=
  url <- getCdpUrl ;;
  if String.eqb format "ai" then
    res <- snapshotAiViaPlaywright pw url targetId maxChars ;;
    ret (mkSnapshot "ai" (fst res) (snd res))
  else if String.eqb format "aria" then
    nodes <- snapshotAriaViaPlaywright pw url targetId ;;
    ret (mkSnapshot "aria" (jsonStringify pw nodes) None)
  else throw unsupportedFormatError.

(** The [args] of [browserAct]: the request object of the tool. *)
Record ActRequest : Type := mkRequest {
  requestKind : string;
  requestTargetId : option string;
  requestRef : option string;
  requestText : option string;
  requestPressEnter : option bool;
  requestUrl : option string;
  requestButton : option string
}.

Definition unknownActionError (action : string) : JsError :=
  mkError ("Unknown action: " ++ action).

Definition browserAct (action : string) (args : ActRequest) : M JValue :=
  url <- getCdpUrl ;;
  let targetId := requestTargetId args in
  if String.eqb action "navigate" then
    navigateViaPlaywright pw url targetId (requestUrl args)
  else if String.eqb action "click" then
    clickViaPlaywright pw url targetId (requestRef args) (requestButton args)
  else if String.eqb action "type" then
    typeViaPlaywright pw url targetId (requestRef args) (requestText args)
      (requestPressEnter args)
  else if String.eqb action "scroll" then
    scrollIntoViewViaPlaywright pw url targetId (requestRef args)
  else if String.eqb action "hover" then
    hoverViaPlaywright pw url targetId (requestRef args)
  else throw (unknownActionError action).

(** ** tools/browser-tool.ts *)

(** [BrowserToolParams] *)
Record BrowserToolParams : Type := mkParams {
  action : string;
  paramTargetId : option string;
  paramFormat : option string;
  paramMaxChars : option Z;
  paramHeadless : option bool;
  request : option ActRequest
}.

(** [ToolExecutionResult]: its content is always a single text item. *)
Record ToolExecutionResult : Type := mkResult {
  text : string;
  isError : bool
}.

Definition missingRequestError : JsError :=
  mkError "Missing request object for action=act".

(** The body of the [try] of [browserTool.execute]. *)
Definition dispatch (args : BrowserToolParams) : M ToolExecutionResult :=
  if String.eqb (action args) "start" then
    browserStart (Some (mkStartOptions (paramHeadless args))) ;;
    ret (mkResult "Browser started." false)
  else if String.eqb (action args) "stop" then
    browserStop ;;
    ret (mkResult "Browser stopped." false)
  else if String.eqb (action args) "snapshot" then
    res <- browserSnapshot
             (match paramFormat args with Some f => f | None => "ai" end)
             (paramTargetId args) (paramMaxChars args) ;;
    ret (mkResult (snapshot res) false)
  else if String.eqb (action args) "act" then
    match request args with
    | None => throw missingRequestError
    | Some req =>
        browserAct (requestKind req) req ;;
        ret (mkResult "Action executed." false)
    end
  else throw (unknownActionError (action args)).

(** [browserTool.execute]: every error becomes an error result. *)
Definition execute (args : BrowserToolParams) : M ToolExecutionResult :=
  tryCatch (dispatch args)
    (fun err =>
       match err with
       | mkError message => ret (mkResult ("Error: " ++ message) true)
       end).

Lemma eqb_no (a b : string) : a <> b -> String.eqb a b = false.
Proof. intros H. now apply String.eqb_neq. Qed.

Lemma getCdpUrl_none w :
  activeBrowser w = None -> getCdpUrl w = (Thrown notStartedError, w).
Proof. intros H. unfold getCdpUrl, bind, ask. cbv beta iota. now rewrite H. Qed.

Lemma getCdpUrl_some w running :
  activeBrowser w = Some running ->
  getCdpUrl w = (Returned (cdpUrlForPort (runningPort running)), w).
Proof. intros H. unfold getCdpUrl, bind, ask. cbv beta iota. now rewrite H. Qed.

Lemma browserSnapshot_none w format targetId maxChars :
  activeBrowser w = None ->
  browserSnapshot format targetId maxChars w = (Thrown notStartedError, w).
Proof.
  intros H. unfold browserSnapshot, bind. now rewrite (getCdpUrl_none _ H).
Qed.

Lemma browserAct_none w act args :
  activeBrowser w = None -> browserAct act args w = (Thrown notStartedError, w).
Proof.
  intros H. unfold browserAct, bind. now rewrite (getCdpUrl_none _ H).
Qed.

(** X24. What [browserSnapshot] and [browserAct] refuse, they refuse before
    the automation engine is called and in an unchanged world.  Without a
    tracked session both raise "Browser not started", whatever the format
    or the action, even an unsupported one (the session test comes first).
    With a session, an action other than navigate, click, type, scroll and
    hover raises "Unknown action: <action>", and a format other than ai and
    aria raises "Unsupported format". *)
Theorem client_refusals w :
  (activeBrowser w = None ->
   (forall format targetId maxChars,
      browserSnapshot format targetId maxChars w = (Thrown notStartedError, w)) /\
   (forall act args, browserAct act args w = (Thrown notStartedError, w))) /\
  (forall running,
     activeBrowser w = Some running ->
     (forall act args,
        act <> "navigate" -> act <> "click" -> act <> "type" ->
        act <> "scroll" -> act <> "hover" ->
        browserAct act args w = (Thrown (unknownActionError act), w)) /\
     (forall format targetId maxChars,
        format <> "ai" -> format <> "aria" ->
        browserSnapshot format targetId maxChars w
        = (Thrown unsupportedFormatError, w))).
Proof.
  split.
  - intros H. split; intros;
      [now apply browserSnapshot_none | now apply browserAct_none].
  - intros running H. split.
    + intros act args H1 H2 H3 H4 H5. unfold browserAct, bind.
      rewrite (getCdpUrl_some _ _ H). cbv zeta.
      now rewrite !eqb_no by assumption.
    + intros format targetId maxChars H1 H2. unfold browserSnapshot, bind.
      rewrite (getCdpUrl_some _ _ H). now rewrite !eqb_no by assumption.
Qed.







(** X26. What the tool refuses, it refuses without side effect.  An action
    other than start, stop, snapshot and act gives "Error: Unknown action:
    <action>"; an act without a request object gives "Error: Missing
    request object for action=act", with or without a session; a snapshot,
    or an act with a request, while no session is tracked gives "Error:
    Browser not started".  In each case the world is unchanged. *)
Theorem execute_refusals args w :
  (action args <> "start" -> action args <> "stop" ->
   action args <> "snapshot" -> action args <> "act" ->
   execute args w
   = (Returned (mkResult ("Error: Unknown action: " ++ action args) true), w)) /\
  (action args = "act" -> request args = None ->
   execute args w
   = (Returned (mkResult "Error: Missing request object for action=act" true), w)) /\
  (activeBrowser w = None ->
   action args = "snapshot" \/ (action args = "act" /\ request args <> None) ->
   execute args w = (Returned (mkResult "Error: Browser not started" true), w)).
Proof.
  split; [|split].
  - intros H1 H2 H3 H4. unfold execute, tryCatch, dispatch.
    now rewrite !eqb_no by assumption.
  - intros Hact Hreq. unfold execute, tryCatch, dispatch. now rewrite Hact, Hreq.
  - intros Hnone [Hact|[Hact Hreq]]; unfold execute, tryCatch, dispatch;
      rewrite Hact; cbn [String.eqb Ascii.eqb Bool.eqb andb].
    + unfold bind at 1.
      now rewrite (browserSnapshot_none _ _ _ _ Hnone).
    + destruct (request args) as [req|]; [|contradiction]. unfold bind at 1.
      now rewrite (browserAct_none _ _ _ Hnone).
Qed.

(** X27. Stopping through the tool always succeeds: whatever the state of
    the registry, of the process and of the host, the result is "Browser
    stopped." and not an error, and no session is tracked afterwards.  With
    no session tracked before, nothing changes at all. *)
Theorem execute_stop_always_succeeds args w :
  action args = "stop" ->
  exists w',
    execute args w = (Returned (mkResult "Browser stopped." false), w') /\
    activeBrowser w' = None /\
    (activeBrowser w = None -> w' = w).
Proof.
  intros Hstop. unfold execute, tryCatch, dispatch. rewrite Hstop.
  cbn [String.eqb Ascii.eqb Bool.eqb andb]. unfold bind at 1.
  unfold browserStop, bind, ask. cbv beta iota.
  destruct (activeBrowser w) as [running|] eqn:Hactive.
  - destruct (stopClawdChrome_returns running 2500 w) as (w1 & Hrun).
    rewrite Hrun. cbv beta iota. eexists. split; [reflexivity|].
    split; [reflexivity | discriminate].
  - exists w. split; [reflexivity|]. split; [exact Hactive | reflexivity].
Qed.

(** X28. Starting through the tool reports what the registry holds.  The
    call never rejects.  When it returns, the result is "Browser started."
    exactly when a session is tracked afterwards, and otherwise an error
    result whose text is "Error: " followed by the message of the failed
    start, with no session tracked.  When it does not return, the process
    has died in the launch of a child that the operating system could not
    start, right after the spawn and the first probe, and no session is
    tracked. *)
Theorem execute_start_reports_registry args w :
  action args = "start" ->
  match execute args w with
  | (Returned r, w') =>
      (r = mkResult "Browser started." false /\
       exists running, activeBrowser w' = Some running) \/
      (isError r = true /\ activeBrowser w' = None /\
       exists message,
         text r = "Error: " ++ message /\
         fst (browserStart (Some (mkStartOptions (paramHeadless args))) w)
         = Thrown (mkError message))
  | (Thrown _, _) => False
  | (Died, w') =>
      fst (browserStart (Some (mkStartOptions (paramHeadless args))) w) = Died /\
      activeBrowser w' = None /\
      exists exe wr,
        spawnPid host (spawned wr) = None /\
        newEvents wr w'
        = [EvMkdir (dataDirOf startProfile);
           EvSpawn (spawned wr) (path exe)
             (chromeArgs (startConfig (Some (mkStartOptions (paramHeadless args))))
                startProfile (dataDirOf startProfile))
             (homedir host);
           EvHttpGet (versionUrlOf (cdpUrl startProfile))]
  end.
Proof.
  intros Hstart. unfold execute, tryCatch, dispatch. rewrite Hstart.
  cbn [String.eqb Ascii.eqb Bool.eqb andb]. unfold bind at 1.
  pose proof (browserStart_registry
                (Some (mkStartOptions (paramHeadless args))) w) as Hreg.
  destruct (browserStart _ w) as [[u|[message]|] w1] eqn:Hrun.
  - destruct Hreg as (running & Hactive & _).
    left. split; [reflexivity|]. now exists running.
  - destruct Hreg as (Hnone & _).
    right. split; [reflexivity|]. split; [exact Hnone|]. now exists message.
  - destruct (browserStart_died _ _ _ Hrun) as (Hnone & exe & wr & _ & Hpid & Hev).
    split; [reflexivity|]. split; [exact Hnone|]. now exists exe, wr.
Qed.

End Program.

(** ** Concrete hosts and worlds *)

Module Demo.

(** A Linux host on which directories are created unless [mkdir] says
    otherwise, [spawn] returns unless [spawning] says otherwise, the n-th
    child gets the pid [pids n], every signal is delivered, no child ever
    reports an exit code, the CDP endpoint answers every probe [latency] ms
    after it starts with [reply], and every WebSocket behaves as [socket]. *)
Definition linuxHostWith (mkdir spawning : option JsError) (pids : ProcRef -> option Z)
    (latency : N) (reply : HttpReply) (socket : WsOutcome) : Host :=
  mkHost linux "/work" "/home/user" None None
    (String.concat "/") (String.concat "\") (fun _ => None)
    (fun base suffix => base ++ suffix) (fun _ => []) (fun wsUrl _ => wsUrl)
    (fun _ _ _ _ => mkExec 0 None)
    (fun _ _ => mkdir)
    (fun _ _ _ => spawning)
    pids
    (fun _ _ => None)
    (fun _ _ _ => Delivered)
    (fun _ _ _ => mkHttp latency reply)
    (fun _ _ _ _ => socket).

(** The same host when nothing goes wrong with the directory and the
    child. *)
Definition linuxHost (latency : N) (reply : HttpReply) (socket : WsOutcome) : Host :=
  linuxHostWith None None (fun p => Some (4000 + Z.of_nat p)) latency reply socket.

(** Nothing listens on the port. *)
Definition deadHost : Host := linuxHost 3 NetworkError (WsError 3).

(** The port is held by a service that never answers. *)
Definition mutedHost : Host := linuxHost 1000 NetworkError WsSilent.

Definition versionReply : HttpReply :=
  Response true
    (Some (JObj [("Browser", JStr "Chrome/120.0.0.0");
                 ("webSocketDebuggerUrl",
                  JStr "ws://127.0.0.1:9222/devtools/browser/abc")])).

(** The browser answers [/json/version] and advertises a WebSocket URL, on
    which the handshake fails. *)
Definition liveHost : Host := linuxHost 5 versionReply (WsError 3).

(** The same browser, accepting the handshake after 4 ms. *)
Definition readyHost : Host := linuxHost 5 versionReply (WsOpen 4).

Definition accessDenied : JsError :=
  mkError "EACCES: permission denied, mkdir '/work/browser-data/default'".

(** The working directory is not writable. *)
Definition readOnlyHost : Host :=
  linuxHostWith (Some accessDenied) None (fun p => Some (4000 + Z.of_nat p))
    5 versionReply (WsError 3).

Definition badArgument : JsError :=
  mkError "The argument 'args' must be a string without null bytes.".

(** [spawn] throws. *)
Definition refusingHost : Host :=
  linuxHostWith None (Some badArgument) (fun p => Some (4000 + Z.of_nat p))
    5 versionReply (WsError 3).

(** The operating system cannot start the child, although the file exists
    and another browser answers on the port. *)
Definition strandedHost : Host :=
  linuxHostWith None None (fun _ => None) 5 versionReply (WsError 3).

(** A world at time 1000 in which exactly the given paths exist. *)
Definition worldWith (paths : list string) (active : option RunningChrome) : World :=
  mkWorld 1000 (fun p => existsb (String.eqb p) paths) (fun _ => false) 0%nat active [].

Definition chromiumOnly : World := worldWith ["/usr/bin/chromium"] None.

Definition noBrowser : World := worldWith [] None.

Definition stableAndChromium : World :=
  worldWith ["/usr/bin/google-chrome-stable"; "/usr/bin/chromium"] None.

Definition plainConfig : ResolvedBrowserConfig := mkConfig None true false None None.

Definition customConfig (p : string) : ResolvedBrowserConfig :=
  mkConfig (Some p) false false None None.

Definition defaultProfile : ResolvedBrowserProfile :=
  mkProfile "default" 9222 "http://127.0.0.1:9222" true "#ff0000".

Definition remoteProfile : ResolvedBrowserProfile :=
  mkProfile "cloud" 9222 "http://10.0.0.7:9222" false "#00ff00".

Definition chromiumExe : BrowserExecutable := mkExe chromium "/usr/bin/chromium".

(** The session a launch on [chromiumOnly] produces. *)
Definition session : RunningChrome :=
  mkRunning 4000 chromiumExe "/work/browser-data/default" 9222 1000 0%nat.

(** A world in which that session is tracked. *)
Definition tracking : World :=
  mkWorld 20000 (fun p => String.eqb p "/usr/bin/chromium") (fun _ => false) 1%nat
          (Some session) [].

(** [chromiumOnly] after the resolution has probed its way to Chromium. *)
Definition chromiumFound : World :=
  log (EvExists "/usr/bin/chromium") (log (EvExists "/usr/bin/google-chrome") chromiumOnly).

End Demo.

Import Demo.

(** ** Instances of the theorems *)

Lemma launch_rejects_remote_profile_witness :
  launchClawdChrome deadHost plainConfig remoteProfile chromiumOnly
  = (Thrown (remoteProfileError remoteProfile), chromiumOnly).
Proof.
  apply launch_rejects_remote_profile. reflexivity.
Defined.

Lemma browserStart_reuses_reachable_session_witness :
  exists w',
    browserStart liveHost None tracking = (Returned tt, w') /\
    activeBrowser w' = Some session /\
    spawned w' = spawned tracking /\
    killed w' = killed tracking /\
    fs w' = fs tracking /\
    newEvents tracking w'
    = [EvHttpGet (versionUrlOf liveHost (cdpUrlForPort (runningPort session)))].
Proof.
  apply browserStart_reuses_reachable_session; reflexivity.
Defined.

Lemma browserStart_reuse_ignores_options_witness :
  browserStart liveHost (Some (mkStartOptions (Some true))) tracking
  = browserStart liveHost None tracking /\
  snd (browserStart liveHost (Some (mkStartOptions (Some true))) tracking)
  = advance 5 (log (EvHttpGet "http://127.0.0.1:9222/json/version") tracking) /\
  activeBrowser (snd (browserStart liveHost (Some (mkStartOptions (Some true))) tracking))
  = Some session /\
  forallb notSpawn
    (newEvents tracking
       (snd (browserStart liveHost (Some (mkStartOptions (Some true))) tracking)))
  = true.
Proof.
  apply (browserStart_reuse_ignores_options liveHost _ tracking session); reflexivity.
Defined.

Lemma browserStop_clears_session_witness :
  browserStop liveHost noBrowser = (Returned tt, noBrowser) /\
  exists w',
    browserStop liveHost tracking = (Returned tt, w') /\
    activeBrowser w' = None /\
    getCdpUrl w' = (Thrown notStartedError, w').
Proof.
  split.
  - apply (proj1 (browserStop_clears_session liveHost noBrowser)). reflexivity.
  - apply (proj2 (browserStop_clears_session liveHost tracking) session). reflexivity.
Defined.

Lemma stop_escalates_without_waiting_witness :
  exists w',
    stopClawdChrome liveHost session 2500 tracking = (Returned tt, w') /\
    newEvents tracking w' = [EvKill 0%nat SIGTERM; EvKill 0%nat SIGKILL] /\
    now w' = now tracking.
Proof.
  apply (stop_escalates_without_waiting liveHost session 2500 tracking); reflexivity.
Defined.

Lemma resolve_custom_path_only_witness :
  resolveBrowserExecutableForPlatform deadHost (customConfig "/opt/chrome/chrome")
    win32 chromiumOnly
  = (Thrown (executablePathNotFound "/opt/chrome/chrome"),
     log (EvExists "/opt/chrome/chrome") chromiumOnly) /\
  resolveBrowserExecutableForPlatform deadHost (customConfig "/usr/bin/chromium")
    darwin chromiumOnly
  = (Returned (Some (mkExe custom "/usr/bin/chromium")),
     log (EvExists "/usr/bin/chromium") chromiumOnly) /\
  resolveBrowserExecutableForPlatform deadHost (customConfig EmptyString)
    linux chromiumOnly
  = resolveBrowserExecutableForPlatform deadHost plainConfig linux chromiumOnly.
Proof.
  split; [|split].
  3: exact (proj2 (resolve_custom_path_only deadHost (customConfig EmptyString)
                     linux chromiumOnly) eq_refl plainConfig eq_refl).
  - apply (proj1 (proj1 (resolve_custom_path_only deadHost
                           (customConfig "/opt/chrome/chrome") win32 chromiumOnly)
                    "/opt/chrome/chrome" eq_refl ltac:(discriminate))).
    reflexivity.
  - apply (proj2 (proj1 (resolve_custom_path_only deadHost
                           (customConfig "/usr/bin/chromium") darwin chromiumOnly)
                    "/usr/bin/chromium" eq_refl ltac:(discriminate))).
    reflexivity.
Defined.

Lemma linux_default_detection_scans_witness :
  fst (resolveBrowserExecutableForPlatform liveHost plainConfig linux stableAndChromium)
  = Returned (Some chromiumExe).
Proof.
  exact (proj2 (proj2 (linux_default_detection_scans liveHost stableAndChromium))
           plainConfig eq_refl).
Defined.

Lemma launch_spawn_arguments_witness :
  chromeArgs liveHost plainConfig defaultProfile "/work/browser-data/default"
  = [ "--remote-debugging-port=9222";
      "--user-data-dir=/work/browser-data/default";
      "--no-first-run";
      "--no-default-browser-check";
      "--disable-sync";
      "--disable-background-networking";
      "--disable-component-update";
      "--disable-features=Translate,MediaRouter";
      "--disable-session-crashed-bubble";
      "--hide-crash-restore-bubble";
      "--password-store=basic";
      "--headless=new";
      "--disable-gpu";
      "--disable-dev-shm-usage";
      "about:blank" ].
Proof.
  apply (launch_spawn_arguments liveHost plainConfig defaultProfile chromiumOnly
           0%nat "/usr/bin/chromium" _ "/home/user").
  vm_compute. right. right. right. left. reflexivity.
Defined.

(** The world in which the launch of [session] on [liveHost] issues its
    last probe: the loop has ended on its first probe, 5 ms after the
    spawn. *)
Definition afterLoop : World :=
  probed liveHost (cdpUrl defaultProfile)
    (spawnedWorld liveHost plainConfig defaultProfile chromiumExe chromiumFound).


Lemma launch_unreachable_kills_then_fails_witness :
  (exists n w',
     launchClawdChrome deadHost plainConfig defaultProfile chromiumOnly
     = (Thrown (cdpStartError defaultProfile), w') /\
     trace w' =
       (trace chromiumFound
        ++ [EvMkdir (dataDirOf deadHost defaultProfile);
            EvSpawn 0%nat "/usr/bin/chromium"
              (chromeArgs deadHost plainConfig defaultProfile
                 (dataDirOf deadHost defaultProfile))
              "/home/user"]
        ++ repeat (EvHttpGet "http://127.0.0.1:9222/json/version") (S n)
        ++ [EvKill 0%nat SIGKILL])%list /\
     16000 <= now w' <= 17199) /\
  launchClawdChrome readOnlyHost plainConfig defaultProfile chromiumOnly
  = (Thrown accessDenied, log (EvMkdir "/work/browser-data/default") chromiumFound) /\
  fst (launchClawdChrome refusingHost plainConfig defaultProfile chromiumOnly)
  = Thrown badArgument /\
  fst (launchClawdChrome strandedHost plainConfig defaultProfile chromiumOnly)
  = Died /\
  launchClawdChrome deadHost plainConfig defaultProfile noBrowser
  = (Thrown noBrowserError,
     snd (resolveBrowserExecutable deadHost plainConfig noBrowser)) /\
  launchClawdChrome deadHost (customConfig "/opt/chrome/chrome") defaultProfile
    chromiumOnly
  = (Thrown (executablePathNotFound "/opt/chrome/chrome"),
     log (EvExists "/opt/chrome/chrome") chromiumOnly).
Proof.
  split; [|split; [|split; [|split; [|split]]]].
  - destruct (proj1 (proj1 (launch_unreachable_kills_then_fails deadHost plainConfig
                              defaultProfile chromiumOnly eq_refl)
                       chromiumExe chromiumFound eq_refl)
                4000 eq_refl eq_refl eq_refl)
      as (n & wl & w' & _ & _ & _ & _ & _ & _ & Hnever).
    exists n, w'. apply Hnever. intros t _. reflexivity.
  - apply (proj1 (proj2 (proj1 (launch_unreachable_kills_then_fails readOnlyHost
                                  plainConfig defaultProfile chromiumOnly eq_refl)
                           chromiumExe chromiumFound eq_refl))).
    reflexivity.
  - rewrite (proj1 (proj2 (proj2 (proj1 (launch_unreachable_kills_then_fails
                                          refusingHost plainConfig defaultProfile
                                          chromiumOnly eq_refl)
                                   chromiumExe chromiumFound eq_refl)))
               badArgument eq_refl eq_refl).
    reflexivity.
  - rewrite (proj2 (proj2 (proj2 (proj1 (launch_unreachable_kills_then_fails
                                          strandedHost plainConfig defaultProfile
                                          chromiumOnly eq_refl)
                                   chromiumExe chromiumFound eq_refl)))
               eq_refl eq_refl eq_refl).
    reflexivity.
  - apply (proj1 (proj2 (launch_unreachable_kills_then_fails deadHost plainConfig
                           defaultProfile noBrowser eq_refl))).
    reflexivity.
  - apply (proj2 (proj2 (launch_unreachable_kills_then_fails deadHost
                           (customConfig "/opt/chrome/chrome") defaultProfile
                           chromiumOnly eq_refl))).
    reflexivity.
Defined.

(** ** Where the stated claims fail *)

(** C1 as stated fails twice.  With no browser installed the launch for a
    loopback profile against a dead endpoint raises the "no supported
    browser" error: it neither spawns nor kills anything, and the error is
    not the connectivity error.  And when every probe runs into its 500 ms
    timeout, the SIGKILL comes 15 900 ms after the spawn (at time 1000),
    later than the deadline plus one final probe. *)
Lemma launch_without_browser_counterexample :
  cdpIsLoopback defaultProfile = true /\
  (forall t, reachableAt deadHost (cdpUrl defaultProfile) 500 t = false) /\
  fst (launchClawdChrome deadHost plainConfig defaultProfile noBrowser)
  = Thrown noBrowserError /\
  noBrowserError <> cdpStartError defaultProfile /\
  forallb resolutionEvent
    (trace (snd (launchClawdChrome deadHost plainConfig defaultProfile noBrowser)))
  = true /\
  (forall t, reachableAt mutedHost (cdpUrl defaultProfile) 500 t = false) /\
  now chromiumFound = 1000 /\
  now (snd (launchClawdChrome mutedHost plainConfig defaultProfile chromiumOnly))
  = 1000 + 15900.
Proof.
  split; [reflexivity|]. split; [intros t; reflexivity|].
  split; [vm_compute; reflexivity|]. split; [discriminate|].
  split; [vm_compute; reflexivity|]. split; [intros t; reflexivity|].
  split; [reflexivity|]. vm_compute. reflexivity.
Qed.

(** C3 as stated fails: with only google-chrome-stable and chromium
    installed, the Linux default detection finds Chromium, and resolution
    returns it although the candidate scan alone would have returned
    google-chrome-stable. *)
Lemma linux_default_detection_counterexample :
  fst (detectDefaultChromiumExecutable liveHost linux stableAndChromium)
  = Returned (Some chromiumExe) /\
  fst (resolveBrowserExecutableForPlatform liveHost plainConfig linux stableAndChromium)
  = Returned (Some chromiumExe) /\
  fst (findChromeExecutableLinux stableAndChromium)
  = Returned (Some (mkExe chrome "/usr/bin/google-chrome-stable")).
Proof.
  repeat split; vm_compute; reflexivity.
Qed.


(** C6 as stated fails: an [executablePath] set to the empty string, which
    names no existing file, raises nothing; resolution goes on to the
    detection and returns the Chromium it finds. *)
Lemma empty_executablePath_counterexample :
  executablePath (customConfig "") = Some EmptyString /\
  fs chromiumOnly EmptyString = false /\
  resolveBrowserExecutableForPlatform liveHost (customConfig "") linux chromiumOnly
  = (Returned (Some chromiumExe), chromiumFound).
Proof.
  repeat split.
Qed.

(** ** More hosts and worlds *)

Module Demo2.

(** A Linux host on which [kill] always ends as [signalling], probes are
    answered as [reply] says for their starting time, and sockets behave as
    [socket]. *)
Definition hostWith (signalling : KillOutcome) (reply : Z -> HttpOutcome)
    (socket : WsOutcome) : Host :=
  mkHost linux "/work" "/home/user" None None
    (String.concat "/") (String.concat "\") (fun _ => None)
    (fun base suffix => base ++ suffix) (fun _ => []) (fun wsUrl _ => wsUrl)
    (fun _ _ _ _ => mkExec 0 None)
    (fun _ _ => None)
    (fun _ _ _ => None)
    (fun p => Some (4000 + Z.of_nat p))
    (fun _ _ => None)
    (fun _ _ _ => signalling)
    (fun _ _ t => reply t)
    (fun _ _ _ _ => socket).

(** The signals do not reach the browser, which keeps answering. *)
Definition deafHost : Host :=
  hostWith NotDelivered (fun _ => mkHttp 5 versionReply) (WsError 3).

(** The browser is gone: no signal can be delivered, nothing answers. *)
Definition goneHost : Host :=
  hostWith NotDelivered (fun _ => mkHttp 3 NetworkError) (WsError 3).

(** The browser starts answering at time 5000. *)
Definition lateHost : Host :=
  hostWith Delivered
    (fun t => if t <? 5000 then mkHttp 3 NetworkError else mkHttp 5 versionReply)
    (WsError 3).

(** The endpoint answers with a version object that advertises no
    WebSocket URL. *)
Definition bareHost : Host :=
  linuxHost 5 (Response true (Some (JObj [("Browser", JStr "Chrome/120.0.0.0")])))
    (WsOpen 4).

(** A macOS host whose launch-services handlers name [bundleId] for http,
    after an older entry for https, and on which Brave is installed. *)
Definition macHost (bundleId : string) : Host :=
  mkHost darwin "/work" "/Users/me" None None
    (String.concat "/") (String.concat "\")
    (fun raw =>
       if String.eqb raw "[handlers]"
       then Some (JArr [ JObj [("LSHandlerURLScheme", JStr "https");
                               ("LSHandlerRoleAll", JStr "org.mozilla.firefox")];
                         JObj [("LSHandlerURLScheme", JStr "http");
                               ("LSHandlerRoleAll", JStr bundleId)] ])
       else None)
    (fun base suffix => base ++ suffix) (fun _ => []) (fun wsUrl _ => wsUrl)
    (fun command _ _ _ =>
       if String.eqb command "/usr/bin/plutil" then mkExec 20 (Some "[handlers]")
       else if String.eqb command "/usr/bin/osascript"
       then mkExec 300 (Some "/Applications/Brave Browser.app/ ")
       else mkExec 15 (Some "Brave Browser"))
    (fun _ _ => None)
    (fun _ _ _ => None)
    (fun p => Some (4000 + Z.of_nat p))
    (fun _ _ => None)
    (fun _ _ _ => Delivered)
    (fun _ _ _ => mkHttp 5 versionReply)
    (fun _ _ _ _ => WsError 3).

Definition bravePath : string :=
  "/Applications/Brave Browser.app/Contents/MacOS/Brave Browser".

Definition macWorld : World :=
  worldWith
    [ "/Users/me/Library/Preferences/com.apple.LaunchServices/com.apple.launchservices.secure.plist";
      bravePath ]
    None.

(** An automation engine that answers at once and touches nothing. *)
Definition quietEngine : Playwright :=
  mkPlaywright
    (fun _ _ _ => ret ("- document", None))
    (fun _ _ => ret (JArr []))
    (fun _ => "[]")
    (fun _ _ _ => ret JNull)
    (fun _ _ _ _ => ret JNull)
    (fun _ _ _ _ _ => ret JNull)
    (fun _ _ _ => ret JNull)
    (fun _ _ _ => ret JNull).

Definition toolCall (act : string) : BrowserToolParams :=
  mkParams act None None None (Some true) None.

End Demo2.

Import Demo2.

(** ** Instances of the further properties *)

Lemma resolved_executable_exists_witness :
  fs chromiumOnly "/usr/bin/chromium" = true /\ fs chromiumFound = fs chromiumOnly.
Proof.
  exact (resolved_executable_exists liveHost plainConfig linux chromiumOnly
           chromiumExe chromiumFound eq_refl).
Defined.

Lemma custom_kind_iff_configured_witness :
  (custom = custom <->
   exists p, Some "/usr/bin/chromium" = Some p /\ p <> EmptyString) /\
  (custom = custom -> Some "/usr/bin/chromium" = Some "/usr/bin/chromium").
Proof.
  exact (custom_kind_iff_configured liveHost (customConfig "/usr/bin/chromium") darwin
           chromiumOnly (mkExe custom "/usr/bin/chromium")
           (log (EvExists "/usr/bin/chromium") chromiumOnly) eq_refl).
Defined.

Lemma mac_detection_needs_chromium_default_witness :
  (exists bundleId,
     fst (detectDefaultBrowserBundleIdMac (macHost "com.brave.Browser") macWorld)
     = Returned (Some bundleId) /\
     has CHROMIUM_BUNDLE_IDS bundleId = true /\
     brave = inferKindFromIdentifier bundleId /\
     fs macWorld bravePath = true) /\
  fst (detectDefaultChromiumExecutableMac (macHost "com.apple.Safari") macWorld)
  = Returned None.
Proof.
  split.
  - apply (proj1 (mac_detection_needs_chromium_default (macHost "com.brave.Browser")
                    macWorld)
             (mkExe brave bravePath)
             (snd (detectDefaultChromiumExecutableMac (macHost "com.brave.Browser")
                     macWorld))).
    vm_compute. reflexivity.
  - rewrite (proj2 (mac_detection_needs_chromium_default (macHost "com.apple.Safari")
                      macWorld)
               "com.apple.Safari"
               (snd (detectDefaultBrowserBundleIdMac (macHost "com.apple.Safari")
                       macWorld))).
    + reflexivity.
    + vm_compute. reflexivity.
    + reflexivity.
Defined.

Lemma kind_inferences_agree_witness :
  inferKindFromExecutableName "Microsoft Edge Canary"
  = inferKindFromIdentifier "Microsoft Edge Canary".
Proof.
  apply kind_inferences_agree; reflexivity.
Defined.

Lemma cdpReady_implies_reachable_witness :
  reachableAt readyHost "http://127.0.0.1:9222" 500 (now chromiumOnly) = true.
Proof.
  exact (proj1 (cdpReady_implies_reachable readyHost "http://127.0.0.1:9222" 500 800
                  chromiumOnly eq_refl)).
Defined.

Lemma cdpReady_needs_advertised_url_witness :
  isChromeCdpReady bareHost "http://127.0.0.1:9222" 500 800 chromiumOnly
  = (Returned false,
     advance 5 (log (EvHttpGet "http://127.0.0.1:9222/json/version") chromiumOnly)).
Proof.
  exact (cdpReady_needs_advertised_url bareHost "http://127.0.0.1:9222" 500 800
           chromiumOnly eq_refl).
Defined.

Lemma stop_bounded_witness :
  exists w',
    stopClawdChrome deafHost session 2500 tracking = (Returned tt, w') /\
    now tracking <= now w' <= now tracking + 2500 + 299.
Proof.
  destruct (stop_bounded deafHost session 2500 tracking ltac:(lia))
    as (w' & n & closing & Hrun & Hclock & _).
  exists w'. split; assumption.
Defined.

Lemma stop_escalates_after_timeout_witness :
  exists w' n,
    stopClawdChrome deafHost session 2500 tracking = (Returned tt, w') /\
    newEvents tracking w'
    = ([EvKill 0%nat SIGTERM]
       ++ repeat (EvHttpGet "http://127.0.0.1:9222/json/version") n
       ++ [EvKill 0%nat SIGKILL])%list /\
    now tracking + 2500 <= now w' <= now tracking + 2500 + 299.
Proof.
  apply (stop_escalates_after_timeout deafHost session 2500 tracking).
  - lia.
  - reflexivity.
  - discriminate.
  - intros t _. reflexivity.
Defined.

Lemma stop_of_dead_browser_witness :
  exists w',
    stopClawdChrome goneHost session 2500 tracking = (Returned tt, w') /\
    newEvents tracking w'
    = [EvKill 0%nat SIGTERM; EvHttpGet "http://127.0.0.1:9222/json/version"] /\
    now tracking <= now w' <= now tracking + 200 /\
    killed w' = killed tracking.
Proof.
  apply (stop_of_dead_browser goneHost session 2500 tracking).
  - lia.
  - reflexivity.
  - discriminate.
  - reflexivity.
Defined.

Lemma launch_of_ready_browser_witness :
  exists w',
    launchClawdChrome liveHost plainConfig Demo.defaultProfile chromiumOnly
    = (Returned session, w') /\
    newEvents chromiumFound w'
    = [EvMkdir "/work/browser-data/default";
       EvSpawn 0%nat "/usr/bin/chromium"
         (chromeArgs liveHost plainConfig Demo.defaultProfile
            "/work/browser-data/default")
         "/home/user";
       EvHttpGet "http://127.0.0.1:9222/json/version";
       EvHttpGet "http://127.0.0.1:9222/json/version";
       EvLog "Browser started (chromium) on port 9222 (pid 4000)"] /\
    now chromiumFound <= now w' <= now chromiumFound + 998.
Proof.
  apply (launch_of_ready_browser liveHost plainConfig Demo.defaultProfile chromiumOnly
           chromiumExe chromiumFound 4000 eq_refl eq_refl eq_refl eq_refl eq_refl).
  intros t _. reflexivity.
Defined.

Lemma launch_succeeds_if_up_by_deadline_witness :
  exists n w',
    launchClawdChrome lateHost plainConfig Demo.defaultProfile chromiumOnly
    = (Returned session, w') /\
    newEvents chromiumFound w'
    = ([EvMkdir "/work/browser-data/default";
        EvSpawn 0%nat "/usr/bin/chromium"
          (chromeArgs lateHost plainConfig Demo.defaultProfile
             "/work/browser-data/default")
          "/home/user"]
       ++ repeat (EvHttpGet "http://127.0.0.1:9222/json/version") (S n)
       ++ [EvLog "Browser started (chromium) on port 9222 (pid 4000)"])%list.
Proof.
  apply (launch_succeeds_if_up_by_deadline lateHost plainConfig Demo.defaultProfile
           chromiumOnly chromiumExe chromiumFound 4000 5000
           eq_refl eq_refl eq_refl eq_refl eq_refl).
  - intros t t' Hle. unfold reachableAt, probeOutcome, lateHost, hostWith.
    cbn [httpGet].
    destruct (Z.ltb_spec t 5000), (Z.ltb_spec t' 5000);
      try reflexivity; try discriminate; lia.
  - cbn [now chromiumFound log chromiumOnly worldWith]. lia.
  - reflexivity.
Defined.

Lemma browserStart_spawn_arguments_witness :
  chromeArgs liveHost (startConfig (Some (mkStartOptions (Some true)))) startProfile
    "/work/browser-data/default"
  = [ "--remote-debugging-port=9222";
      "--user-data-dir=/work/browser-data/default";
      "--no-first-run";
      "--no-default-browser-check";
      "--disable-sync";
      "--disable-background-networking";
      "--disable-component-update";
      "--disable-features=Translate,MediaRouter";
      "--disable-session-crashed-bubble";
      "--hide-crash-restore-bubble";
      "--password-store=basic";
      "--headless=new";
      "--disable-gpu";
      "--disable-dev-shm-usage";
      "about:blank" ] /\
  ~ In "--no-sandbox"
      (chromeArgs liveHost (startConfig (Some (mkStartOptions (Some true))))
         startProfile "/work/browser-data/default") /\
  ~ In "--disable-setuid-sandbox"
      (chromeArgs liveHost (startConfig (Some (mkStartOptions (Some true))))
         startProfile "/work/browser-data/default").
Proof.
  apply (browserStart_spawn_arguments liveHost (Some (mkStartOptions (Some true)))
           chromiumOnly 0%nat "/usr/bin/chromium" _ "/home/user").
  vm_compute. right. right. right. left. reflexivity.
Defined.

Lemma browserStart_drops_stale_session_witness :
  (forall s, ~ In (EvKill 0%nat s)
               (newEvents tracking (snd (browserStart deadHost None tracking)))) /\
  killed (snd (browserStart deadHost None tracking)) 0%nat = killed tracking 0%nat.
Proof.
  destruct (browserStart_drops_stale_session deadHost None tracking session
              eq_refl ltac:(cbn; lia) eq_refl) as (_ & Hsig & Hflag & _).
  split; [exact Hsig | exact Hflag].
Defined.


Lemma execute_stop_always_succeeds_witness :
  exists w',
    execute liveHost quietEngine (toolCall "stop") tracking
    = (Returned (mkResult "Browser stopped." false), w') /\
    activeBrowser w' = None /\
    (activeBrowser tracking = None -> w' = tracking).
Proof.
  apply execute_stop_always_succeeds. reflexivity.
Defined.

Lemma execute_start_reports_registry_witness :
  (exists message,
     execute deadHost quietEngine (toolCall "start") noBrowser
     = (Returned (mkResult ("Error: " ++ message) true),
        snd (execute deadHost quietEngine (toolCall "start") noBrowser)) /\
     fst (browserStart deadHost (Some (mkStartOptions (Some true))) noBrowser)
     = Thrown (mkError message)) /\
  fst (execute strandedHost quietEngine (toolCall "start") chromiumOnly) = Died /\
  activeBrowser (snd (execute strandedHost quietEngine (toolCall "start") chromiumOnly))
  = None.
Proof.
  split.
  - pose proof (execute_start_reports_registry deadHost quietEngine (toolCall "start")
                  noBrowser eq_refl) as H.
    destruct (execute deadHost quietEngine (toolCall "start") noBrowser)
      as [[r| |] w'] eqn:Hrun; [|destruct H|discriminate Hrun].
    destruct H as [[Hr _]|(Herr & _ & message & Htext & Hstart)];
      [subst r; discriminate Hrun|].
    exists message. destruct r as [t e]. cbn [text isError] in *. subst.
    split; [reflexivity | exact Hstart].
  - pose proof (execute_start_reports_registry strandedHost quietEngine
                  (toolCall "start") chromiumOnly eq_refl) as H.
    destruct (execute strandedHost quietEngine (toolCall "start") chromiumOnly)
      as [[r| |] w'] eqn:Hrun; [discriminate Hrun|destruct H|].
    destruct H as (_ & Hnone & _). split; [reflexivity | exact Hnone].
Defined.
